(** * Quiz generator: service functions and session state machine

    A shallow embedding of [services/geminiService.ts] (topic extraction and
    quiz generation on top of a remote content-generation client) and of the
    session logic of the [App] component (state fields, event handlers,
    score), together with the properties of the specification.

    Conventions.
    - JavaScript numbers used as indices and counts are [Z].
    - A computation that may throw returns a [Result]; a thrown value is
      either an [Error] instance carrying its message or some other value.
    - The remote client and [JSON.parse] are the host: they are passed in as
      a [Host] record, one field per use in the source.
    - [Math.random] reads a tape of numbers; code that calls it threads the
      tape explicitly.
    - [Array.prototype.sort] is the engine's: V8's TimSort, which calls the
      comparator in a fixed order and reads only the sign of its result. *)

From Stdlib Require Import ZArith List String Ascii Bool Lia Permutation.
From Stdlib Require Import QArith DecimalString Arith.
From AAC_tactics Require Import AAC.
Import ListNotations.
Close Scope Q_scope.
Open Scope string_scope.
Open Scope Z_scope.

Set Implicit Arguments.

(* ================================================================== *)
(** ** Thrown values and fallible computations *)

(** What a [catch (err)] clause can receive: [err instanceof Error] holds
    for [ErrorObj], whose [message] is read by the handlers. *)
Inductive Thrown : Type :=
| ErrorObj (message : string)
| NonError.

Inductive Result (A : Type) : Type :=
| Ok (a : A)
| Throw (e : Thrown).
Arguments Ok {A} a.
Arguments Throw {A} e.

Definition bindR {A B : Type} (c : Result A) (k : A -> Result B) : Result B :=
  match c with
  | Ok a => k a
  | Throw e => Throw e
  end.

Notation "x <- c ;; k" := (bindR c (fun x => k))
  (at level 61, c at next level, right associativity).

Definition isOk {A : Type} (r : Result A) : bool :=
  match r with Ok _ => true | Throw _ => false end.

(** [l[i]] for a number [i]: [undefined] outside of [0 .. length-1]. *)
Definition nthZ {A : Type} (l : list A) (i : Z) : option A :=
  if i <? 0 then None else nth_error l (Z.to_nat i).

Definition lengthZ {A : Type} (l : list A) : Z := Z.of_nat (List.length l).

Definition nl : string := String (ascii_of_nat 10) EmptyString.
Definition dq : string := String (ascii_of_nat 34) EmptyString.

(** Template-literal rendering of a number. *)
Definition showNumber (n : Z) : string := NilZero.string_of_int (Z.to_int n).

(* ================================================================== *)
(** ** types.ts *)

Inductive AppState : Type :=
| SETUP
| ANALYZING
| GENERATING
| TAKING_QUIZ
| REVIEW.

Record Answer : Type := mkAnswer {
  text : string;
  isCorrect : bool;
  feedback : string
}.

Record Source : Type := mkSource {
  title : string;
  url : string
}.

Record QuizQuestion : Type := mkQuizQuestion {
  question : string;
  answers : list Answer;
  source : Source
}.

Record UserAnswer : Type := mkUserAnswer {
  questionIndex : Z;
  answerIndex : Z
}.

Definition AppState_eqb (a b : AppState) : bool :=
  match a, b with
  | SETUP, SETUP | ANALYZING, ANALYZING | GENERATING, GENERATING
  | TAKING_QUIZ, TAKING_QUIZ | REVIEW, REVIEW => true
  | _, _ => false
  end.

(* ================================================================== *)
(** ** The content-generation client *)

Inductive Part : Type :=
| InlineData (data mimeType : string)
| TextPart (t : string).

(** The three [config] objects of the source: the topics schema, the
    [googleSearch] tool, and the quiz schema. *)
Inductive Config : Type :=
| TopicsSchema
| GoogleSearchTool
| QuizSchema.

Record Request : Type := mkRequest {
  model : string;
  parts : list Part;
  config : Config
}.

Record Web : Type := mkWeb {
  web_title : string;
  web_uri : string
}.

Record GroundingChunk : Type := mkChunk {
  web : option Web
}.

Record GroundingMetadata : Type := mkMetadata {
  groundingChunks : option (list GroundingChunk)
}.

Record Candidate : Type := mkCandidate {
  groundingMetadata : option GroundingMetadata
}.

Record Response : Type := mkResponse {
  resp_text : string;
  candidates : option (list Candidate)
}.

(** The object [JSON.parse] gives for the topics schema; both properties may
    be missing. *)
Record GuideJson : Type := mkGuideJson {
  json_topics : option (list string);
  json_isGuide : option bool
}.

Record Host : Type := mkHost {
  (** [await ai.models.generateContent(request)]: resolves or rejects. *)
  generateContent : Request -> Result Response;
  (** [JSON.parse(response.text)] read at the topics schema. *)
  JSON_parse_guide : string -> Result GuideJson;
  (** [JSON.parse(questionGenResponse.text)] read as [QuizQuestion[]]. *)
  JSON_parse_quiz : string -> Result (list QuizQuestion)
}.

(* ================================================================== *)
(** ** services/geminiService.ts *)

Definition fileToGenerativePart (base64 mimeType : string) : Part :=
  InlineData base64 mimeType.

Definition notGuideMessage : string :=
  "The uploaded document does not appear to be a valid exam guide. Please upload a relevant file.".

Definition extractTopicsRequest (fileBase64 mimeType : string) : Request :=
  {| model := "gemini-2.5-flash";
     parts := [fileToGenerativePart fileBase64 mimeType];
     config := TopicsSchema |}.

Definition extractTopicsFromGuide (host : Host) (fileBase64 mimeType : string)
  : Result (list string) :=
  response <- generateContent host (extractTopicsRequest fileBase64 mimeType) ;;
  jsonResponse <- JSON_parse_guide host (resp_text response) ;;
  if negb (match json_isGuide jsonResponse with Some b => b | None => false end)
  then Throw (ErrorObj notGuideMessage)
  else Ok (match json_topics jsonResponse with Some ts => ts | None => [] end).

Definition join (sep : string) (l : list string) : string := String.concat sep l.

Definition searchPrompt (topics : list string) : string :=
  "Based on the provided exam guide, find the most recent and relevant official documentation, whitepapers, or technical guides that contain content aligning with these user-selected objectives: "
  ++ join ", " topics ++ ".".

Definition searchRequest (fileBase64 mimeType : string) (topics : list string) : Request :=
  {| model := "gemini-2.5-pro";
     parts := [fileToGenerativePart fileBase64 mimeType; TextPart (searchPrompt topics)];
     config := GoogleSearchTool |}.

(** [searchResponse.candidates?.[0]?.groundingMetadata?.groundingChunks || []] *)
Definition groundingChunksOf (searchResponse : Response) : list GroundingChunk :=
  match candidates searchResponse with
  | Some (c :: _) =>
      match groundingMetadata c with
      | Some m =>
          match groundingChunks m with
          | Some chunks => chunks
          | None => []
          end
      | None => []
      end
  | _ => []
  end.

Definition noSourcesText : string :=
  "No external sources found. Please rely solely on the provided exam guide.".

(** [chunk.web.title] throws a [TypeError] when [chunk.web] is missing. *)
Definition chunkLine (chunk : GroundingChunk) : Result string :=
  match web chunk with
  | Some w => Ok ("- Title: " ++ web_title w ++ ", URL: " ++ web_uri w)
  | None => Throw (ErrorObj "Cannot read properties of undefined (reading 'title')")
  end.

Fixpoint mapR {A B : Type} (f : A -> Result B) (l : list A) : Result (list B) :=
  match l with
  | [] => Ok []
  | x :: xs => y <- f x ;; ys <- mapR f xs ;; Ok (y :: ys)
  end.

Definition sourcesTextOf (chunks : list GroundingChunk) : Result string :=
  if 0 <? lengthZ chunks
  then
    lines <- mapR chunkLine chunks ;;
    Ok ("Use the following official sources as the primary reference for generating questions:"
        ++ nl ++ join nl lines)
  else Ok noSourcesText.

(** The generation prompt is a template literal with three holes; its fixed
    text is kept line by line, the lines being joined by newlines. *)
Definition promptHead : string :=
  join nl
    [ "";
      "    You are a world-class exam item writer specializing in advanced technical certifications. Your task is to create a challenging, scenario-based multiple-choice quiz.";
      "    ";
      "    **Source Material:**";
      "    1.  The primary source is the user-provided exam guide.";
      "    2.  Ground your questions and feedback in the following official sources discovered online:";
      "        " ].

Definition promptTask : string :=
  join nl
    [ "";
      "";
      "    **Task Details:**";
      "    -   Generate exactly " ].

Definition promptTopics : string :=
  join nl
    [ " multiple-choice quiz questions.";
      "    -   The questions must test the user's ability to apply and analyze concepts related to these topics: " ].

Definition promptRules : string :=
  join nl
    [ ".";
      "    -   Each question must strictly adhere to the ITEM WRITING GUIDELINES below.";
      "    -   For each question, provide detailed feedback for **every** answer choice, explaining why it is correct or incorrect.";
      "    -   The feedback must be grounded in the provided sources.";
      "    -   Include one relevant source URL for each question from the list of official sources.";
      "";
      "    **ITEM WRITING GUIDELINES:**";
      "";
      "    **Question Design:**";
      "    - The intent of the exam item must be to discriminate between those who understand the concept and those who don't.";
      "    - Use the highest possible cognitive levels of Bloom's Taxonomy when constructing the question and answers (Apply, Analyze, Evaluate, Create).";
      "    - Use active voice, present tense, 6th-grade reading level, and clear focus.";
      "    - Avoid absolute modifiers, opinion-based words, content repetition, slang, idioms, and humor.";
      "    - Make items independent, factual, and avoid tricks, trivia, UI focus, or default behavior.";
      "    - Do not use the word " ++ dq ++ "not" ++ dq ++ " in the stem or question of any exam item.";
      "";
      "    **Answer Format:**";
      "    - Use multiple choice format with a single absolutely correct answer.";
      "    - Write answer choices with parallel structure.";
      "    - There must be 3 plausible distractors in addition to the correct answer choice.";
      "    - You may never use " ++ dq ++ "all of the above" ++ dq ++ " or " ++ dq ++ "none of the above" ++ dq ++ ".";
      "    - You cannot use true/false, matching, or ordering questions.";
      "";
      "    **Verification:**";
      "    - You must verify the correct answer is truly accurate.";
      "    - You must verify the distractors, while plausible, are absolutely incorrect.";
      "  " ].

Definition generationPrompt (sourcesText : string) (questionCount : Z)
    (topics : list string) : string :=
  promptHead ++ sourcesText ++ promptTask ++ showNumber questionCount
  ++ promptTopics ++ join ", " topics ++ promptRules.

Definition generationRequest (fileBase64 mimeType : string) (topics : list string)
    (questionCount : Z) (sourcesText : string) : Request :=
  {| model := "gemini-2.5-pro";
     parts := [fileToGenerativePart fileBase64 mimeType;
               TextPart (generationPrompt sourcesText questionCount topics)];
     config := QuizSchema |}.

(** [q.answers.filter(a => a.isCorrect).length === 1] *)
Definition exactlyOneCorrect (q : QuizQuestion) : bool :=
  lengthZ (filter isCorrect (answers q)) =? 1.

Definition generateQuizQuestions (host : Host) (fileBase64 mimeType : string)
    (topics : list string) (questionCount : Z) : Result (list QuizQuestion) :=
  (* Step 1: gather information from official sources *)
  searchResponse <- generateContent host (searchRequest fileBase64 mimeType topics) ;;
  let groundingChunks := groundingChunksOf searchResponse in
  sourcesText <- sourcesTextOf groundingChunks ;;
  (* Step 2: generate quiz questions *)
  questionGenResponse <-
    generateContent host
      (generationRequest fileBase64 mimeType topics questionCount sourcesText) ;;
  quizData <- JSON_parse_quiz host (resp_text questionGenResponse) ;;
  (* Final validation: exactly one correct answer per question *)
  Ok (filter exactlyOneCorrect quizData).

(* ================================================================== *)
(** ** Math.random and Array.prototype.sort *)

(** The source of random numbers: [Math.random()] returns the number under
    the head of the tape and moves the head. *)
Record Rng : Type := mkRng {
  tape : nat -> Q;
  pos : nat
}.

Definition Rand (A : Type) : Type := Rng -> A * Rng.

Definition retM {A : Type} (a : A) : Rand A := fun r => (a, r).

Definition bindM {A B : Type} (c : Rand A) (k : A -> Rand B) : Rand B :=
  fun r => let (a, r') := c r in k a r'.

Notation "x <~ c ;; k" := (bindM c (fun x => k))
  (at level 61, c at next level, right associativity).

Definition Math_random : Rand Q :=
  fun r => (tape r (pos r), {| tape := tape r; pos := S (pos r) |}).

Fixpoint mapM {A B : Type} (f : A -> Rand B) (l : list A) : Rand (list B) :=
  match l with
  | [] => retM []
  | x :: xs => y <~ f x ;; ys <~ mapM f xs ;; retM (y :: ys)
  end.

(** [Array.prototype.sort] as V8 (Node, Chrome) runs it: TimSort, from
    V8's [third_party/v8/builtins/array-sort.tq]. The array is copied to a
    work array, runs are found and extended by binary insertion to the
    minimum run length, and pending runs are merged. Only the comparator's
    sign is read ([order < 0]). Arrays are lists here: a run is the list of
    its elements, and the stack of pending runs a list of runs. A [while]
    loop takes as first argument a bound on the number of its iterations;
    every call passes a bound that is not reached. *)
Section ArraySort.
Variable A : Type.
(** The comparator may consult the random tape. *)
Variable comparefn : A -> A -> Rand Q.
Local Open Scope nat_scope.
Local Open Scope list_scope.

(** [order < 0] *)
Definition isNegative (order : Q) : bool :=
  match (order ?= 0)%Q with Lt => true | _ => false end.

Definition kMinGallopWins : nat := 7.

(** [while (n >= 64) { r = r | (n & 1); n = n >> 1; }] *)
Fixpoint minRunLengthLoop (fuel n r : nat) : nat :=
  match fuel with
  | O => n + r
  | S fuel' =>
      if 64 <=? n
      then minRunLengthLoop fuel' (Nat.shiftr n 1) (Nat.lor r (Nat.land n 1))
      else n + r
  end.

Definition ComputeMinRunLength (n : nat) : nat := minRunLengthLoop n n 0.

(** The [for] loop of [CountAndMakeRun]: the elements that continue the run
    after [previousElement], and what is left. *)
Fixpoint extendRun (isDescending : bool) (previousElement : A) (l : list A)
  : Rand (list A * list A) :=
  match l with
  | [] => retM ([], [])
  | currentElement :: tl =>
      order <~ comparefn currentElement previousElement ;;
      if (if isDescending then negb (isNegative order) else isNegative order)
      then retM ([], l)
      else
        p <~ extendRun isDescending currentElement tl ;;
        retM (currentElement :: fst p, snd p)
  end.

(** [CountAndMakeRun(low, high)] on the elements from [low] on: the run
    (reversed in place if descending) and the elements after it. *)
Definition CountAndMakeRun (l : list A) : Rand (list A * list A) :=
  match l with
  | [] => retM ([], [])
  | [x] => retM ([x], [])
  | elementHigh :: elementLow :: tl =>
      order <~ comparefn elementLow elementHigh ;;
      let isDescending := isNegative order in
      p <~ extendRun isDescending elementLow tl ;;
      let run := elementHigh :: elementLow :: fst p in
      retM (if isDescending then rev run else run, snd p)
  end.

(** [while (left < right)] of [BinaryInsertionSort]. *)
Fixpoint insertionPoint (fuel : nat) (run : list A) (pivot : A) (left right : nat)
  : Rand nat :=
  match fuel with
  | O => retM left
  | S fuel' =>
      if left <? right
      then
        let mid := left + Nat.shiftr (right - left) 1 in
        order <~ comparefn pivot (nth mid run pivot) ;;
        if isNegative order
        then insertionPoint fuel' run pivot left mid
        else insertionPoint fuel' run pivot (mid + 1) right
      else retM left
  end.

(** [BinaryInsertionSort(low, start, high)]: [run] is the sorted part
    [low .. start-1], [pivots] the elements [start .. high-1]. *)
Fixpoint BinaryInsertionSort (run pivots : list A) : Rand (list A) :=
  match pivots with
  | [] => retM run
  | pivot :: tl =>
      left <~ insertionPoint (List.length run) run pivot 0 (List.length run) ;;
      BinaryInsertionSort (firstn left run ++ pivot :: skipn left run) tl
  end.

(** The galloping loop shared by [GallopLeft] and [GallopRight]:
    [while (offset < maxOfs) { if (stop) break; lastOfs = offset;
    offset = (offset << 1) + 1; }]. *)
Fixpoint gallopOffsets (fuel : nat) (stop : nat -> Rand bool)
    (maxOfs lastOfs offset : nat) : Rand (nat * nat) :=
  match fuel with
  | O => retM (lastOfs, offset)
  | S fuel' =>
      if offset <? maxOfs
      then
        b <~ stop offset ;;
        if b then retM (lastOfs, offset)
        else gallopOffsets fuel' stop maxOfs offset (Nat.shiftl offset 1 + 1)
      else retM (lastOfs, offset)
  end.

(** The binary search that ends [GallopLeft]; [lastOfs] is already
    incremented. *)
Fixpoint gallopLeftSearch (fuel : nat) (array : list A) (key : A)
    (lastOfs offset : nat) : Rand nat :=
  match fuel with
  | O => retM offset
  | S fuel' =>
      if lastOfs <? offset
      then
        let m := lastOfs + Nat.shiftr (offset - lastOfs) 1 in
        order <~ comparefn (nth m array key) key ;;
        if isNegative order
        then gallopLeftSearch fuel' array key (m + 1) offset
        else gallopLeftSearch fuel' array key lastOfs m
      else retM offset
  end.

(** The binary search that ends [GallopRight]. *)
Fixpoint gallopRightSearch (fuel : nat) (array : list A) (key : A)
    (lastOfs offset : nat) : Rand nat :=
  match fuel with
  | O => retM offset
  | S fuel' =>
      if lastOfs <? offset
      then
        let m := lastOfs + Nat.shiftr (offset - lastOfs) 1 in
        order <~ comparefn key (nth m array key) ;;
        if isNegative order
        then gallopRightSearch fuel' array key lastOfs m
        else gallopRightSearch fuel' array key (m + 1) offset
      else retM offset
  end.

(** [GallopLeft(array, key, base, length, hint)], [array] being the
    [length] elements from [base] on. *)
Definition GallopLeft (array : list A) (key : A) (hint : nat) : Rand nat :=
  let length := List.length array in
  order <~ comparefn (nth hint array key) key ;;
  if isNegative order
  then
    (* a[hint] < key: gallop right *)
    let maxOfs := length - hint in
    p <~ gallopOffsets maxOfs
           (fun offset =>
              o <~ comparefn (nth (hint + offset) array key) key ;;
              retM (negb (isNegative o)))
           maxOfs 0 1 ;;
    let offset := if maxOfs <? snd p then maxOfs else snd p in
    (* lastOfs += hint; offset += hint; lastOfs++ *)
    let lastOfs := fst p + hint + 1 in
    let offset := offset + hint in
    gallopLeftSearch (offset - lastOfs) array key lastOfs offset
  else
    (* key <= a[hint]: gallop left *)
    let maxOfs := hint + 1 in
    p <~ gallopOffsets maxOfs
           (fun offset =>
              o <~ comparefn (nth (hint - offset) array key) key ;;
              retM (isNegative o))
           maxOfs 0 1 ;;
    let tmp := fst p in
    let offset := if maxOfs <? snd p then maxOfs else snd p in
    (* lastOfs = hint - offset; offset = hint - tmp; lastOfs++ *)
    let lastOfs := hint + 1 - offset in
    let offset := hint - tmp in
    gallopLeftSearch (offset - lastOfs) array key lastOfs offset.

(** [GallopRight(array, key, base, length, hint)]. *)
Definition GallopRight (array : list A) (key : A) (hint : nat) : Rand nat :=
  let length := List.length array in
  order <~ comparefn key (nth hint array key) ;;
  if isNegative order
  then
    (* key < a[hint]: gallop left *)
    let maxOfs := hint + 1 in
    p <~ gallopOffsets maxOfs
           (fun offset =>
              o <~ comparefn key (nth (hint - offset) array key) ;;
              retM (negb (isNegative o)))
           maxOfs 0 1 ;;
    let tmp := fst p in
    let offset := if maxOfs <? snd p then maxOfs else snd p in
    (* lastOfs = hint - offset; offset = hint - tmp; lastOfs++ *)
    let lastOfs := hint + 1 - offset in
    let offset := hint - tmp in
    gallopRightSearch (offset - lastOfs) array key lastOfs offset
  else
    (* a[hint] <= key: gallop right *)
    let maxOfs := length - hint in
    p <~ gallopOffsets maxOfs
           (fun offset =>
              o <~ comparefn key (nth (hint + offset) array key) ;;
              retM (isNegative o))
           maxOfs 0 1 ;;
    let offset := if maxOfs <? snd p then maxOfs else snd p in
    (* lastOfs += hint; offset += hint; lastOfs++ *)
    let lastOfs := fst p + hint + 1 in
    let offset := offset + hint in
    gallopRightSearch (offset - lastOfs) array key lastOfs offset.

(** Where a merge loop stands: in the one-at-a-time loop, with the number
    of wins in a row of each run, or in the galloping loop. *)
Inductive MergeMode : Type :=
| OneAtATime (nofWinsA nofWinsB : nat)
| Galloping.

(** The loops of [MergeLow]. [destRev] holds what was written to the work
    array from [baseA] on, last first; run A (in the temp array) is
    [a0 :: a1 :: Ar], run B is [b0 :: Br]. Returns the merged elements and
    [minGallop]. *)
Fixpoint mergeLowLoop (fuel : nat) (mode : MergeMode) (minGallop : nat)
    (destRev : list A) (a0 a1 : A) (Ar : list A) (b0 : A) (Br : list A)
  : Rand (list A * nat) :=
  match fuel with
  | O => retM (rev destRev ++ a0 :: a1 :: Ar ++ b0 :: Br, minGallop)
  | S fuel' =>
      match mode with
      | OneAtATime nofWinsA nofWinsB =>
          order <~ comparefn b0 a0 ;;
          if isNegative order
          then
            match Br with
            | [] => (* Succeed *)
                retM (rev (b0 :: destRev) ++ a0 :: a1 :: Ar, minGallop)
            | b1 :: Br' =>
                if minGallop <=? nofWinsB + 1
                then mergeLowLoop fuel' Galloping (minGallop + 1)
                       (b0 :: destRev) a0 a1 Ar b1 Br'
                else mergeLowLoop fuel' (OneAtATime 0 (nofWinsB + 1)) minGallop
                       (b0 :: destRev) a0 a1 Ar b1 Br'
            end
          else
            match Ar with
            | [] => (* CopyB *)
                retM (rev (a0 :: destRev) ++ b0 :: Br ++ [a1], minGallop)
            | a2 :: Ar' =>
                if minGallop <=? nofWinsA + 1
                then mergeLowLoop fuel' Galloping (minGallop + 1)
                       (a0 :: destRev) a1 a2 Ar' b0 Br
                else mergeLowLoop fuel' (OneAtATime (nofWinsA + 1) 0) minGallop
                       (a0 :: destRev) a1 a2 Ar' b0 Br
            end
      | Galloping =>
          let minGallop := Nat.max 1 (minGallop - 1) in
          let arrayA := a0 :: a1 :: Ar in
          nofWinsA <~ GallopRight arrayA b0 0 ;;
          let destRev := rev (firstn nofWinsA arrayA) ++ destRev in
          match skipn nofWinsA arrayA with
          | [] => (* Succeed *)
              retM (rev destRev ++ b0 :: Br, minGallop)
          | [a] => (* CopyB *)
              retM (rev destRev ++ b0 :: Br ++ [a], minGallop)
          | a0' :: a1' :: Ar' =>
              match Br with
              | [] => (* Succeed *)
                  retM (rev (b0 :: destRev) ++ a0' :: a1' :: Ar', minGallop)
              | b1 :: Br' =>
                  let arrayB := b1 :: Br' in
                  nofWinsB <~ GallopLeft arrayB a0' 0 ;;
                  let destRev := rev (firstn nofWinsB arrayB) ++ b0 :: destRev in
                  match skipn nofWinsB arrayB with
                  | [] => (* Succeed *)
                      retM (rev destRev ++ a0' :: a1' :: Ar', minGallop)
                  | b0' :: Br'' =>
                      match Ar' with
                      | [] => (* CopyB *)
                          retM (rev (a0' :: destRev) ++ b0' :: Br'' ++ [a1'], minGallop)
                      | a2' :: Ar'' =>
                          if (kMinGallopWins <=? nofWinsA) || (kMinGallopWins <=? nofWinsB)
                          then mergeLowLoop fuel' Galloping minGallop
                                 (a0' :: destRev) a1' a2' Ar'' b0' Br''
                          else mergeLowLoop fuel' (OneAtATime 0 0) (minGallop + 1)
                                 (a0' :: destRev) a1' a2' Ar'' b0' Br''
                      end
                  end
              end
          end
      end
  end.

(** [MergeLow], run A being [a0 :: Ar] and run B [b0 :: Br]. *)
Definition MergeLow (a0 : A) (Ar : list A) (b0 : A) (Br : list A) (minGallop : nat)
  : Rand (list A * nat) :=
  match Br with
  | [] => (* Succeed *) retM (b0 :: a0 :: Ar, minGallop)
  | b1 :: Br' =>
      match Ar with
      | [] => (* CopyB *) retM (b0 :: b1 :: Br' ++ [a0], minGallop)
      | a1 :: Ar' =>
          mergeLowLoop (List.length Ar' + List.length Br' + 3) (OneAtATime 0 0)
            minGallop [b0] a0 a1 Ar' b1 Br'
      end
  end.

(** The loops of [MergeHigh], which merges backwards. [tail] holds what was
    written at the end of the work array; run A, read from its end, is
    [rev (a0 :: Ar)], and run B (in the temp array) is
    [rev (b0 :: b1 :: Br)]. *)
Fixpoint mergeHighLoop (fuel : nat) (mode : MergeMode) (minGallop : nat)
    (tail : list A) (a0 : A) (Ar : list A) (b0 b1 : A) (Br : list A)
  : Rand (list A * nat) :=
  match fuel with
  | O => retM (rev (a0 :: Ar) ++ rev (b0 :: b1 :: Br) ++ tail, minGallop)
  | S fuel' =>
      match mode with
      | OneAtATime nofWinsA nofWinsB =>
          order <~ comparefn b0 a0 ;;
          if isNegative order
          then
            match Ar with
            | [] => (* Succeed *)
                retM (rev (b0 :: b1 :: Br) ++ a0 :: tail, minGallop)
            | a1 :: Ar' =>
                if minGallop <=? nofWinsA + 1
                then mergeHighLoop fuel' Galloping (minGallop + 1)
                       (a0 :: tail) a1 Ar' b0 b1 Br
                else mergeHighLoop fuel' (OneAtATime (nofWinsA + 1) 0) minGallop
                       (a0 :: tail) a1 Ar' b0 b1 Br
            end
          else
            match Br with
            | [] => (* CopyA *)
                retM (b1 :: rev (a0 :: Ar) ++ b0 :: tail, minGallop)
            | b2 :: Br' =>
                if minGallop <=? nofWinsB + 1
                then mergeHighLoop fuel' Galloping (minGallop + 1)
                       (b0 :: tail) a0 Ar b1 b2 Br'
                else mergeHighLoop fuel' (OneAtATime 0 (nofWinsB + 1)) minGallop
                       (b0 :: tail) a0 Ar b1 b2 Br'
            end
      | Galloping =>
          let minGallop := Nat.max 1 (minGallop - 1) in
          let revA := a0 :: Ar in
          let lengthA := List.length revA in
          k <~ GallopRight (rev revA) b0 (lengthA - 1) ;;
          let nofWinsA := lengthA - k in
          let tail := rev (firstn nofWinsA revA) ++ tail in
          match skipn nofWinsA revA with
          | [] => (* Succeed *)
              retM (rev (b0 :: b1 :: Br) ++ tail, minGallop)
          | a0' :: Ar' =>
              let tail := b0 :: tail in
              match Br with
              | [] => (* CopyA *)
                  retM (b1 :: rev (a0' :: Ar') ++ tail, minGallop)
              | b2 :: Br' =>
                  let revB := b1 :: b2 :: Br' in
                  let lengthB := List.length revB in
                  k' <~ GallopLeft (rev revB) a0' (lengthB - 1) ;;
                  let nofWinsB := lengthB - k' in
                  let tail := rev (firstn nofWinsB revB) ++ tail in
                  match skipn nofWinsB revB with
                  | [] => (* Succeed *)
                      retM (rev (a0' :: Ar') ++ tail, minGallop)
                  | [b] => (* CopyA *)
                      retM (b :: rev (a0' :: Ar') ++ tail, minGallop)
                  | b0' :: b1' :: Br'' =>
                      match Ar' with
                      | [] => (* Succeed *)
                          retM (rev (b0' :: b1' :: Br'') ++ a0' :: tail, minGallop)
                      | a1' :: Ar'' =>
                          if (kMinGallopWins <=? nofWinsA) || (kMinGallopWins <=? nofWinsB)
                          then mergeHighLoop fuel' Galloping minGallop
                                 (a0' :: tail) a1' Ar'' b0' b1' Br''
                          else mergeHighLoop fuel' (OneAtATime 0 0) (minGallop + 1)
                                 (a0' :: tail) a1' Ar'' b0' b1' Br''
                      end
                  end
              end
          end
      end
  end.

(** [MergeHigh], run A being [rev (a0 :: Ar)] and run B [rev (b0 :: Br)]. *)
Definition MergeHigh (a0 : A) (Ar : list A) (b0 : A) (Br : list A) (minGallop : nat)
  : Rand (list A * nat) :=
  match Ar with
  | [] => (* Succeed *) retM (rev (b0 :: Br) ++ [a0], minGallop)
  | a1 :: Ar' =>
      match Br with
      | [] => (* CopyA *) retM (b0 :: rev (a1 :: Ar') ++ [a0], minGallop)
      | b1 :: Br' =>
          mergeHighLoop (List.length Ar' + List.length Br' + 3) (OneAtATime 0 0)
            minGallop [a0] a1 Ar' b0 b1 Br'
      end
  end.

(** The last element of a non-empty list and the others, last first. *)
Fixpoint reverseFrom (x : A) (l acc : list A) : A * list A :=
  match l with
  | [] => (x, acc)
  | y :: l' => reverseFrom y l' (x :: acc)
  end.

(** [MergeAt(i)] for the adjacent runs [runA] (at [i]) and [runB]
    (at [i + 1]): the merged run and [minGallop]. *)
Definition MergeAt (runA runB : list A) (minGallop : nat) : Rand (list A * nat) :=
  match runB with
  | [] => retM (runA, minGallop)
  | keyRight :: _ =>
      (* Where does b start in a? *)
      k <~ GallopRight runA keyRight 0 ;;
      match skipn k runA with
      | [] => retM (runA ++ runB, minGallop)
      | a0 :: Ar =>
          let (keyLeft, revAr) := reverseFrom a0 Ar [] in
          (* Where does a end in b? *)
          lengthB <~ GallopLeft runB keyLeft (List.length runB - 1) ;;
          match firstn lengthB runB with
          | [] => retM (runA ++ runB, minGallop)
          | b0 :: Br =>
              m <~ (if List.length (a0 :: Ar) <=? List.length (b0 :: Br)
                    then MergeLow a0 Ar b0 Br minGallop
                    else
                      let (bLast, revBr) := reverseFrom b0 Br [] in
                      MergeHigh keyLeft revAr bLast revBr minGallop) ;;
              retM (firstn k runA ++ fst m ++ skipn lengthB runB, snd m)
          end
      end
  end.

(** [MergeCollapse]; the stack of pending runs has the last pushed run
    first. *)
Fixpoint MergeCollapse (fuel : nat) (pendingRuns : list (list A)) (minGallop : nat)
  : Rand (list (list A) * nat) :=
  match fuel with
  | O => retM (pendingRuns, minGallop)
  | S fuel' =>
      match pendingRuns with
      | runN1 :: runN :: below =>
          match below with
          | [] =>
              if List.length runN <=? List.length runN1
              then
                m <~ MergeAt runN runN1 minGallop ;;
                MergeCollapse fuel' (fst m :: below) (snd m)
              else retM (pendingRuns, minGallop)
          | runNM :: below' =>
              if (List.length runNM <=? List.length runN + List.length runN1)
                 || match below' with
                    | runNMM :: _ =>
                        List.length runNMM <=? List.length runNM + List.length runN
                    | [] => false
                    end
              then
                if List.length runNM <? List.length runN1
                then
                  m <~ MergeAt runNM runN minGallop ;;
                  MergeCollapse fuel' (runN1 :: fst m :: below') (snd m)
                else
                  m <~ MergeAt runN runN1 minGallop ;;
                  MergeCollapse fuel' (fst m :: below) (snd m)
              else if List.length runN <=? List.length runN1
              then
                m <~ MergeAt runN runN1 minGallop ;;
                MergeCollapse fuel' (fst m :: below) (snd m)
              else retM (pendingRuns, minGallop)
          end
      | _ => retM (pendingRuns, minGallop)
      end
  end.

(** [MergeForceCollapse]. *)
Fixpoint MergeForceCollapse (fuel : nat) (pendingRuns : list (list A)) (minGallop : nat)
  : Rand (list (list A) * nat) :=
  match fuel with
  | O => retM (pendingRuns, minGallop)
  | S fuel' =>
      match pendingRuns with
      | runN1 :: runN :: below =>
          match below with
          | runNM :: below' =>
              if List.length runNM <? List.length runN1
              then
                m <~ MergeAt runNM runN minGallop ;;
                MergeForceCollapse fuel' (runN1 :: fst m :: below') (snd m)
              else
                m <~ MergeAt runN runN1 minGallop ;;
                MergeForceCollapse fuel' (fst m :: below) (snd m)
          | [] =>
              m <~ MergeAt runN runN1 minGallop ;;
              MergeForceCollapse fuel' (fst m :: below) (snd m)
          end
      | _ => retM (pendingRuns, minGallop)
      end
  end.

(** The [while (remaining != 0)] loop of [ArrayTimSortImpl]. *)
Fixpoint timSortLoop (fuel : nat) (minRunLength : nat) (pendingRuns : list (list A))
    (minGallop : nat) (remaining : list A) : Rand (list (list A) * nat) :=
  match fuel with
  | O => retM (pendingRuns, minGallop)
  | S fuel' =>
      match remaining with
      | [] => retM (pendingRuns, minGallop)
      | _ :: _ =>
          p <~ CountAndMakeRun remaining ;;
          q <~ (if List.length (fst p) <? minRunLength
                then
                  let forcedRunLength := Nat.min minRunLength (List.length remaining) in
                  let extra := forcedRunLength - List.length (fst p) in
                  run <~ BinaryInsertionSort (fst p) (firstn extra (snd p)) ;;
                  retM (run, skipn extra (snd p))
                else retM p) ;;
          c <~ MergeCollapse (S (List.length pendingRuns)) (fst q :: pendingRuns) minGallop ;;
          timSortLoop fuel' minRunLength (fst c) (snd c) (snd q)
      end
  end.

(** [ArrayTimSortImpl]; an array of fewer than two elements is returned
    before any comparison. *)
Definition ArrayTimSortImpl (workArray : list A) : Rand (list A) :=
  let length := List.length workArray in
  if length <? 2 then retM workArray
  else
    let minRunLength := ComputeMinRunLength length in
    s <~ timSortLoop length minRunLength [] kMinGallopWins workArray ;;
    c <~ MergeForceCollapse (List.length (fst s)) (fst s) (snd s) ;;
    retM (List.concat (rev (fst c))).

(** [array.sort(comparefn)] *)
Definition Array_sort (array : list A) : Rand (list A) := ArrayTimSortImpl array.
End ArraySort.

(* ================================================================== *)
(** ** App.tsx: helpers *)

(** [[...array].sort(() => Math.random() - 0.5)] *)
Definition shuffleArray {T : Type} (array : list T) : Rand (list T) :=
  Array_sort (fun _ _ => r <~ Math_random ;; retM (r - (1 # 2))%Q) array.

(** An uploaded file: its name, its media type, and what [fileToBase64]
    yields for it (the reader rejects with an event, not an [Error]). *)
Record File : Type := mkFile {
  file_name : string;
  file_type : string;
  file_base64 : option string
}.

Definition fileToBase64 (file : File) : Result string :=
  match file_base64 file with
  | Some b => Ok b
  | None => Throw NonError
  end.

Record FileData : Type := mkFileData {
  base64 : string;
  mimeType : string
}.

(* ================================================================== *)
(** ** App.tsx: session state *)

(** The [useState] cells of [App]. *)
Record Session : Type := mkSession {
  appState : AppState;
  file : option File;
  fileData : option FileData;
  topics : list string;
  selectedTopics : list string;
  questionCount : Z;
  quizData : list QuizQuestion;
  currentQuestionIndex : Z;
  userAnswers : list UserAnswer;
  error : option string;
  loadingMessage : string
}.

(** The initial values given to [useState]. *)
Definition initialSession : Session :=
  {| appState := SETUP;
     file := None;
     fileData := None;
     topics := [];
     selectedTopics := [];
     questionCount := 10;
     quizData := [];
     currentQuestionIndex := 0;
     userAnswers := [];
     error := None;
     loadingMessage := "" |}.

Definition setAppState (v : AppState) (s : Session) : Session :=
  mkSession v (file s) (fileData s) (topics s) (selectedTopics s) (questionCount s)
    (quizData s) (currentQuestionIndex s) (userAnswers s) (error s) (loadingMessage s).

Definition setFile (v : option File) (s : Session) : Session :=
  mkSession (appState s) v (fileData s) (topics s) (selectedTopics s) (questionCount s)
    (quizData s) (currentQuestionIndex s) (userAnswers s) (error s) (loadingMessage s).

Definition setFileData (v : option FileData) (s : Session) : Session :=
  mkSession (appState s) (file s) v (topics s) (selectedTopics s) (questionCount s)
    (quizData s) (currentQuestionIndex s) (userAnswers s) (error s) (loadingMessage s).

Definition setTopics (v : list string) (s : Session) : Session :=
  mkSession (appState s) (file s) (fileData s) v (selectedTopics s) (questionCount s)
    (quizData s) (currentQuestionIndex s) (userAnswers s) (error s) (loadingMessage s).

Definition setSelectedTopics (v : list string) (s : Session) : Session :=
  mkSession (appState s) (file s) (fileData s) (topics s) v (questionCount s)
    (quizData s) (currentQuestionIndex s) (userAnswers s) (error s) (loadingMessage s).

Definition setQuestionCount (v : Z) (s : Session) : Session :=
  mkSession (appState s) (file s) (fileData s) (topics s) (selectedTopics s) v
    (quizData s) (currentQuestionIndex s) (userAnswers s) (error s) (loadingMessage s).

Definition setQuizData (v : list QuizQuestion) (s : Session) : Session :=
  mkSession (appState s) (file s) (fileData s) (topics s) (selectedTopics s) (questionCount s)
    v (currentQuestionIndex s) (userAnswers s) (error s) (loadingMessage s).

Definition setCurrentQuestionIndex (v : Z) (s : Session) : Session :=
  mkSession (appState s) (file s) (fileData s) (topics s) (selectedTopics s) (questionCount s)
    (quizData s) v (userAnswers s) (error s) (loadingMessage s).

Definition setUserAnswers (v : list UserAnswer) (s : Session) : Session :=
  mkSession (appState s) (file s) (fileData s) (topics s) (selectedTopics s) (questionCount s)
    (quizData s) (currentQuestionIndex s) v (error s) (loadingMessage s).

Definition setError (v : option string) (s : Session) : Session :=
  mkSession (appState s) (file s) (fileData s) (topics s) (selectedTopics s) (questionCount s)
    (quizData s) (currentQuestionIndex s) (userAnswers s) v (loadingMessage s).

Definition setLoadingMessage (v : string) (s : Session) : Session :=
  mkSession (appState s) (file s) (fileData s) (topics s) (selectedTopics s) (questionCount s)
    (quizData s) (currentQuestionIndex s) (userAnswers s) (error s) v.

(** [err instanceof Error ? err.message : fallback] *)
Definition messageOr (fallback : string) (err : Thrown) : string :=
  match err with
  | ErrorObj message => message
  | NonError => fallback
  end.

(* ================================================================== *)
(** ** App.tsx: handlers

    An [async] handler is given by the list of states the session passes
    through: one per suspension point ([await]) and the state in which the
    handler ends. The synchronous handlers are state transformers. *)

Definition handleFileChange (host : Host) (selectedFile : option File) (s : Session)
  : list Session :=
  match selectedFile with
  | None => []
  | Some f =>
      let s1 :=
        setLoadingMessage "Analyzing your exam guide..."
          (setAppState ANALYZING
            (setFile (Some f)
              (setSelectedTopics [] (setTopics [] (setError None s))))) in
      let caught (err : Thrown) (s' : Session) : Session :=
        setAppState SETUP
          (setFileData None
            (setFile None
              (setError
                 (Some (messageOr "An unknown error occurred during analysis." err))
                 s'))) in
      match fileToBase64 f with
      | Throw err => [s1; caught err s1]
      | Ok b64 =>
          let s2 := setFileData (Some {| base64 := b64; mimeType := file_type f |}) s1 in
          match extractTopicsFromGuide host b64 (file_type f) with
          | Throw err => [s1; s2; caught err s2]
          | Ok extractedTopics =>
              if lengthZ extractedTopics =? 0
              then
                [s1; s2;
                 setFileData None
                   (setFile None
                     (setAppState SETUP
                       (setError
                          (Some "Could not find any topics in the document. Please try a different file.")
                          s2)))]
              else
                [s1; s2;
                 setAppState SETUP
                   (setSelectedTopics extractedTopics (setTopics extractedTopics s2))]
          end
      end
  end.

(** [prev.includes(topic) ? prev.filter(t => t !== topic) : [...prev, topic]] *)
Definition handleTopicToggle (topic : string) (s : Session) : Session :=
  let prev := selectedTopics s in
  setSelectedTopics
    (if existsb (String.eqb topic) prev
     then filter (fun t => negb (String.eqb t topic)) prev
     else (prev ++ [topic])%list)
    s.

(** The display order: the questions are shuffled, then the answers of each
    question in turn. *)
Definition randomize (questions : list QuizQuestion) : Rand (list QuizQuestion) :=
  shuffled <~ shuffleArray questions ;;
  mapM (fun q =>
          a <~ shuffleArray (answers q) ;;
          retM {| question := question q; answers := a; source := source q |})
       shuffled.

Definition handleGenerateQuiz (host : Host) (rng : Rng) (s : Session) : list Session :=
  match fileData s with
  | Some fd =>
      if lengthZ (selectedTopics s) =? 0
      then [setError (Some "Please upload a guide and select at least one topic.") s]
      else
        let s1 :=
          setLoadingMessage "Generating your custom quiz... This may take a moment."
            (setAppState GENERATING (setError None s)) in
        match generateQuizQuestions host (base64 fd) (mimeType fd)
                (selectedTopics s) (questionCount s) with
        | Ok questions =>
            let randomizedQuestions := fst (randomize questions rng) in
            [s1;
             setAppState TAKING_QUIZ
               (setUserAnswers []
                 (setCurrentQuestionIndex 0 (setQuizData randomizedQuestions s1)))]
        | Throw err =>
            [s1;
             setAppState SETUP
               (setError (Some (messageOr "Failed to generate quiz." err)) s1)]
        end
  | None => [setError (Some "Please upload a guide and select at least one topic.") s]
  end.

(** The updater passed to [setUserAnswers]. *)
Definition selectAnswer (questionIndex' answerIndex' : Z) (prev : list UserAnswer)
  : list UserAnswer :=
  match find (fun a => questionIndex a =? questionIndex') prev with
  | Some _ =>
      map (fun a =>
             if questionIndex a =? questionIndex'
             then {| questionIndex := questionIndex a; answerIndex := answerIndex' |}
             else a)
          prev
  | None =>
      (prev ++ [{| questionIndex := questionIndex'; answerIndex := answerIndex' |}])%list
  end.

Definition handleAnswerSelect (questionIndex' answerIndex' : Z) (s : Session) : Session :=
  setUserAnswers (selectAnswer questionIndex' answerIndex' (userAnswers s)) s.

Definition handleNextQuestion (s : Session) : Session :=
  if currentQuestionIndex s <? lengthZ (quizData s) - 1
  then setCurrentQuestionIndex (currentQuestionIndex s + 1) s
  else setAppState REVIEW s.

Definition handleStartOver (s : Session) : Session :=
  setError None
    (setUserAnswers []
      (setQuizData []
        (setSelectedTopics []
          (setTopics []
            (setFileData None (setFile None (setAppState SETUP s))))))).

(** One round of the [reduce] callback of [score]: reading a property of
    [undefined] throws a [TypeError]. *)
Definition scoreStep (quizData' : list QuizQuestion) (acc : Result Z)
    (userAnswer : UserAnswer) : Result Z :=
  correctCount <- acc ;;
  match nthZ quizData' (questionIndex userAnswer) with
  | None => Throw (ErrorObj "Cannot read properties of undefined (reading 'answers')")
  | Some question' =>
      match nthZ (answers question') (answerIndex userAnswer) with
      | None => Throw (ErrorObj "Cannot read properties of undefined (reading 'isCorrect')")
      | Some answer => Ok (if isCorrect answer then correctCount + 1 else correctCount)
      end
  end.

Definition score (s : Session) : Result Z :=
  fold_left (scoreStep (quizData s)) (userAnswers s) (Ok 0).

(* ================================================================== *)
(** ** App.tsx: what the rendered page lets the user do *)

(** The user events wired to handlers. The asynchronous ones carry what the
    outside world answers while they run. *)
Inductive Event : Type :=
| FileChange (host : Host) (selectedFile : option File)
| TopicToggle (topic : string)
| QuestionCountChange (value : Z)
| GenerateQuiz (host : Host) (rng : Rng)
| AnswerSelect (index : Z)
| NextQuestion
| StartOver.

(** [userAnswers.find(a => a.questionIndex === currentQuestionIndex)?.answerIndex] *)
Definition userAnswerIndex (s : Session) : option Z :=
  match find (fun a => questionIndex a =? currentQuestionIndex s) (userAnswers s) with
  | Some a => Some (answerIndex a)
  | None => None
  end.

(** The controls present on the page drawn by [renderContent]:
    - [renderSetup]: the file input; once topics are listed, one toggle per
      topic, the slider (5 to 50) and the Generate button, which is disabled
      while no topic is selected;
    - [renderLoading]: nothing;
    - [renderQuiz]: one button per answer of [quizData[currentQuestionIndex]]
      (nothing is drawn if that question is missing) and the Next button,
      disabled until the question is answered;
    - [renderReview]: the Start New Quiz button (the page shows the score). *)
Definition enabled (ev : Event) (s : Session) : bool :=
  match appState s, ev with
  | SETUP, FileChange _ _ => true
  | SETUP, TopicToggle topic =>
      existsb (String.eqb topic) (topics s)
  | SETUP, QuestionCountChange value =>
      (0 <? lengthZ (topics s)) && (5 <=? value) && (value <=? 50)
  | SETUP, GenerateQuiz _ _ =>
      (0 <? lengthZ (topics s)) && negb (lengthZ (selectedTopics s) =? 0)
  | TAKING_QUIZ, AnswerSelect index =>
      match nthZ (quizData s) (currentQuestionIndex s) with
      | Some q => (0 <=? index) && (index <? lengthZ (answers q))
      | None => false
      end
  | TAKING_QUIZ, NextQuestion =>
      match nthZ (quizData s) (currentQuestionIndex s), userAnswerIndex s with
      | Some _, Some _ => true
      | _, _ => false
      end
  | REVIEW, StartOver => isOk (score s)
  | _, _ => false
  end.

(** The states the session passes through when the event's handler runs. *)
Definition fire (ev : Event) (s : Session) : list Session :=
  match ev with
  | FileChange host selectedFile => handleFileChange host selectedFile s
  | TopicToggle topic => [handleTopicToggle topic s]
  | QuestionCountChange value => [setQuestionCount value s]
  | GenerateQuiz host rng => handleGenerateQuiz host rng s
  | AnswerSelect index => [handleAnswerSelect (currentQuestionIndex s) index s]
  | NextQuestion => [handleNextQuestion s]
  | StartOver => [handleStartOver s]
  end.

(** The state in which a handler leaves the session. *)
Definition settle (trace : list Session) (s : Session) : Session := last trace s.

(** Every state the session can be in: the initial one, and each state a
    handler passes through when started by a control of a reachable page. *)
Inductive reachable : Session -> Prop :=
| reachable_init : reachable initialSession
| reachable_fire : forall s ev s',
    reachable s -> enabled ev s = true -> In s' (fire ev s) -> reachable s'.

(** Playing a list of events, each from the state the previous one settled
    in; [None] if a control is not available. *)
Fixpoint play (evs : list Event) (s : Session) : option Session :=
  match evs with
  | [] => Some s
  | ev :: rest =>
      if enabled ev s then play rest (settle (fire ev s) s) else None
  end.

(** Taking a quiz question by question: answer the current question with
    the given choice, then advance. The states are listed in order. *)
Fixpoint takeQuiz (choices : list Z) (s : Session) : list Session :=
  match choices with
  | [] => []
  | c :: rest =>
      let s1 := handleAnswerSelect (currentQuestionIndex s) c s in
      let s2 := handleNextQuestion s1 in
      s1 :: s2 :: takeQuiz rest s2
  end.

(** The same run as clicks: for each question, an answer button and then
    the Next button. *)
Definition quizEvents (choices : list Z) : list Event :=
  flat_map (fun c => [AnswerSelect c; NextQuestion]) choices.

(** A choice names one of the answers of the question it is made for. *)
Definition validChoice (c : Z) (q : QuizQuestion) : Prop :=
  0 <= c < lengthZ (answers q).

(** The number of steps of a run that go from TAKING_QUIZ to REVIEW. *)
Fixpoint reviewEntries (prev : Session) (trace : list Session) : nat :=
  match trace with
  | [] => 0%nat
  | s :: rest =>
      ((if AppState_eqb (appState prev) TAKING_QUIZ && AppState_eqb (appState s) REVIEW
        then 1 else 0)
       + reviewEntries s rest)%nat
  end.

(* ================================================================== *)
(** ** The specification's wording of the score *)

(** Whether the answer a [UserAnswer] points at is the correct choice;
    [false] when it points at nothing. *)
Definition selectedIsCorrect (quizData' : list QuizQuestion) (ua : UserAnswer) : bool :=
  match nthZ quizData' (questionIndex ua) with
  | Some q =>
      match nthZ (answers q) (answerIndex ua) with
      | Some a => isCorrect a
      | None => false
      end
  | None => false
  end.

Definition correctAnswers (s : Session) : Z :=
  lengthZ (filter (selectedIsCorrect (quizData s)) (userAnswers s)).

(** A stored answer points inside the quiz. *)
Definition inBounds (quizData' : list QuizQuestion) (ua : UserAnswer) : Prop :=
  0 <= questionIndex ua < lengthZ quizData' /\
  exists q, nthZ quizData' (questionIndex ua) = Some q /\
            0 <= answerIndex ua < lengthZ (answers q).

(** The display of a question: same stem and source, answers reordered. *)
Definition sameQuestionUpToOrder (shown original : QuizQuestion) : Prop :=
  question shown = question original /\
  source shown = source original /\
  Permutation (answers shown) (answers original).

(* ================================================================== *)
(** ** Sample data *)

Module Samples.

Definition right (t : string) : Answer :=
  {| text := t; isCorrect := true; feedback := "yes" |}.
Definition wrong (t : string) : Answer :=
  {| text := t; isCorrect := false; feedback := "no" |}.

Definition src : Source := {| title := "Docs"; url := "https://example.com/docs" |}.

(** A well-formed question: the correct choice is the second. *)
Definition good (stem : string) : QuizQuestion :=
  {| question := stem;
     answers := [wrong "a"; right "b"; wrong "c"; wrong "d"];
     source := src |}.

(** A question with two choices marked correct. *)
Definition twoCorrect (stem : string) : QuizQuestion :=
  {| question := stem;
     answers := [right "a"; right "b"; wrong "c"; wrong "d"];
     source := src |}.

(** The comparator [(a, b) => a - b], which does not read the tape. *)
Definition byDifference (a b : Z) : Rand Q := retM (inject_Z (a - b)).

(** The numbers 0 to 70 in the order [37 * i mod 71]. *)
Definition scrambled : list Z :=
  map (fun i => (37 * Z.of_nat i) mod 71) (seq 0 71).

Definition guide : File :=
  {| file_name := "guide.pdf"; file_type := "application/pdf";
     file_base64 := Some "JVBERi0=" |}.

(** A host that answers every request; the parsers ignore the text. *)
Definition hostWith (chunks : option (list GroundingChunk))
    (guideJson : Result GuideJson) (quiz : Result (list QuizQuestion)) : Host :=
  {| generateContent := fun _ =>
       Ok {| resp_text := "{}";
             candidates :=
               Some [ {| groundingMetadata :=
                           Some {| groundingChunks := chunks |} |} ] |};
     JSON_parse_guide := fun _ => guideJson;
     JSON_parse_quiz := fun _ => quiz |}.

Definition guideJson : GuideJson :=
  {| json_topics := Some ["Networking"; "Storage"]; json_isGuide := Some true |}.

Definition notGuideJson : GuideJson :=
  {| json_topics := Some ["Recipes"]; json_isGuide := Some false |}.

Definition chunk : GroundingChunk :=
  {| web := Some {| web_title := "Docs"; web_uri := "https://example.com/docs" |} |}.

Definition threeGood : list QuizQuestion := [good "q1"; good "q2"; good "q3"].

(** Ten returned items, two of which have two correct answers. *)
Definition tenWithTwoBad : list QuizQuestion :=
  [good "q1"; good "q2"; twoCorrect "q3"; good "q4"; good "q5";
   good "q6"; twoCorrect "q7"; good "q8"; good "q9"; good "q10"].

Definition sixGood : list QuizQuestion :=
  [good "q1"; good "q2"; good "q3"; good "q4"; good "q5"; good "q6"].

Definition host : Host := hostWith (Some [chunk]) (Ok guideJson) (Ok threeGood).

(** The model returns the ten items above. *)
Definition hostTen : Host := hostWith (Some [chunk]) (Ok guideJson) (Ok tenWithTwoBad).

(** The model returns six well-formed items, whatever was asked for. *)
Definition hostSix : Host := hostWith (Some [chunk]) (Ok guideJson) (Ok sixGood).

(** The search finds no source. *)
Definition hostNoSources : Host := hostWith (Some []) (Ok guideJson) (Ok threeGood).

(** The document is not recognised as a guide. *)
Definition hostNotGuide : Host := hostWith None (Ok notGuideJson) (Ok []).

(** The text of the generation reply is cut short: [JSON.parse] throws. *)
Definition hostParseFail : Host :=
  hostWith (Some [chunk]) (Ok guideJson)
    (Throw (ErrorObj "Unexpected end of JSON input")).

(** A tape that alternates between 1/4 and 3/4. *)
Definition rng : Rng :=
  {| tape := fun n => if Nat.even n then (1 # 4)%Q else (3 # 4)%Q; pos := 0 |}.

(** The session once the guide has been analysed: topics listed, all
    selected. *)
Definition ready : Session :=
  settle (fire (FileChange host (Some guide)) initialSession) initialSession.

(** A session in which two of three questions were answered. *)
Definition midQuiz : list Event :=
  [FileChange host (Some guide); GenerateQuiz host rng;
   AnswerSelect 1; NextQuestion; AnswerSelect 0].

(** A whole quiz, up to the review page. *)
Definition fullQuiz : list Event :=
  [FileChange host (Some guide); QuestionCountChange 20; GenerateQuiz host rng;
   AnswerSelect 1; NextQuestion; AnswerSelect 0; NextQuestion;
   AnswerSelect 2; NextQuestion].

(** Every item the model returns has two correct answers. *)
Definition hostAllBad : Host :=
  hostWith (Some [chunk]) (Ok guideJson) (Ok [twoCorrect "q1"; twoCorrect "q2"]).

(** One grounding chunk has no [web] property. *)
Definition hostMissingWeb : Host :=
  hostWith (Some [chunk; {| web := None |}]) (Ok guideJson) (Ok threeGood).

(** A guide in which the model finds no topic. *)
Definition hostEmptyTopics : Host :=
  hostWith None (Ok {| json_topics := Some []; json_isGuide := Some true |}) (Ok []).

(** A reply without the [isGuide] property. *)
Definition hostNoIsGuide : Host :=
  hostWith None (Ok {| json_topics := Some ["Networking"]; json_isGuide := None |}) (Ok []).

(** A client that is down: every call rejects. *)
Definition hostDown : Host :=
  {| generateContent := fun _ => Throw (ErrorObj "Failed to fetch");
     JSON_parse_guide := fun _ => Throw (ErrorObj "Unexpected end of JSON input");
     JSON_parse_quiz := fun _ => Throw (ErrorObj "Unexpected end of JSON input") |}.

(** A file the reader cannot read. *)
Definition unreadable : File :=
  {| file_name := "guide.pdf"; file_type := "application/pdf"; file_base64 := None |}.

(** The session on the review page of the whole quiz. *)
Definition reviewSession : Session :=
  match play fullQuiz initialSession with
  | Some s => s
  | None => initialSession
  end.

(** The session when the quiz of three questions has just been installed. *)
Definition quizStart : Session :=
  settle (handleGenerateQuiz host rng ready) ready.

Definition midQuizSession : Session :=
  match play midQuiz initialSession with
  | Some s => s
  | None => initialSession
  end.

End Samples.

(** Exactly one answer of the question is marked correct, said without
    counting: one marked answer, and none before or after it. *)
Definition hasExactlyOneCorrect (q : QuizQuestion) : Prop :=
  exists before a after,
    answers q = (before ++ a :: after)%list /\
    isCorrect a = true /\
    Forall (fun b => isCorrect b = false) before /\
    Forall (fun b => isCorrect b = false) after.

(** A transport or parse failure in one of the two phases of
    [generateQuizQuestions], with the value it raises. *)
Inductive GenerationFailure (host : Host) (fileBase64 mimeType' : string)
    (topics' : list string) (questionCount' : Z) (err : Thrown) : Prop :=
| SearchTransportFailure :
    generateContent host (searchRequest fileBase64 mimeType' topics') = Throw err ->
    GenerationFailure host fileBase64 mimeType' topics' questionCount' err
| GenerationTransportFailure : forall searchResponse sourcesText,
    generateContent host (searchRequest fileBase64 mimeType' topics') = Ok searchResponse ->
    sourcesTextOf (groundingChunksOf searchResponse) = Ok sourcesText ->
    generateContent host
      (generationRequest fileBase64 mimeType' topics' questionCount' sourcesText)
      = Throw err ->
    GenerationFailure host fileBase64 mimeType' topics' questionCount' err
| GenerationParseFailure : forall searchResponse sourcesText questionGenResponse,
    generateContent host (searchRequest fileBase64 mimeType' topics') = Ok searchResponse ->
    sourcesTextOf (groundingChunksOf searchResponse) = Ok sourcesText ->
    generateContent host
      (generationRequest fileBase64 mimeType' topics' questionCount' sourcesText)
      = Ok questionGenResponse ->
    JSON_parse_quiz host (resp_text questionGenResponse) = Throw err ->
    GenerationFailure host fileBase64 mimeType' topics' questionCount' err.

(* ================================================================== *)
(** ** App.tsx: what the pages show *)

(** The label of the Next button of [renderQuiz]:
    [currentQuestionIndex === quizData.length - 1 ? ... : ...]. *)
Definition nextButtonLabel (s : Session) : string :=
  if currentQuestionIndex s =? lengthZ (quizData s) - 1
  then "Finish & View Results"
  else "Next Question".

(** [renderReview], for the answer [aIndex] of the question [qIndex]:
    [isUserAnswer] is [userAnswer?.answerIndex === aIndex], where
    [userAnswer] is the first stored answer of that question. *)
Definition isUserAnswer (s : Session) (qIndex aIndex : Z) : bool :=
  match find (fun a => questionIndex a =? qIndex) (userAnswers s) with
  | Some userAnswer => answerIndex userAnswer =? aIndex
  | None => false
  end.

(** The border of an answer card: green for the correct answer, red for a
    wrong answer the user picked, grey otherwise. *)
Definition borderColor (s : Session) (qIndex aIndex : Z) (answer : Answer) : string :=
  if isCorrect answer then "border-green-500"
  else if isUserAnswer s qIndex aIndex then "border-red-500"
  else "border-gray-700".

(** Whether the card carries the YOUR ANSWER badge:
    [isUserAnswer && !isCorrect]. *)
Definition yourAnswerBadge (s : Session) (qIndex aIndex : Z) (answer : Answer) : bool :=
  isUserAnswer s qIndex aIndex && negb (isCorrect answer).

(** [array.map((x, index) => f(x, index))], the indices starting at [from]. *)
Fixpoint mapIndexed {A B : Type} (f : A -> Z -> B) (from : Z) (l : list A) : list B :=
  match l with
  | [] => []
  | x :: xs => f x from :: mapIndexed f (from + 1) xs
  end.

(** The YOUR ANSWER badges of the review page, question by question, in the
    order of the two nested [map]s of [renderReview]. *)
Definition reviewBadges (s : Session) : list (list bool) :=
  mapIndexed
    (fun q qIndex =>
       mapIndexed (fun answer aIndex => yourAnswerBadge s qIndex aIndex answer)
                  0 (answers q))
    0 (quizData s).

Definition countTrue (l : list bool) : Z := lengthZ (filter (fun b => b) l).

(** The number of YOUR ANSWER badges on the review page. *)
Definition totalBadges (s : Session) : Z :=
  fold_right Z.add 0 (map countTrue (reviewBadges s)).

(** The borders of the answer cards of the question [qIndex]. *)
Definition cardBorders (s : Session) (qIndex : Z) (q : QuizQuestion) : list string :=
  mapIndexed (fun answer aIndex => borderColor s qIndex aIndex answer) 0 (answers q).

(* ================================================================== *)
(** ** Invariants of the session *)

(** The indices [0 .. n-1]. *)
Definition upTo (n : Z) : list Z := map Z.of_nat (seq 0 (Z.to_nat n)).

(** What each phase says about the quiz and the stored answers: outside of
    a quiz there is none; while taking it the questions before the current
    one are answered, in order, and the current one may be; on the review
    page all are. *)
Definition phaseInvariant (s : Session) : Prop :=
  match appState s with
  | TAKING_QUIZ =>
      0 <= currentQuestionIndex s /\
      (currentQuestionIndex s < lengthZ (quizData s) \/
       (quizData s = [] /\ currentQuestionIndex s = 0)) /\
      (map questionIndex (userAnswers s) = upTo (currentQuestionIndex s) \/
       (map questionIndex (userAnswers s) = upTo (currentQuestionIndex s + 1) /\
        currentQuestionIndex s < lengthZ (quizData s)))
  | REVIEW =>
      map questionIndex (userAnswers s) = upTo (lengthZ (quizData s)) /\
      currentQuestionIndex s = lengthZ (quizData s) - 1 /\
      0 < lengthZ (quizData s)
  | _ => quizData s = [] /\ userAnswers s = []
  end.

(** What holds of the setup fields in every phase. *)
Definition setupInvariant (s : Session) : Prop :=
  incl (selectedTopics s) (topics s) /\
  (topics s <> [] -> file s <> None /\ fileData s <> None) /\
  5 <= questionCount s <= 50.

(* ================================================================== *)
(** * Properties *)

(** ** Lists and indices *)

Lemma nthZ_Some_bounds {A : Type} (l : list A) (i : Z) (x : A) :
  nthZ l i = Some x -> 0 <= i < lengthZ l.
Proof.
  unfold nthZ, lengthZ. destruct (i <? 0) eqn:Hneg; [discriminate|].
  intros H. apply Z.ltb_ge in Hneg.
  assert (Hlt : (Z.to_nat i < List.length l)%nat).
  { apply nth_error_Some. congruence. }
  lia.
Qed.

Lemma nthZ_in_bounds {A : Type} (l : list A) (i : Z) :
  0 <= i < lengthZ l -> exists x, nthZ l i = Some x.
Proof.
  unfold nthZ, lengthZ. intros [H0 Hlt].
  destruct (i <? 0) eqn:Hneg; [apply Z.ltb_lt in Hneg; lia|].
  destruct (nth_error l (Z.to_nat i)) as [x|] eqn:Hn; [eauto|].
  apply nth_error_None in Hn. lia.
Qed.

Lemma filter_split_length {A : Type} (p : A -> bool) (l : list A) :
  (List.length (filter p l) + List.length (filter (fun x => negb (p x)) l)
   = List.length l)%nat.
Proof.
  induction l as [|x l IH]; simpl; [reflexivity|].
  destruct (p x); simpl; lia.
Qed.

Lemma filter_none {A : Type} (p : A -> bool) (l : list A) :
  Forall (fun x => p x = false) l -> filter p l = [].
Proof.
  induction 1 as [|x l Hx _ IH]; simpl; [reflexivity|]. now rewrite Hx.
Qed.

Lemma filter_nil_none {A : Type} (p : A -> bool) (l : list A) :
  filter p l = [] -> Forall (fun x => p x = false) l.
Proof.
  induction l as [|x l IH]; simpl; intros H; [constructor|].
  destruct (p x) eqn:Hp; [discriminate|]. constructor; auto.
Qed.

(** ** Validation of generated questions *)

Lemma filter_singleton_split {A : Type} (p : A -> bool) (l : list A) (a : A) :
  filter p l = [a] ->
  exists before after,
    l = (before ++ a :: after)%list /\ p a = true /\
    Forall (fun x => p x = false) before /\ Forall (fun x => p x = false) after.
Proof.
  induction l as [|x l IH]; simpl; intros H; [discriminate|].
  destruct (p x) eqn:Hp.
  - injection H as Hx Hrest. subst x.
    exists [], l. repeat split; auto. now apply filter_nil_none.
  - destruct (IH H) as (before & after & -> & Ha & Hb & Hc).
    exists (x :: before), after. repeat split; auto.
Qed.

Lemma exactlyOneCorrect_spec (q : QuizQuestion) :
  exactlyOneCorrect q = true <-> hasExactlyOneCorrect q.
Proof.
  unfold exactlyOneCorrect, hasExactlyOneCorrect, lengthZ. split.
  - intros H. apply Z.eqb_eq in H.
    destruct (filter isCorrect (answers q)) as [|a [|b rest]] eqn:Hf;
      simpl in H; try lia.
    destruct (filter_singleton_split _ _ Hf) as (before & after & Heq & Ha & Hb & Hc).
    exists before, a, after. auto.
  - intros (before & a & after & Heq & Ha & Hb & Hc).
    rewrite Heq, filter_app. simpl. rewrite Ha.
    rewrite (filter_none _ Hb), (filter_none _ Hc). reflexivity.
Qed.

Lemma generateQuizQuestions_ok (host : Host) (fileBase64 mimeType' : string)
    (topics' : list string) (questionCount' : Z)
    (searchResponse questionGenResponse : Response) (sourcesText : string)
    (returned : list QuizQuestion) :
  generateContent host (searchRequest fileBase64 mimeType' topics') = Ok searchResponse ->
  sourcesTextOf (groundingChunksOf searchResponse) = Ok sourcesText ->
  generateContent host
    (generationRequest fileBase64 mimeType' topics' questionCount' sourcesText)
    = Ok questionGenResponse ->
  JSON_parse_quiz host (resp_text questionGenResponse) = Ok returned ->
  generateQuizQuestions host fileBase64 mimeType' topics' questionCount'
  = Ok (filter exactlyOneCorrect returned).
Proof.
  intros Hs Ht Hg Hp. unfold generateQuizQuestions.
  rewrite Hs. cbn [bindR]. rewrite Ht. cbn [bindR]. rewrite Hg. cbn [bindR].
  rewrite Hp. reflexivity.
Qed.

(** C1 (as amended). When both phases answer and the reply parses, the result
    of [generateQuizQuestions] is the returned array filtered to the
    questions with exactly one answer marked correct, in the returned order;
    questions with none or several are dropped. The result is no longer than
    the returned array, hence no longer than the requested count whenever
    the model returned at most that many items; ten returned items of which
    two have two correct answers (the others one) give eight questions. *)
Theorem generateQuizQuestions_validated (host : Host) (fileBase64 mimeType' : string)
    (topics' : list string) (questionCount' : Z)
    (searchResponse questionGenResponse : Response) (sourcesText : string)
    (returned : list QuizQuestion) :
  generateContent host (searchRequest fileBase64 mimeType' topics') = Ok searchResponse ->
  sourcesTextOf (groundingChunksOf searchResponse) = Ok sourcesText ->
  generateContent host
    (generationRequest fileBase64 mimeType' topics' questionCount' sourcesText)
    = Ok questionGenResponse ->
  JSON_parse_quiz host (resp_text questionGenResponse) = Ok returned ->
  exists result,
    generateQuizQuestions host fileBase64 mimeType' topics' questionCount' = Ok result /\
    result = filter exactlyOneCorrect returned /\
    (forall q, In q result <-> In q returned /\ hasExactlyOneCorrect q) /\
    lengthZ result <= lengthZ returned /\
    (lengthZ returned <= questionCount' -> lengthZ result <= questionCount') /\
    (lengthZ returned = 10 ->
     Forall (fun q => lengthZ (filter isCorrect (answers q)) = 1 \/
                      lengthZ (filter isCorrect (answers q)) = 2) returned ->
     lengthZ (filter (fun q => lengthZ (filter isCorrect (answers q)) =? 2) returned) = 2 ->
     lengthZ result = 8).
Proof.
  intros Hs Ht Hg Hp.
  exists (filter exactlyOneCorrect returned).
  pose proof (filter_split_length exactlyOneCorrect returned) as Hsplit.
  split; [eapply generateQuizQuestions_ok; eauto|].
  split; [reflexivity|].
  split.
  { intros q. rewrite filter_In, exactlyOneCorrect_spec. tauto. }
  split; [unfold lengthZ; lia|].
  split; [unfold lengthZ in *; lia|].
  intros Hten Hshape Htwo.
  assert (Hsame : filter (fun q => negb (exactlyOneCorrect q)) returned
                  = filter (fun q => lengthZ (filter isCorrect (answers q)) =? 2) returned).
  { apply filter_ext_in. intros q Hq.
    rewrite Forall_forall in Hshape. specialize (Hshape q Hq).
    unfold exactlyOneCorrect. destruct Hshape as [H1 | H2].
    - rewrite H1. reflexivity.
    - rewrite H2. reflexivity. }
  rewrite Hsame in Hsplit. unfold lengthZ in *. lia.
Qed.

Lemma generateQuizQuestions_validated_witness :
  exists result,
    generateQuizQuestions Samples.hostTen "JVBERi0=" "application/pdf" ["Networking"] 10
    = Ok result /\
    lengthZ Samples.tenWithTwoBad = 10 /\
    lengthZ result = 8.
Proof.
  destruct (@generateQuizQuestions_validated Samples.hostTen "JVBERi0=" "application/pdf"
              ["Networking"] 10 _ _ _ Samples.tenWithTwoBad
              eq_refl eq_refl eq_refl eq_refl)
    as (result & Hrun & _ & _ & _ & _ & Hscenario).
  exists result. split; [exact Hrun|]. split; [reflexivity|].
  apply Hscenario.
  - reflexivity.
  - repeat (apply Forall_cons; [first [left; reflexivity | right; reflexivity]|]).
    apply Forall_nil.
  - reflexivity.
Defined.

(** C1, as stated, fails: asked for five questions, a reply of six
    well-formed items is returned whole, and six exceeds five. *)
Lemma generateQuizQuestions_count_counterexample :
  exists result,
    generateQuizQuestions Samples.hostSix "JVBERi0=" "application/pdf" ["Networking"] 5
    = Ok result /\
    result = filter exactlyOneCorrect Samples.sixGood /\
    ~ lengthZ result <= 5.
Proof.
  exists Samples.sixGood. split; [reflexivity|]. split; [reflexivity|].
  vm_compute. intros H. apply H. reflexivity.
Qed.

(** ** Topic extraction *)

Lemma extractTopicsFromGuide_parsed (host : Host) (fileBase64 mimeType' : string)
    (response : Response) (json : GuideJson) :
  generateContent host (extractTopicsRequest fileBase64 mimeType') = Ok response ->
  JSON_parse_guide host (resp_text response) = Ok json ->
  extractTopicsFromGuide host fileBase64 mimeType'
  = if negb (match json_isGuide json with Some b => b | None => false end)
    then Throw (ErrorObj notGuideMessage)
    else Ok (match json_topics json with Some ts => ts | None => [] end).
Proof.
  intros Hc Hp. unfold extractTopicsFromGuide.
  rewrite Hc. cbn [bindR]. rewrite Hp. reflexivity.
Qed.

(** C6. When the parsed reply has [isGuide = false], [extractTopicsFromGuide]
    throws the not-a-valid-guide error and returns no topics, and the caller
    [handleFileChange] shows that message and ends in Setup with no topics
    and no file; when [isGuide = true] it returns the [topics] array, empty
    if the array is empty or the property is missing. *)
Theorem extractTopicsFromGuide_isGuide (host : Host) (fileBase64 mimeType' : string)
    (response : Response) (json : GuideJson) :
  generateContent host (extractTopicsRequest fileBase64 mimeType') = Ok response ->
  JSON_parse_guide host (resp_text response) = Ok json ->
  (json_isGuide json = Some false ->
     extractTopicsFromGuide host fileBase64 mimeType' = Throw (ErrorObj notGuideMessage) /\
     forall (selectedFile : File) (s : Session),
       fileToBase64 selectedFile = Ok fileBase64 ->
       file_type selectedFile = mimeType' ->
       let s' := settle (handleFileChange host (Some selectedFile) s) s in
       error s' = Some notGuideMessage /\
       topics s' = [] /\ selectedTopics s' = [] /\
       file s' = None /\ fileData s' = None /\
       appState s' = SETUP) /\
  (json_isGuide json = Some true ->
     extractTopicsFromGuide host fileBase64 mimeType'
     = Ok (match json_topics json with Some ts => ts | None => [] end) /\
     (json_topics json = None \/ json_topics json = Some [] ->
      extractTopicsFromGuide host fileBase64 mimeType' = Ok [])).
Proof.
  intros Hc Hp.
  pose proof (extractTopicsFromGuide_parsed _ _ _ Hc Hp) as Hrun.
  split; intros Hg; rewrite Hg in Hrun; cbn [negb] in Hrun.
  - split; [exact Hrun|].
    intros selectedFile s Hb Ht s'. subst s'.
    unfold handleFileChange. rewrite Hb, Ht, Hrun.
    unfold settle. cbn. repeat split; reflexivity.
  - split; [exact Hrun|].
    intros [Hn | Hn]; rewrite Hn in Hrun; exact Hrun.
Qed.

Lemma extractTopicsFromGuide_isGuide_witness :
  extractTopicsFromGuide Samples.hostNotGuide "JVBERi0=" "application/pdf"
  = Throw (ErrorObj notGuideMessage) /\
  error (settle (handleFileChange Samples.hostNotGuide (Some Samples.guide) initialSession)
                initialSession)
  = Some notGuideMessage /\
  extractTopicsFromGuide Samples.host "JVBERi0=" "application/pdf"
  = Ok ["Networking"; "Storage"].
Proof.
  pose proof (@extractTopicsFromGuide_isGuide Samples.hostNotGuide "JVBERi0="
                "application/pdf" _ Samples.notGuideJson eq_refl eq_refl) as [Hno _].
  pose proof (@extractTopicsFromGuide_isGuide Samples.host "JVBERi0="
                "application/pdf" _ Samples.guideJson eq_refl eq_refl) as [_ Hyes].
  destruct (Hno eq_refl) as [Hthrow Hcaller].
  destruct (Hcaller Samples.guide initialSession eq_refl eq_refl) as [Herr _].
  destruct (Hyes eq_refl) as [Htopics _].
  split; [exact Hthrow|]. split; [exact Herr|]. exact Htopics.
Defined.

(** ** Grounding fallback *)

(** C7. When the search reply carries no grounding chunk, the sources text is
    the fixed fallback sentence asking to rely solely on the provided exam
    guide, the generation request is built from it, and
    [generateQuizQuestions] goes on: if the generation phase answers and its
    reply parses, the validated quiz is returned. *)
Theorem generateQuizQuestions_no_sources (host : Host) (fileBase64 mimeType' : string)
    (topics' : list string) (questionCount' : Z) (searchResponse : Response) :
  generateContent host (searchRequest fileBase64 mimeType' topics') = Ok searchResponse ->
  groundingChunksOf searchResponse = [] ->
  sourcesTextOf (groundingChunksOf searchResponse) = Ok noSourcesText /\
  noSourcesText
  = "No external sources found. Please rely solely on the provided exam guide." /\
  generateQuizQuestions host fileBase64 mimeType' topics' questionCount'
  = (questionGenResponse <-
       generateContent host
         {| model := "gemini-2.5-pro";
            parts := [fileToGenerativePart fileBase64 mimeType';
                      TextPart (promptHead ++ noSourcesText ++ promptTask
                                ++ showNumber questionCount' ++ promptTopics
                                ++ join ", " topics' ++ promptRules)];
            config := QuizSchema |} ;;
     quizData <- JSON_parse_quiz host (resp_text questionGenResponse) ;;
     Ok (filter exactlyOneCorrect quizData)) /\
  (forall questionGenResponse returned,
     generateContent host
       (generationRequest fileBase64 mimeType' topics' questionCount' noSourcesText)
       = Ok questionGenResponse ->
     JSON_parse_quiz host (resp_text questionGenResponse) = Ok returned ->
     generateQuizQuestions host fileBase64 mimeType' topics' questionCount'
     = Ok (filter exactlyOneCorrect returned)).
Proof.
  intros Hs Hnone.
  assert (Htext : sourcesTextOf (groundingChunksOf searchResponse) = Ok noSourcesText).
  { rewrite Hnone. reflexivity. }
  split; [exact Htext|]. split; [reflexivity|]. split.
  - unfold generateQuizQuestions. rewrite Hs. cbn [bindR]. rewrite Htext. reflexivity.
  - intros questionGenResponse returned Hg Hp.
    eapply generateQuizQuestions_ok; eauto.
Qed.

Lemma generateQuizQuestions_no_sources_witness :
  sourcesTextOf [] = Ok noSourcesText /\
  generateQuizQuestions Samples.hostNoSources "JVBERi0=" "application/pdf" ["Networking"] 10
  = Ok Samples.threeGood.
Proof.
  destruct (@generateQuizQuestions_no_sources Samples.hostNoSources "JVBERi0="
              "application/pdf" ["Networking"] 10 _ eq_refl eq_refl)
    as (Htext & _ & _ & Hquiz).
  split; [exact Htext|].
  exact (Hquiz _ Samples.threeGood eq_refl eq_refl).
Defined.

(** ** Failure of quiz generation *)

Lemma generateQuizQuestions_failure (host : Host) (fileBase64 mimeType' : string)
    (topics' : list string) (questionCount' : Z) (err : Thrown) :
  GenerationFailure host fileBase64 mimeType' topics' questionCount' err ->
  generateQuizQuestions host fileBase64 mimeType' topics' questionCount' = Throw err.
Proof.
  unfold generateQuizQuestions.
  intros [Hs | sr st Hs Ht Hg | sr st gr Hs Ht Hg Hp].
  - rewrite Hs. reflexivity.
  - rewrite Hs. cbn [bindR]. rewrite Ht. cbn [bindR]. rewrite Hg. reflexivity.
  - rewrite Hs. cbn [bindR]. rewrite Ht. cbn [bindR]. rewrite Hg. cbn [bindR].
    rewrite Hp. reflexivity.
Qed.

(** C5 (as amended). A transport or parse failure in either phase makes
    [generateQuizQuestions] throw that same value, and [handleGenerateQuiz]
    ends in Setup with the error message set: the message of the thrown
    value when it is an [Error], and the generic text only when it is not.
    Nothing of the attempt is kept: quiz data, user answers, question
    index, topics and file are as before. *)
Theorem handleGenerateQuiz_failure (host : Host) (rng : Rng) (s : Session)
    (fd : FileData) (err : Thrown) :
  fileData s = Some fd ->
  lengthZ (selectedTopics s) <> 0 ->
  GenerationFailure host (base64 fd) (mimeType fd) (selectedTopics s) (questionCount s) err ->
  let s' := settle (handleGenerateQuiz host rng s) s in
  generateQuizQuestions host (base64 fd) (mimeType fd) (selectedTopics s) (questionCount s)
  = Throw err /\
  error s' = Some (match err with
                   | ErrorObj message => message
                   | NonError => "Failed to generate quiz."
                   end) /\
  appState s' = SETUP /\
  quizData s' = quizData s /\
  userAnswers s' = userAnswers s /\
  currentQuestionIndex s' = currentQuestionIndex s /\
  topics s' = topics s /\
  selectedTopics s' = selectedTopics s /\
  questionCount s' = questionCount s /\
  file s' = file s /\
  fileData s' = fileData s.
Proof.
  intros Hfd Hsel Hfail s'. subst s'.
  pose proof (generateQuizQuestions_failure Hfail) as Hthrow.
  split; [exact Hthrow|].
  unfold handleGenerateQuiz. rewrite Hfd.
  destruct (lengthZ (selectedTopics s) =? 0) eqn:Hz; [apply Z.eqb_eq in Hz; contradiction|].
  rewrite Hthrow. unfold settle. cbn.
  destruct err; repeat split; auto.
Qed.

Lemma handleGenerateQuiz_failure_witness :
  error (settle (handleGenerateQuiz Samples.hostParseFail Samples.rng Samples.ready)
                Samples.ready)
  = Some "Unexpected end of JSON input" /\
  appState (settle (handleGenerateQuiz Samples.hostParseFail Samples.rng Samples.ready)
                   Samples.ready)
  = SETUP.
Proof.
  assert (Hfail : GenerationFailure Samples.hostParseFail "JVBERi0=" "application/pdf"
                    ["Networking"; "Storage"] 10 (ErrorObj "Unexpected end of JSON input")).
  { eapply GenerationParseFailure; reflexivity. }
  destruct (@handleGenerateQuiz_failure Samples.hostParseFail Samples.rng Samples.ready
              {| base64 := "JVBERi0="; mimeType := "application/pdf" |}
              (ErrorObj "Unexpected end of JSON input") eq_refl
              ltac:(vm_compute; discriminate) Hfail)
    as (_ & Herr & Hstate & _).
  split; [exact Herr | exact Hstate].
Defined.

(** C5, as stated, fails: when [JSON.parse] throws on the generation reply,
    the message shown is the parser's, not the generic one. *)
Lemma handleGenerateQuiz_generic_message_counterexample :
  GenerationFailure Samples.hostParseFail "JVBERi0=" "application/pdf"
    ["Networking"; "Storage"] 10 (ErrorObj "Unexpected end of JSON input") /\
  fileData Samples.ready = Some {| base64 := "JVBERi0="; mimeType := "application/pdf" |} /\
  selectedTopics Samples.ready = ["Networking"; "Storage"] /\
  questionCount Samples.ready = 10 /\
  error (settle (handleGenerateQuiz Samples.hostParseFail Samples.rng Samples.ready)
                Samples.ready)
  = Some "Unexpected end of JSON input" /\
  error (settle (handleGenerateQuiz Samples.hostParseFail Samples.rng Samples.ready)
                Samples.ready)
  <> Some "Failed to generate quiz.".
Proof.
  split; [eapply GenerationParseFailure; reflexivity|].
  repeat split; try reflexivity.
  vm_compute. discriminate.
Qed.

(** ** Shuffling *)

Section PermutationAC.
Context {A : Type}.

#[local] Instance Permutation_app_Associative : Associative (@Permutation A) (@app A).
Proof. intros x y z. rewrite app_assoc. reflexivity. Qed.

#[local] Instance Permutation_app_Commutative : Commutative (@Permutation A) (@app A).
Proof. intros x y. apply Permutation_app_comm. Qed.

#[local] Instance Permutation_app_Unit : Unit (@Permutation A) (@app A) nil.
Proof. split; intro x; [reflexivity | rewrite app_nil_r; reflexivity]. Qed.

End PermutationAC.

#[local] Existing Instance Permutation_app_Associative.
#[local] Existing Instance Permutation_app_Commutative.
#[local] Existing Instance Permutation_app_Unit.

(** Write every [x :: l] as [[x] ++ l], drop the reversals, and compare
    modulo associativity and commutativity of [++]. *)
Ltac perm_ac :=
  repeat rewrite <- Permutation_rev;
  repeat match goal with
         | |- context [?x :: ?l] =>
             lazymatch l with
             | nil => fail
             | _ => change (x :: l) with ([x] ++ l)%list
             end
         end;
  aac_reflexivity.

Ltac run_rand c :=
  let a := fresh "a" in let r := fresh "rng" in let E := fresh "E" in
  destruct c as [a r] eqn:E; cbn [fst snd] in *.

Lemma bindM_ext (A B : Type) (c : Rand A) (k k' : A -> Rand B) (rng : Rng) :
  (forall (a : A) (rng' : Rng), c rng = (a, rng') -> k a rng' = k' a rng') ->
  bindM c k rng = bindM c k' rng.
Proof.
  intro H. unfold bindM. destruct (c rng) as [a rng']. now apply H.
Qed.

Section ArraySortFacts.
Variable A : Type.
Variable comparefn : A -> A -> Rand Q.
Local Open Scope nat_scope.
Local Open Scope list_scope.

Lemma extendRun_split (isDescending : bool) (l : list A) :
  forall (previousElement : A) (rng : Rng),
    let p := fst (extendRun comparefn isDescending previousElement l rng) in
    fst p ++ snd p = l.
Proof.
  induction l as [|x l IH]; intros prev rng; cbn [extendRun]; [reflexivity|].
  unfold bindM. destruct (comparefn x prev rng) as [order rng1].
  destruct (if isDescending then _ else _); [reflexivity|].
  specialize (IH x rng1). cbn zeta in IH.
  destruct (extendRun comparefn isDescending x l rng1) as [p rng2].
  cbn. cbn in IH. now rewrite IH.
Qed.

Lemma CountAndMakeRun_permutation (l : list A) (rng : Rng) :
  let p := fst (CountAndMakeRun comparefn l rng) in
  Permutation (fst p ++ snd p) l /\ (l <> [] -> fst p <> []).
Proof.
  destruct l as [|x [|y l]]; cbn [CountAndMakeRun];
    [split; [reflexivity | intro H; now elim H] | split; [reflexivity | discriminate] |].
  unfold bindM. destruct (comparefn y x rng) as [order rng1].
  pose proof (extendRun_split (isNegative order) l y rng1) as H. cbn zeta in H.
  destruct (extendRun comparefn (isNegative order) y l rng1) as [p rng2].
  unfold retM. cbn [fst snd] in *. subst l.
  destruct (isNegative order); split.
  - perm_ac.
  - intros _ E. apply (f_equal (@List.length A)) in E.
    rewrite length_rev in E. discriminate.
  - reflexivity.
  - discriminate.
Qed.

Lemma BinaryInsertionSort_permutation (pivots : list A) :
  forall (run : list A) (rng : Rng),
    Permutation (fst (BinaryInsertionSort comparefn run pivots rng)) (run ++ pivots).
Proof.
  induction pivots as [|pivot tl IH]; intros run rng; cbn [BinaryInsertionSort].
  - cbn. now rewrite app_nil_r.
  - unfold bindM.
    destruct (insertionPoint comparefn (List.length run) run pivot 0 (List.length run) rng)
      as [left rng1].
    rewrite IH. rewrite <- (firstn_skipn left run) at 3.
    perm_ac.
Qed.

Lemma mergeLowLoop_permutation (fuel : nat) :
  forall (mode : MergeMode) (minGallop : nat) (destRev : list A) (a0 a1 : A)
         (Ar : list A) (b0 : A) (Br : list A) (rng : Rng),
    Permutation
      (fst (fst (mergeLowLoop comparefn fuel mode minGallop destRev a0 a1 Ar b0 Br rng)))
      (destRev ++ (a0 :: a1 :: Ar) ++ (b0 :: Br)).
Proof.
  induction fuel as [|fuel IH]; intros mode mg destRev a0 a1 Ar b0 Br rng;
    cbn [mergeLowLoop].
  - unfold retM; cbn [fst]. perm_ac.
  - destruct mode as [nofWinsA nofWinsB|]; unfold bindM.
    + destruct (comparefn b0 a0 rng) as [order rng1].
      destruct (isNegative order).
      * destruct Br as [|b1 Br'].
        { unfold retM; cbn [fst]. perm_ac. }
        destruct (mg <=? nofWinsB + 1); rewrite IH; perm_ac.
      * destruct Ar as [|a2 Ar'].
        { unfold retM; cbn [fst]. perm_ac. }
        destruct (mg <=? nofWinsA + 1); rewrite IH; perm_ac.
    + destruct (GallopRight comparefn (a0 :: a1 :: Ar) b0 0 rng) as [nofWinsA rng1].
      pose proof (firstn_skipn nofWinsA (a0 :: a1 :: Ar)) as HA.
      rewrite <- HA at 2.
      set (FA := firstn nofWinsA (a0 :: a1 :: Ar)) in *. clearbody FA.
      destruct (skipn nofWinsA (a0 :: a1 :: Ar)) as [|a0' [|a1' Ar']].
      { unfold retM; cbn [fst]. perm_ac. }
      { unfold retM; cbn [fst]. perm_ac. }
      destruct Br as [|b1 Br'].
      { unfold retM; cbn [fst]. perm_ac. }
      destruct (GallopLeft comparefn (b1 :: Br') a0' 0 rng1) as [nofWinsB rng2].
      pose proof (firstn_skipn nofWinsB (b1 :: Br')) as HB.
      rewrite <- HB at 2.
      set (FB := firstn nofWinsB (b1 :: Br')) in *. clearbody FB.
      destruct (skipn nofWinsB (b1 :: Br')) as [|b0' Br''].
      { unfold retM; cbn [fst]. perm_ac. }
      destruct Ar' as [|a2' Ar''].
      { unfold retM; cbn [fst]. perm_ac. }
      destruct (_ || _); rewrite IH; perm_ac.
Qed.

Lemma MergeLow_permutation (a0 : A) (Ar : list A) (b0 : A) (Br : list A)
    (minGallop : nat) (rng : Rng) :
  Permutation (fst (fst (MergeLow comparefn a0 Ar b0 Br minGallop rng)))
              ((a0 :: Ar) ++ (b0 :: Br)).
Proof.
  unfold MergeLow. destruct Br as [|b1 Br']; [unfold retM; cbn [fst]; perm_ac|].
  destruct Ar as [|a1 Ar']; [unfold retM; cbn [fst]; perm_ac|].
  rewrite mergeLowLoop_permutation. perm_ac.
Qed.

Lemma mergeHighLoop_permutation (fuel : nat) :
  forall (mode : MergeMode) (minGallop : nat) (tail : list A) (a0 : A)
         (Ar : list A) (b0 b1 : A) (Br : list A) (rng : Rng),
    Permutation
      (fst (fst (mergeHighLoop comparefn fuel mode minGallop tail a0 Ar b0 b1 Br rng)))
      ((a0 :: Ar) ++ (b0 :: b1 :: Br) ++ tail).
Proof.
  induction fuel as [|fuel IH]; intros mode mg tail a0 Ar b0 b1 Br rng;
    cbn [mergeHighLoop].
  - unfold retM; cbn [fst]. perm_ac.
  - destruct mode as [nofWinsA nofWinsB|]; unfold bindM.
    + destruct (comparefn b0 a0 rng) as [order rng1].
      destruct (isNegative order).
      * destruct Ar as [|a1 Ar'].
        { unfold retM; cbn [fst]. perm_ac. }
        destruct (mg <=? nofWinsA + 1); rewrite IH; perm_ac.
      * destruct Br as [|b2 Br'].
        { unfold retM; cbn [fst]. perm_ac. }
        destruct (mg <=? nofWinsB + 1); rewrite IH; perm_ac.
    + destruct (GallopRight comparefn (rev (a0 :: Ar)) b0 (List.length (a0 :: Ar) - 1) rng)
        as [k rng1].
      set (nofWinsA := List.length (a0 :: Ar) - k). clearbody nofWinsA.
      pose proof (firstn_skipn nofWinsA (a0 :: Ar)) as HA.
      rewrite <- HA at 2.
      set (FA := firstn nofWinsA (a0 :: Ar)) in *. clearbody FA.
      destruct (skipn nofWinsA (a0 :: Ar)) as [|a0' Ar'].
      { unfold retM; cbn [fst]. perm_ac. }
      destruct Br as [|b2 Br'].
      { unfold retM; cbn [fst]. perm_ac. }
      destruct (GallopLeft comparefn (rev (b1 :: b2 :: Br')) a0'
                  (List.length (b1 :: b2 :: Br') - 1) rng1) as [k' rng2].
      set (nofWinsB := List.length (b1 :: b2 :: Br') - k'). clearbody nofWinsB.
      pose proof (firstn_skipn nofWinsB (b1 :: b2 :: Br')) as HB.
      assert (HB' : Permutation (b0 :: b1 :: b2 :: Br')
                      ([b0] ++ firstn nofWinsB (b1 :: b2 :: Br')
                            ++ skipn nofWinsB (b1 :: b2 :: Br')))
        by (rewrite HB; reflexivity).
      rewrite HB'. clear HB HB'.
      set (FB := firstn nofWinsB (b1 :: b2 :: Br')) in *. clearbody FB.
      destruct (skipn nofWinsB (b1 :: b2 :: Br')) as [|b0' [|b1' Br'']].
      { unfold retM; cbn [fst]. perm_ac. }
      { unfold retM; cbn [fst]. perm_ac. }
      destruct Ar' as [|a1' Ar''].
      { unfold retM; cbn [fst]. perm_ac. }
      destruct (_ || _); rewrite IH; perm_ac.
Qed.

Lemma MergeHigh_permutation (a0 : A) (Ar : list A) (b0 : A) (Br : list A)
    (minGallop : nat) (rng : Rng) :
  Permutation (fst (fst (MergeHigh comparefn a0 Ar b0 Br minGallop rng)))
              ((a0 :: Ar) ++ (b0 :: Br)).
Proof.
  unfold MergeHigh. destruct Ar as [|a1 Ar']; [unfold retM; cbn [fst]; perm_ac|].
  destruct Br as [|b1 Br']; [unfold retM; cbn [fst]; perm_ac|].
  rewrite mergeHighLoop_permutation. perm_ac.
Qed.

Lemma reverseFrom_spec (l : list A) :
  forall (x : A) (acc : list A),
    rev (fst (reverseFrom x l acc) :: snd (reverseFrom x l acc)) = rev acc ++ x :: l.
Proof.
  induction l as [|y l IH]; intros x acc; cbn [reverseFrom].
  - reflexivity.
  - rewrite IH. cbn [rev]. now rewrite <- app_assoc.
Qed.

Lemma reverseFrom_permutation (x : A) (l : list A) :
  Permutation (fst (reverseFrom x l []) :: snd (reverseFrom x l [])) (x :: l).
Proof.
  rewrite (Permutation_rev (_ :: _)), reverseFrom_spec. reflexivity.
Qed.

Lemma MergeAt_permutation (runA runB : list A) (minGallop : nat) (rng : Rng) :
  Permutation (fst (fst (MergeAt comparefn runA runB minGallop rng))) (runA ++ runB).
Proof.
  unfold MergeAt. destruct runB as [|keyRight tlB].
  { unfold retM; cbn [fst]. now rewrite app_nil_r. }
  set (runB := keyRight :: tlB). clearbody runB. unfold bindM.
  destruct (GallopRight comparefn runA keyRight 0 rng) as [k rng1].
  pose proof (firstn_skipn k runA) as HA.
  set (FA := firstn k runA) in *. clearbody FA.
  destruct (skipn k runA) as [|a0 Ar]; [reflexivity|].
  pose proof (reverseFrom_permutation a0 Ar) as HrA.
  destruct (reverseFrom a0 Ar []) as [keyLeft revAr]. cbn [fst snd] in HrA.
  destruct (GallopLeft comparefn runB keyLeft (List.length runB - 1) rng1)
    as [lengthB rng2].
  pose proof (firstn_skipn lengthB runB) as HB.
  set (SB := skipn lengthB runB) in *. clearbody SB.
  destruct (firstn lengthB runB) as [|b0 Br]; [reflexivity|].
  rewrite <- HA, <- HB. clear HA HB.
  destruct (List.length (a0 :: Ar) <=? List.length (b0 :: Br)).
  - pose proof (MergeLow_permutation a0 Ar b0 Br minGallop rng2) as HM.
    destruct (MergeLow comparefn a0 Ar b0 Br minGallop rng2) as [m rng3].
    unfold retM; cbn [fst] in *. rewrite HM. perm_ac.
  - pose proof (reverseFrom_permutation b0 Br) as HrB.
    destruct (reverseFrom b0 Br []) as [bLast revBr]. cbn [fst snd] in HrB.
    pose proof (MergeHigh_permutation keyLeft revAr bLast revBr minGallop rng2) as HM.
    destruct (MergeHigh comparefn keyLeft revAr bLast revBr minGallop rng2) as [m rng3].
    unfold retM; cbn [fst] in *. rewrite HM, HrA, HrB. perm_ac.
Qed.

Lemma MergeCollapse_permutation (fuel : nat) :
  forall (pendingRuns : list (list A)) (minGallop : nat) (rng : Rng),
    let c := fst (MergeCollapse comparefn fuel pendingRuns minGallop rng) in
    Permutation (List.concat (fst c)) (List.concat pendingRuns)
    /\ (pendingRuns <> [] -> fst c <> []).
Proof.
  induction fuel as [|fuel IH]; intros runs mg rng; cbn [MergeCollapse];
    [split; [reflexivity | auto]|].
  assert (mergeTop : forall runN1 runN below,
             let m := MergeAt comparefn runN runN1 mg rng in
             let c := fst (MergeCollapse comparefn fuel (fst (fst m) :: below)
                             (snd (fst m)) (snd m)) in
             Permutation (List.concat (fst c)) (List.concat (runN1 :: runN :: below))
             /\ fst c <> []).
  { intros runN1 runN below m c. subst c.
    destruct (IH (fst (fst m) :: below) (snd (fst m)) (snd m)) as [H1 H2].
    split; [|apply H2; discriminate].
    rewrite H1. cbn [List.concat]. subst m. rewrite MergeAt_permutation. perm_ac. }
  assert (mergeBelow : forall runN1 runN runNM below',
             let m := MergeAt comparefn runNM runN mg rng in
             let c := fst (MergeCollapse comparefn fuel (runN1 :: fst (fst m) :: below')
                             (snd (fst m)) (snd m)) in
             Permutation (List.concat (fst c)) (List.concat (runN1 :: runN :: runNM :: below'))
             /\ fst c <> []).
  { intros runN1 runN runNM below' m c. subst c.
    destruct (IH (runN1 :: fst (fst m) :: below') (snd (fst m)) (snd m)) as [H1 H2].
    split; [|apply H2; discriminate].
    rewrite H1. cbn [List.concat]. subst m. rewrite MergeAt_permutation. perm_ac. }
  destruct runs as [|runN1 [|runN below]];
    [split; [reflexivity | auto] | split; [reflexivity | auto] |].
  destruct below as [|runNM below'].
  - destruct (List.length runN <=? List.length runN1).
    + unfold bindM. specialize (mergeTop runN1 runN []). cbn zeta in mergeTop.
      destruct (MergeAt comparefn runN runN1 mg rng) as [m rng1].
      cbn [fst snd] in *. split; [apply mergeTop | intros _; apply mergeTop].
    + split; [reflexivity | auto].
  - destruct (_ || _).
    + destruct (List.length runNM <? List.length runN1).
      * unfold bindM. specialize (mergeBelow runN1 runN runNM below'). cbn zeta in mergeBelow.
        destruct (MergeAt comparefn runNM runN mg rng) as [m rng1].
        cbn [fst snd] in *. split; [apply mergeBelow | intros _; apply mergeBelow].
      * unfold bindM. specialize (mergeTop runN1 runN (runNM :: below')). cbn zeta in mergeTop.
        destruct (MergeAt comparefn runN runN1 mg rng) as [m rng1].
        cbn [fst snd] in *. split; [apply mergeTop | intros _; apply mergeTop].
    + destruct (List.length runN <=? List.length runN1).
      * unfold bindM. specialize (mergeTop runN1 runN (runNM :: below')). cbn zeta in mergeTop.
        destruct (MergeAt comparefn runN runN1 mg rng) as [m rng1].
        cbn [fst snd] in *. split; [apply mergeTop | intros _; apply mergeTop].
      * split; [reflexivity | auto].
Qed.


Lemma MergeForceCollapse_permutation (fuel : nat) :
  forall (pendingRuns : list (list A)) (minGallop : nat) (rng : Rng),
    Permutation
      (List.concat (fst (fst (MergeForceCollapse comparefn fuel pendingRuns minGallop rng))))
      (List.concat pendingRuns).
Proof.
  induction fuel as [|fuel IH]; intros runs mg rng; cbn [MergeForceCollapse];
    [reflexivity|].
  destruct runs as [|runN1 [|runN below]]; [reflexivity | reflexivity |].
  assert (mergeTop :
            Permutation
              (List.concat (fst (fst (bindM (MergeAt comparefn runN runN1 mg)
                 (fun m => MergeForceCollapse comparefn fuel (fst m :: below) (snd m))
                 rng))))
              (List.concat (runN1 :: runN :: below))).
  { unfold bindM. pose proof (MergeAt_permutation runN runN1 mg rng) as HM.
    destruct (MergeAt comparefn runN runN1 mg rng) as [m rng1]. cbn [fst] in HM.
    rewrite IH. cbn [List.concat]. rewrite HM. perm_ac. }
  destruct below as [|runNM below']; [exact mergeTop|].
  destruct (List.length runNM <? List.length runN1); [|exact mergeTop].
  unfold bindM. pose proof (MergeAt_permutation runNM runN mg rng) as HM.
  destruct (MergeAt comparefn runNM runN mg rng) as [m rng1]. cbn [fst] in HM.
  rewrite IH. cbn [List.concat]. rewrite HM. perm_ac.
Qed.

Lemma forcedRun_spec (minRunLength : nat) (remaining : list A)
    (p : list A * list A) (rng : Rng) :
  Permutation (fst p ++ snd p) remaining ->
  fst p <> [] ->
  let q :=
    fst ((if List.length (fst p) <? minRunLength
          then
            let forcedRunLength := Nat.min minRunLength (List.length remaining) in
            let extra := forcedRunLength - List.length (fst p) in
            run <~ BinaryInsertionSort comparefn (fst p) (firstn extra (snd p)) ;;
            retM (run, skipn extra (snd p))
          else retM p) rng) in
  Permutation (fst q ++ snd q) remaining
  /\ List.length (snd q) < List.length remaining.
Proof.
  intros Hp Hrun. cbn zeta. destruct (List.length (fst p) <? minRunLength).
  - unfold bindM.
    set (extra := Nat.min minRunLength (List.length remaining) - List.length (fst p)).
    pose proof (BinaryInsertionSort_permutation (firstn extra (snd p)) (fst p) rng) as HB.
    destruct (BinaryInsertionSort comparefn (fst p) (firstn extra (snd p)) rng)
      as [run rng2].
    unfold retM; cbn [fst snd] in *. split.
    + rewrite HB, <- app_assoc, firstn_skipn. exact Hp.
    + apply Permutation_length in Hp. rewrite length_app in Hp.
      rewrite length_skipn. destruct (fst p); [congruence | cbn in Hp; lia].
  - unfold retM; cbn [fst snd]. split; [exact Hp|].
    apply Permutation_length in Hp. rewrite length_app in Hp.
    destruct (fst p); [congruence | cbn in Hp; lia].
Qed.

Lemma timSortLoop_permutation (fuel : nat) :
  forall (minRunLength : nat) (pendingRuns : list (list A)) (minGallop : nat)
         (remaining : list A) (rng : Rng),
    List.length remaining <= fuel ->
    Permutation
      (List.concat (fst (fst (timSortLoop comparefn fuel minRunLength pendingRuns
                           minGallop remaining rng))))
      (List.concat pendingRuns ++ remaining).
Proof.
  induction fuel as [|fuel IH]; intros mrl runs mg remaining rng Hfuel;
    cbn [timSortLoop].
  - destruct remaining; [|cbn in Hfuel; lia].
    unfold retM; cbn [fst]. now rewrite app_nil_r.
  - destruct remaining as [|x tl] eqn:Erem.
    { unfold retM; cbn [fst]. now rewrite app_nil_r. }
    rewrite <- Erem in *. assert (Hne : remaining <> []) by (rewrite Erem; discriminate).
    clear Erem x tl. unfold bindM at 1.
    destruct (CountAndMakeRun_permutation remaining rng) as [Hp Hrun].
    destruct (CountAndMakeRun comparefn remaining rng) as [p rng1].
    cbn [fst] in Hp, Hrun. specialize (Hrun Hne).
    unfold bindM at 1.
    set (makeRun := if List.length (fst p) <? mrl then _ else _).
    pose proof (@forcedRun_spec mrl remaining p rng1 Hp Hrun) as Hq. cbn zeta in Hq.
    fold makeRun in Hq.
    destruct (makeRun rng1) as [q rng2]. cbn [fst snd] in Hq. destruct Hq as [Hq Hlen].
    unfold bindM.
    destruct (MergeCollapse_permutation (S (List.length runs)) (fst q :: runs) mg rng2)
      as [Hc _].
    destruct (MergeCollapse comparefn (S (List.length runs)) (fst q :: runs) mg rng2)
      as [c rng3].
    cbn [fst] in Hc. rewrite IH by lia. rewrite Hc. cbn [List.concat].
    rewrite <- Hq. perm_ac.
Qed.

Lemma concat_rev_permutation (runs : list (list A)) :
  Permutation (List.concat (rev runs)) (List.concat runs).
Proof.
  induction runs as [|run runs IH]; [reflexivity|].
  cbn [rev List.concat]. rewrite concat_app. cbn [List.concat]. rewrite IH. perm_ac.
Qed.

Lemma Array_sort_permutation (array : list A) (rng : Rng) :
  Permutation (fst (Array_sort comparefn array rng)) array.
Proof.
  unfold Array_sort, ArrayTimSortImpl.
  destruct (List.length array <? 2); [reflexivity|].
  unfold bindM.
  pose proof (@timSortLoop_permutation (List.length array)
                (ComputeMinRunLength (List.length array)) [] kMinGallopWins array rng
                (le_n _)) as Hs.
  destruct (timSortLoop comparefn (List.length array)
              (ComputeMinRunLength (List.length array)) [] kMinGallopWins array rng)
    as [s rng1].
  cbn [fst List.concat app] in Hs.
  pose proof (MergeForceCollapse_permutation (List.length (fst s)) (fst s) (snd s) rng1) as Hc.
  destruct (MergeForceCollapse comparefn (List.length (fst s)) (fst s) (snd s) rng1)
    as [c rng2].
  unfold retM; cbn [fst] in *.
  now rewrite concat_rev_permutation, Hc.
Qed.

(** The loops are written with a bound on their number of iterations; the
    bound each call passes is never reached: above the measure of the loop
    the result does not depend on the bound. *)

Lemma minRunLengthLoop_fuel (fuel : nat) :
  forall (fuel' n r : nat),
    n <= fuel -> n <= fuel' ->
    minRunLengthLoop fuel n r = minRunLengthLoop fuel' n r.
Proof.
  induction fuel as [|fuel IH]; intros fuel' n r H H'.
  - assert (n = 0) by lia. subst n. destruct fuel'; reflexivity.
  - destruct fuel' as [|fuel'].
    + assert (n = 0) by lia. subst n. reflexivity.
    + cbn [minRunLengthLoop]. destruct (64 <=? n) eqn:E; [|reflexivity].
      apply Nat.leb_le in E.
      assert (Nat.shiftr n 1 < n).
      { rewrite Nat.shiftr_div_pow2. cbn [Nat.pow Nat.mul].
        apply Nat.div_lt; lia. }
      apply IH; lia.
Qed.

Lemma shiftr_1_lt (n : nat) : 0 < n -> Nat.shiftr n 1 < n.
Proof.
  intro H. rewrite Nat.shiftr_div_pow2. cbn [Nat.pow Nat.mul].
  apply Nat.div_lt; lia.
Qed.

Lemma insertionPoint_fuel (run : list A) (pivot : A) (fuel : nat) :
  forall (fuel' left right : nat) (rng : Rng),
    right - left <= fuel -> right - left <= fuel' ->
    insertionPoint comparefn fuel run pivot left right rng
    = insertionPoint comparefn fuel' run pivot left right rng.
Proof.
  induction fuel as [|fuel IH]; intros fuel' left right rng H H'.
  - destruct fuel' as [|fuel']; [reflexivity|]. cbn [insertionPoint].
    destruct (left <? right) eqn:E; [apply Nat.ltb_lt in E; lia | reflexivity].
  - destruct fuel' as [|fuel']; cbn [insertionPoint];
      destruct (left <? right) eqn:E; try reflexivity;
      apply Nat.ltb_lt in E; [lia|].
    unfold bindM. destruct (comparefn pivot _ rng) as [order rng1].
    pose proof (@shiftr_1_lt (right - left) ltac:(lia)).
    destruct (isNegative order); apply IH; lia.
Qed.

Lemma gallopOffsets_fuel (stop : nat -> Rand bool) (maxOfs : nat) (fuel : nat) :
  forall (fuel' lastOfs offset : nat) (rng : Rng),
    maxOfs - offset <= fuel -> maxOfs - offset <= fuel' ->
    gallopOffsets fuel stop maxOfs lastOfs offset rng
    = gallopOffsets fuel' stop maxOfs lastOfs offset rng.
Proof.
  induction fuel as [|fuel IH]; intros fuel' lastOfs offset rng H H'.
  - destruct fuel' as [|fuel']; [reflexivity|]. cbn [gallopOffsets].
    destruct (offset <? maxOfs) eqn:E; [apply Nat.ltb_lt in E; lia | reflexivity].
  - destruct fuel' as [|fuel']; cbn [gallopOffsets];
      destruct (offset <? maxOfs) eqn:E; try reflexivity;
      apply Nat.ltb_lt in E; [lia|].
    unfold bindM. destruct (stop offset rng) as [b rng1].
    destruct b; [reflexivity|].
    rewrite Nat.shiftl_mul_pow2. cbn [Nat.pow Nat.mul]. apply IH; lia.
Qed.

Lemma gallopLeftSearch_fuel (array : list A) (key : A) (fuel : nat) :
  forall (fuel' lastOfs offset : nat) (rng : Rng),
    offset - lastOfs <= fuel -> offset - lastOfs <= fuel' ->
    gallopLeftSearch comparefn fuel array key lastOfs offset rng
    = gallopLeftSearch comparefn fuel' array key lastOfs offset rng.
Proof.
  induction fuel as [|fuel IH]; intros fuel' lastOfs offset rng H H'.
  - destruct fuel' as [|fuel']; [reflexivity|]. cbn [gallopLeftSearch].
    destruct (lastOfs <? offset) eqn:E; [apply Nat.ltb_lt in E; lia | reflexivity].
  - destruct fuel' as [|fuel']; cbn [gallopLeftSearch];
      destruct (lastOfs <? offset) eqn:E; try reflexivity;
      apply Nat.ltb_lt in E; [lia|].
    unfold bindM. destruct (comparefn _ key rng) as [order rng1].
    pose proof (@shiftr_1_lt (offset - lastOfs) ltac:(lia)).
    destruct (isNegative order); apply IH; lia.
Qed.

Lemma gallopRightSearch_fuel (array : list A) (key : A) (fuel : nat) :
  forall (fuel' lastOfs offset : nat) (rng : Rng),
    offset - lastOfs <= fuel -> offset - lastOfs <= fuel' ->
    gallopRightSearch comparefn fuel array key lastOfs offset rng
    = gallopRightSearch comparefn fuel' array key lastOfs offset rng.
Proof.
  induction fuel as [|fuel IH]; intros fuel' lastOfs offset rng H H'.
  - destruct fuel' as [|fuel']; [reflexivity|]. cbn [gallopRightSearch].
    destruct (lastOfs <? offset) eqn:E; [apply Nat.ltb_lt in E; lia | reflexivity].
  - destruct fuel' as [|fuel']; cbn [gallopRightSearch];
      destruct (lastOfs <? offset) eqn:E; try reflexivity;
      apply Nat.ltb_lt in E; [lia|].
    unfold bindM. destruct (comparefn key _ rng) as [order rng1].
    pose proof (@shiftr_1_lt (offset - lastOfs) ltac:(lia)).
    destruct (isNegative order); apply IH; lia.
Qed.

Lemma mergeLowLoop_fuel (fuel : nat) :
  forall (fuel' : nat) (mode : MergeMode) (minGallop : nat) (destRev : list A)
         (a0 a1 : A) (Ar : list A) (b0 : A) (Br : list A) (rng : Rng),
    List.length Ar + List.length Br < fuel ->
    List.length Ar + List.length Br < fuel' ->
    mergeLowLoop comparefn fuel mode minGallop destRev a0 a1 Ar b0 Br rng
    = mergeLowLoop comparefn fuel' mode minGallop destRev a0 a1 Ar b0 Br rng.
Proof.
  induction fuel as [|fuel IH];
    intros fuel' mode mg destRev a0 a1 Ar b0 Br rng H H'; [lia|].
  destruct fuel' as [|fuel']; [lia|]. cbn [mergeLowLoop].
  destruct mode as [nofWinsA nofWinsB|]; unfold bindM.
  - destruct (comparefn b0 a0 rng) as [order rng1].
    destruct (isNegative order).
    + destruct Br as [|b1 Br']; [reflexivity|]. cbn [List.length] in *.
      destruct (mg <=? nofWinsB + 1); apply IH; lia.
    + destruct Ar as [|a2 Ar']; [reflexivity|]. cbn [List.length] in *.
      destruct (mg <=? nofWinsA + 1); apply IH; lia.
  - destruct (GallopRight comparefn (a0 :: a1 :: Ar) b0 0 rng) as [nofWinsA rng1].
    pose proof (length_skipn nofWinsA (a0 :: a1 :: Ar)) as HA.
    destruct (skipn nofWinsA (a0 :: a1 :: Ar)) as [|a0' [|a1' Ar']];
      [reflexivity | reflexivity |].
    destruct Br as [|b1 Br']; [reflexivity|].
    destruct (GallopLeft comparefn (b1 :: Br') a0' 0 rng1) as [nofWinsB rng2].
    pose proof (length_skipn nofWinsB (b1 :: Br')) as HB.
    destruct (skipn nofWinsB (b1 :: Br')) as [|b0' Br'']; [reflexivity|].
    destruct Ar' as [|a2' Ar'']; [reflexivity|]. cbn [List.length] in *.
    destruct (_ || _); apply IH; lia.
Qed.

Lemma mergeHighLoop_fuel (fuel : nat) :
  forall (fuel' : nat) (mode : MergeMode) (minGallop : nat) (tail : list A)
         (a0 : A) (Ar : list A) (b0 b1 : A) (Br : list A) (rng : Rng),
    List.length Ar + List.length Br < fuel ->
    List.length Ar + List.length Br < fuel' ->
    mergeHighLoop comparefn fuel mode minGallop tail a0 Ar b0 b1 Br rng
    = mergeHighLoop comparefn fuel' mode minGallop tail a0 Ar b0 b1 Br rng.
Proof.
  induction fuel as [|fuel IH];
    intros fuel' mode mg tail a0 Ar b0 b1 Br rng H H'; [lia|].
  destruct fuel' as [|fuel']; [lia|]. cbn [mergeHighLoop].
  destruct mode as [nofWinsA nofWinsB|]; unfold bindM.
  - destruct (comparefn b0 a0 rng) as [order rng1].
    destruct (isNegative order).
    + destruct Ar as [|a1 Ar']; [reflexivity|]. cbn [List.length] in *.
      destruct (mg <=? nofWinsA + 1); apply IH; lia.
    + destruct Br as [|b2 Br']; [reflexivity|]. cbn [List.length] in *.
      destruct (mg <=? nofWinsB + 1); apply IH; lia.
  - destruct (GallopRight comparefn (rev (a0 :: Ar)) b0 (List.length (a0 :: Ar) - 1) rng)
      as [k rng1].
    set (nofWinsA := List.length (a0 :: Ar) - k). clearbody nofWinsA.
    pose proof (length_skipn nofWinsA (a0 :: Ar)) as HA.
    destruct (skipn nofWinsA (a0 :: Ar)) as [|a0' Ar']; [reflexivity|].
    destruct Br as [|b2 Br']; [reflexivity|].
    destruct (GallopLeft comparefn (rev (b1 :: b2 :: Br')) a0'
                (List.length (b1 :: b2 :: Br') - 1) rng1) as [k' rng2].
    set (nofWinsB := List.length (b1 :: b2 :: Br') - k'). clearbody nofWinsB.
    pose proof (length_skipn nofWinsB (b1 :: b2 :: Br')) as HB.
    destruct (skipn nofWinsB (b1 :: b2 :: Br')) as [|b0' [|b1' Br'']];
      [reflexivity | reflexivity |].
    destruct Ar' as [|a1' Ar'']; [reflexivity|]. cbn [List.length] in *.
    destruct (_ || _); apply IH; lia.
Qed.

Lemma MergeCollapse_fuel (fuel : nat) :
  forall (fuel' : nat) (pendingRuns : list (list A)) (minGallop : nat) (rng : Rng),
    List.length pendingRuns <= fuel -> List.length pendingRuns <= fuel' ->
    MergeCollapse comparefn fuel pendingRuns minGallop rng
    = MergeCollapse comparefn fuel' pendingRuns minGallop rng.
Proof.
  induction fuel as [|fuel IH]; intros fuel' runs mg rng H H'.
  - destruct runs; [|cbn in H; lia]. destruct fuel'; reflexivity.
  - destruct fuel' as [|fuel'].
    { destruct runs; [|cbn in H'; lia]. reflexivity. }
    cbn [MergeCollapse].
    destruct runs as [|runN1 [|runN below]]; [reflexivity | reflexivity |].
    cbn [List.length] in *.
    assert (mergeTop :
              bindM (MergeAt comparefn runN runN1 mg)
                (fun m => MergeCollapse comparefn fuel (fst m :: below) (snd m)) rng
              = bindM (MergeAt comparefn runN runN1 mg)
                  (fun m => MergeCollapse comparefn fuel' (fst m :: below) (snd m)) rng).
    { unfold bindM. destruct (MergeAt comparefn runN runN1 mg rng) as [m rng1].
      apply IH; cbn [List.length]; lia. }
    destruct below as [|runNM below'].
    + destruct (List.length runN <=? List.length runN1); [exact mergeTop | reflexivity].
    + destruct (_ || _).
      * destruct (List.length runNM <? List.length runN1); [|exact mergeTop].
        unfold bindM. destruct (MergeAt comparefn runNM runN mg rng) as [m rng1].
        apply IH; cbn [List.length] in *; lia.
      * destruct (List.length runN <=? List.length runN1); [exact mergeTop | reflexivity].
Qed.

Lemma MergeForceCollapse_fuel (fuel : nat) :
  forall (fuel' : nat) (pendingRuns : list (list A)) (minGallop : nat) (rng : Rng),
    List.length pendingRuns <= fuel -> List.length pendingRuns <= fuel' ->
    MergeForceCollapse comparefn fuel pendingRuns minGallop rng
    = MergeForceCollapse comparefn fuel' pendingRuns minGallop rng.
Proof.
  induction fuel as [|fuel IH]; intros fuel' runs mg rng H H'.
  - destruct runs; [|cbn in H; lia]. destruct fuel'; reflexivity.
  - destruct fuel' as [|fuel'].
    { destruct runs; [|cbn in H'; lia]. reflexivity. }
    cbn [MergeForceCollapse].
    destruct runs as [|runN1 [|runN below]]; [reflexivity | reflexivity |].
    cbn [List.length] in *.
    assert (mergeTop :
              bindM (MergeAt comparefn runN runN1 mg)
                (fun m => MergeForceCollapse comparefn fuel (fst m :: below) (snd m)) rng
              = bindM (MergeAt comparefn runN runN1 mg)
                  (fun m => MergeForceCollapse comparefn fuel' (fst m :: below) (snd m))
                  rng).
    { unfold bindM. destruct (MergeAt comparefn runN runN1 mg rng) as [m rng1].
      apply IH; cbn [List.length]; lia. }
    destruct below as [|runNM below']; [exact mergeTop|].
    destruct (List.length runNM <? List.length runN1); [|exact mergeTop].
    unfold bindM. destruct (MergeAt comparefn runNM runN mg rng) as [m rng1].
    apply IH; cbn [List.length] in *; lia.
Qed.

Lemma timSortLoop_fuel (fuel : nat) :
  forall (fuel' minRunLength : nat) (pendingRuns : list (list A)) (minGallop : nat)
         (remaining : list A) (rng : Rng),
    List.length remaining <= fuel -> List.length remaining <= fuel' ->
    timSortLoop comparefn fuel minRunLength pendingRuns minGallop remaining rng
    = timSortLoop comparefn fuel' minRunLength pendingRuns minGallop remaining rng.
Proof.
  induction fuel as [|fuel IH]; intros fuel' mrl runs mg remaining rng H H'.
  - destruct remaining; [|cbn in H; lia]. destruct fuel'; reflexivity.
  - destruct fuel' as [|fuel'].
    { destruct remaining; [|cbn in H'; lia]. reflexivity. }
    cbn [timSortLoop]. destruct remaining as [|x tl] eqn:Erem; [reflexivity|].
    rewrite <- Erem in *. assert (Hne : remaining <> []) by (rewrite Erem; discriminate).
    clear Erem x tl.
    apply bindM_ext. intros p rng1 Ep.
    destruct (CountAndMakeRun_permutation remaining rng) as [Hp Hrun].
    rewrite Ep in Hp, Hrun. cbn [fst] in Hp, Hrun. specialize (Hrun Hne).
    apply bindM_ext. intros q rng2 Eq.
    pose proof (@forcedRun_spec mrl remaining p rng1 Hp Hrun) as Hq. cbn zeta in Hq.
    rewrite Eq in Hq. cbn [fst snd] in Hq. destruct Hq as [_ Hlen].
    apply bindM_ext. intros c rng3 _.
    apply IH; lia.
Qed.

(** [MergeForceCollapse] ends with one run: the sorted array. *)
Lemma MergeForceCollapse_one_run (fuel : nat) :
  forall (pendingRuns : list (list A)) (minGallop : nat) (rng : Rng),
    List.length pendingRuns <= fuel ->
    List.length (fst (fst (MergeForceCollapse comparefn fuel pendingRuns minGallop rng)))
    <= 1.
Proof.
  induction fuel as [|fuel IH]; intros runs mg rng H.
  - destruct runs; [cbn; lia | cbn in H; lia].
  - cbn [MergeForceCollapse].
    destruct runs as [|runN1 [|runN below]]; [cbn; lia | cbn; lia |].
    cbn [List.length] in H.
    destruct below as [|runNM below'].
    + unfold bindM. destruct (MergeAt comparefn runN runN1 mg rng) as [m rng1].
      apply IH. cbn; lia.
    + destruct (List.length runNM <? List.length runN1); unfold bindM.
      * destruct (MergeAt comparefn runNM runN mg rng) as [m rng1].
        apply IH. cbn [List.length] in *; lia.
      * destruct (MergeAt comparefn runN runN1 mg rng) as [m rng1].
        apply IH. cbn [List.length] in *; lia.
Qed.
End ArraySortFacts.

Lemma shuffleArray_permutation {T : Type} (array : list T) (r : Rng) :
  Permutation (fst (shuffleArray array r)) array.
Proof. apply Array_sort_permutation. Qed.

Lemma mapM_shuffle_answers (qs : list QuizQuestion) (r : Rng) :
  Forall2 sameQuestionUpToOrder
    (fst (mapM (fun q =>
                  a <~ shuffleArray (answers q) ;;
                  retM {| question := question q; answers := a; source := source q |})
               qs r))
    qs.
Proof.
  revert r. induction qs as [|q qs IH]; intros r; simpl.
  - constructor.
  - unfold bindM at 1.
    pose proof (shuffleArray_permutation (answers q) r) as Hq.
    unfold bindM at 1.
    destruct (shuffleArray (answers q) r) as [a r1]. simpl in Hq.
    unfold retM at 1. unfold bindM.
    specialize (IH r1).
    destruct (mapM _ qs r1) as [ys r2]. simpl in *.
    constructor; [|exact IH].
    unfold sameQuestionUpToOrder. simpl. auto.
Qed.

Lemma randomize_spec (questions : list QuizQuestion) (r : Rng) :
  exists shuffled,
    Permutation shuffled questions /\
    Forall2 sameQuestionUpToOrder (fst (randomize questions r)) shuffled.
Proof.
  unfold randomize, bindM.
  pose proof (shuffleArray_permutation questions r) as Hperm.
  destruct (shuffleArray questions r) as [shuffled r1]. simpl in Hperm.
  exists shuffled. split; [exact Hperm|]. apply mapM_shuffle_answers.
Qed.

Lemma handleGenerateQuiz_success (host : Host) (rng : Rng) (s : Session)
    (fd : FileData) (questions : list QuizQuestion) :
  fileData s = Some fd ->
  lengthZ (selectedTopics s) <> 0 ->
  generateQuizQuestions host (base64 fd) (mimeType fd) (selectedTopics s) (questionCount s)
  = Ok questions ->
  settle (handleGenerateQuiz host rng s) s
  = setAppState TAKING_QUIZ
      (setUserAnswers []
        (setCurrentQuestionIndex 0
          (setQuizData (fst (randomize questions rng))
            (setLoadingMessage "Generating your custom quiz... This may take a moment."
              (setAppState GENERATING (setError None s)))))).
Proof.
  intros Hfd Hsel Hgen. unfold handleGenerateQuiz. rewrite Hfd.
  destruct (lengthZ (selectedTopics s) =? 0) eqn:Hz; [apply Z.eqb_eq in Hz; contradiction|].
  rewrite Hgen. reflexivity.
Qed.

(** C3. The randomisation applied to the generated questions before they are
    shown only reorders: [shuffleArray] returns a permutation of its
    argument; the shown list is, question by question, a permutation of the
    generated list in which each question keeps its stem and source and has
    a permutation of its answers (so as many answers as before, four for
    four); and this shown list is what a successful [handleGenerateQuiz]
    installs as quiz data. *)
Theorem randomize_permutation (questions : list QuizQuestion) (rng : Rng) :
  (forall (T : Type) (array : list T) (r : Rng),
     Permutation (fst (shuffleArray array r)) array) /\
  (exists shuffled,
     Permutation shuffled questions /\
     Forall2 (fun shown original =>
                question shown = question original /\
                source shown = source original /\
                Permutation (answers shown) (answers original) /\
                (forall a, In a (answers shown) <-> In a (answers original)) /\
                List.length (answers shown) = List.length (answers original))
             (fst (randomize questions rng)) shuffled) /\
  List.length (fst (randomize questions rng)) = List.length questions /\
  (forall host s fd,
     fileData s = Some fd ->
     lengthZ (selectedTopics s) <> 0 ->
     generateQuizQuestions host (base64 fd) (mimeType fd) (selectedTopics s)
       (questionCount s) = Ok questions ->
     quizData (settle (handleGenerateQuiz host rng s) s) = fst (randomize questions rng)).
Proof.
  destruct (randomize_spec questions rng) as (shuffled & Hperm & Hall).
  split; [intros; apply shuffleArray_permutation|].
  split; [|split].
  - exists shuffled. split; [exact Hperm|].
    eapply Forall2_impl; [|exact Hall].
    intros shown original (Hq & Hs & Ha).
    repeat split; auto.
    + now apply Permutation_in.
    + apply Permutation_in. now apply Permutation_sym.
    + now apply Permutation_length.
  - rewrite (Forall2_length Hall). now apply Permutation_length.
  - intros host s fd Hfd Hsel Hgen.
    rewrite (handleGenerateQuiz_success host rng s Hfd Hsel Hgen). reflexivity.
Qed.

Lemma randomize_permutation_witness :
  quizData (settle (handleGenerateQuiz Samples.host Samples.rng Samples.ready) Samples.ready)
  = fst (randomize Samples.threeGood Samples.rng) /\
  map question Samples.threeGood = ["q1"; "q2"; "q3"] /\
  map question (fst (randomize Samples.threeGood Samples.rng)) = ["q2"; "q3"; "q1"] /\
  map (fun q => map text (answers q)) (fst (randomize Samples.threeGood Samples.rng))
  = [["b"; "d"; "c"; "a"]; ["b"; "d"; "c"; "a"]; ["b"; "d"; "c"; "a"]] /\
  pos (snd (randomize Samples.threeGood Samples.rng)) = 22%nat.
Proof.
  destruct (randomize_permutation Samples.threeGood Samples.rng) as (_ & _ & _ & Hinstall).
  split.
  - apply (Hinstall Samples.host Samples.ready
             {| base64 := "JVBERi0="; mimeType := "application/pdf" |}).
    + reflexivity.
    + vm_compute. discriminate.
    + reflexivity.
  - repeat split; vm_compute; reflexivity.
Defined.

(** ** Start over *)

(** C4 (as amended). Start over puts the phase back to Setup and clears the
    file, the file data, the topics, the selected topics, the quiz data, the
    user answers and the error; the question count, the current question
    index and the loading message are left as they are, so the result is
    the initial state exactly when those three already have their initial
    values. *)
Theorem handleStartOver_resets (s : Session) :
  handleStartOver s
  = {| appState := SETUP;
       file := None;
       fileData := None;
       topics := [];
       selectedTopics := [];
       questionCount := questionCount s;
       quizData := [];
       currentQuestionIndex := currentQuestionIndex s;
       userAnswers := [];
       error := None;
       loadingMessage := loadingMessage s |} /\
  (handleStartOver s = initialSession <->
   questionCount s = 10 /\ currentQuestionIndex s = 0 /\ loadingMessage s = "").
Proof.
  split; [reflexivity|].
  destruct s as [st f fdata ts sel n qd cur uas err msg].
  unfold handleStartOver, initialSession. cbn. split.
  - intros H. injection H as Hq Hc Hl. auto.
  - intros (Hq & Hc & Hl). subst. reflexivity.
Qed.

(** C4, as stated, fails: after a three-question quiz taken with the slider
    at 20, start over from the review page keeps the question count 20 and
    the question index 2, so the session is not the initial one. *)
Lemma handleStartOver_counterexample :
  exists s,
    play Samples.fullQuiz initialSession = Some s /\
    appState s = REVIEW /\
    enabled StartOver s = true /\
    questionCount (handleStartOver s) = 20 /\
    currentQuestionIndex (handleStartOver s) = 2 /\
    questionCount initialSession = 10 /\
    currentQuestionIndex initialSession = 0 /\
    handleStartOver s <> initialSession.
Proof.
  eexists. split; [vm_compute; reflexivity|].
  repeat split; try reflexivity.
  intros H. apply (f_equal questionCount) in H. vm_compute in H. discriminate.
Qed.

(** ** Selecting an answer *)

Lemma find_questionIndex_In (q : Z) (l : list UserAnswer) :
  (exists a, find (fun a => questionIndex a =? q) l = Some a) <->
  In q (map questionIndex l).
Proof.
  induction l as [|x l IH]; simpl.
  - split; [intros [a H]; discriminate | intros []].
  - destruct (questionIndex x =? q) eqn:Hx.
    + apply Z.eqb_eq in Hx. split; eauto.
    + apply Z.eqb_neq in Hx. rewrite IH. split; [auto|]. intros [H | H]; [contradiction | exact H].
Qed.

Lemma map_update_keys (q a : Z) (l : list UserAnswer) :
  map questionIndex
    (map (fun x => if questionIndex x =? q
                   then {| questionIndex := questionIndex x; answerIndex := a |}
                   else x) l)
  = map questionIndex l.
Proof.
  rewrite map_map. apply map_ext. intros x.
  destruct (questionIndex x =? q); reflexivity.
Qed.

(** The question indices held after a selection: unchanged if the question
    was already answered, extended at the end otherwise. *)
Lemma selectAnswer_keys (q a : Z) (prev : list UserAnswer) :
  map questionIndex (selectAnswer q a prev)
  = if existsb (Z.eqb q) (map questionIndex prev)
    then map questionIndex prev
    else (map questionIndex prev ++ [q])%list.
Proof.
  unfold selectAnswer.
  destruct (find (fun x => questionIndex x =? q) prev) as [x|] eqn:Hf.
  - assert (Hin : In q (map questionIndex prev)) by (apply find_questionIndex_In; eauto).
    assert (He : existsb (Z.eqb q) (map questionIndex prev) = true).
    { apply existsb_exists. exists q. split; [exact Hin | apply Z.eqb_refl]. }
    rewrite He. apply map_update_keys.
  - assert (He : existsb (Z.eqb q) (map questionIndex prev) = false).
    { destruct (existsb (Z.eqb q) (map questionIndex prev)) eqn:He; [|reflexivity].
      apply existsb_exists in He. destruct He as (k & Hin & Hk).
      apply Z.eqb_eq in Hk. subst k.
      apply find_questionIndex_In in Hin. destruct Hin as [y Hy]. congruence. }
    rewrite He, map_app. reflexivity.
Qed.

Lemma selectAnswer_NoDup (q a : Z) (prev : list UserAnswer) :
  NoDup (map questionIndex prev) ->
  NoDup (map questionIndex (selectAnswer q a prev)).
Proof.
  intros Hnd. rewrite selectAnswer_keys.
  destruct (existsb (Z.eqb q) (map questionIndex prev)) eqn:He; [exact Hnd|].
  apply NoDup_app; [exact Hnd | repeat constructor; intros [] |].
  intros k Hin [Hk | []]. subst k.
  assert (existsb (Z.eqb q) (map questionIndex prev) = true); [|congruence].
  apply existsb_exists. exists q. split; [exact Hin | apply Z.eqb_refl].
Qed.

Lemma selectAnswer_found (q a : Z) (prev : list UserAnswer) :
  In q (map questionIndex (selectAnswer q a prev)).
Proof.
  rewrite selectAnswer_keys.
  destruct (existsb (Z.eqb q) (map questionIndex prev)) eqn:He.
  - apply existsb_exists in He. destruct He as (k & Hin & Hk).
    apply Z.eqb_eq in Hk. now subst k.
  - apply in_or_app. right. now left.
Qed.

Lemma update_absent (q a : Z) (l : list UserAnswer) :
  find (fun x => questionIndex x =? q) l = None ->
  map (fun x => if questionIndex x =? q
                then {| questionIndex := questionIndex x; answerIndex := a |}
                else x) l
  = l.
Proof.
  induction l as [|x l IH]; simpl; [reflexivity|].
  destruct (questionIndex x =? q) eqn:Hx; [discriminate|].
  intros Hf. now rewrite IH.
Qed.

Lemma update_twice (q a : Z) (l : list UserAnswer) :
  let upd := fun x => if questionIndex x =? q
                      then {| questionIndex := questionIndex x; answerIndex := a |}
                      else x in
  map upd (map upd l) = map upd l.
Proof.
  intros upd. rewrite map_map. apply map_ext. intros x. unfold upd.
  destruct (questionIndex x =? q) eqn:Hx; simpl; rewrite Hx; reflexivity.
Qed.

Lemma selectAnswer_idempotent (q a : Z) (prev : list UserAnswer) :
  selectAnswer q a (selectAnswer q a prev) = selectAnswer q a prev.
Proof.
  pose proof (selectAnswer_found q a prev) as Hin.
  apply find_questionIndex_In in Hin. destruct Hin as [x Hx].
  unfold selectAnswer at 1. rewrite Hx.
  unfold selectAnswer.
  destruct (find (fun y => questionIndex y =? q) prev) eqn:Hf.
  - apply update_twice.
  - rewrite map_app, (@update_absent q a prev Hf). simpl. rewrite Z.eqb_refl. reflexivity.
Qed.

Lemma selectAnswer_length (q a : Z) (prev : list UserAnswer) :
  List.length (selectAnswer q a prev)
  = if existsb (Z.eqb q) (map questionIndex prev)
    then List.length prev
    else S (List.length prev).
Proof.
  rewrite <- (length_map questionIndex (selectAnswer q a prev)), selectAnswer_keys.
  destruct (existsb (Z.eqb q) (map questionIndex prev)).
  - apply length_map.
  - rewrite length_app, length_map. simpl. lia.
Qed.

Lemma selectAnswer_inBounds (qd : list QuizQuestion) (q a : Z) (prev : list UserAnswer) :
  Forall (inBounds qd) prev ->
  inBounds qd {| questionIndex := q; answerIndex := a |} ->
  Forall (inBounds qd) (selectAnswer q a prev).
Proof.
  intros Hall Hnew. unfold selectAnswer.
  destruct (find (fun y => questionIndex y =? q) prev).
  - rewrite Forall_map. eapply Forall_impl; [|exact Hall].
    intros x Hx. destruct (questionIndex x =? q) eqn:Hq; [|exact Hx].
    apply Z.eqb_eq in Hq. rewrite Hq. exact Hnew.
  - apply Forall_app. split; [exact Hall|]. constructor; [exact Hnew | constructor].
Qed.

(** ** What the handlers leave untouched *)

Lemma handleFileChange_keeps_quiz (host : Host) (selectedFile : option File)
    (s s' : Session) :
  In s' (handleFileChange host selectedFile s) ->
  quizData s' = quizData s /\ userAnswers s' = userAnswers s.
Proof.
  unfold handleFileChange.
  destruct selectedFile as [f|]; [|intros []].
  destruct (fileToBase64 f) as [b64|err].
  - destruct (extractTopicsFromGuide host b64 (file_type f)) as [ts|err].
    + destruct (lengthZ ts =? 0); simpl;
        intros [H | [H | [H | []]]]; subst s'; split; reflexivity.
    + simpl. intros [H | [H | [H | []]]]; subst s'; split; reflexivity.
  - simpl. intros [H | [H | []]]; subst s'; split; reflexivity.
Qed.

Lemma handleGenerateQuiz_trace (host : Host) (rng : Rng) (s s' : Session) :
  In s' (handleGenerateQuiz host rng s) ->
  (quizData s' = quizData s /\ userAnswers s' = userAnswers s) \/
  (userAnswers s' = [] /\ currentQuestionIndex s' = 0 /\ appState s' = TAKING_QUIZ).
Proof.
  unfold handleGenerateQuiz.
  destruct (fileData s) as [fd|].
  - destruct (lengthZ (selectedTopics s) =? 0).
    + simpl. intros [H | []]; subst s'. left. split; reflexivity.
    + destruct (generateQuizQuestions host (base64 fd) (mimeType fd)
                  (selectedTopics s) (questionCount s)) as [questions|err]; simpl;
        intros [H | [H | []]]; subst s'; auto.
  - simpl. intros [H | []]; subst s'. left. split; reflexivity.
Qed.

(** ** The invariant of reachable sessions *)

(** At most one stored answer per question, each pointing at an answer of a
    question of the quiz. *)
Lemma reachable_invariant (s : Session) :
  reachable s ->
  NoDup (map questionIndex (userAnswers s)) /\
  Forall (inBounds (quizData s)) (userAnswers s).
Proof.
  induction 1 as [|s ev s' Hreach [IHnd IHb] Hen Hin].
  - simpl. split; constructor.
  - destruct ev as [host f | topic | value | host rng | index | |]; simpl in Hin.
    + apply handleFileChange_keeps_quiz in Hin. destruct Hin as [Hq Hu].
      rewrite Hq, Hu. auto.
    + destruct Hin as [<- | []]. auto.
    + destruct Hin as [<- | []]. auto.
    + apply handleGenerateQuiz_trace in Hin.
      destruct Hin as [[Hq Hu] | (Hu & _)].
      * rewrite Hq, Hu. auto.
      * rewrite Hu. split; constructor.
    + destruct Hin as [<- | []].
      unfold enabled in Hen. destruct (appState s); try discriminate.
      destruct (nthZ (quizData s) (currentQuestionIndex s)) as [q|] eqn:Hq;
        [|discriminate].
      apply andb_prop in Hen. destruct Hen as [H0 Hlt].
      apply Z.leb_le in H0. apply Z.ltb_lt in Hlt.
      unfold handleAnswerSelect. simpl. split.
      * now apply selectAnswer_NoDup.
      * apply selectAnswer_inBounds; [exact IHb|].
        split; simpl; [eapply nthZ_Some_bounds; eauto|].
        exists q. auto.
    + destruct Hin as [<- | []].
      unfold handleNextQuestion.
      destruct (currentQuestionIndex s <? lengthZ (quizData s) - 1); auto.
    + destruct Hin as [<- | []]. simpl. split; constructor.
Qed.

Lemma bounded_keys_length (n : nat) (keys : list Z) :
  NoDup keys ->
  Forall (fun k => 0 <= k < Z.of_nat n) keys ->
  (List.length keys <= n)%nat.
Proof.
  intros Hnd Hall.
  assert (Hlen : List.length (map Z.of_nat (seq 0 n)) = n)
    by (rewrite length_map; apply length_seq).
  rewrite <- Hlen.
  apply NoDup_incl_length; [exact Hnd|].
  intros k Hk. rewrite Forall_forall in Hall. specialize (Hall k Hk).
  apply in_map_iff. exists (Z.to_nat k). split; [lia|].
  apply in_seq. lia.
Qed.

Lemma score_fold (qd : list QuizQuestion) (uas : list UserAnswer) (k : Z) :
  Forall (inBounds qd) uas ->
  fold_left (scoreStep qd) uas (Ok k)
  = Ok (k + lengthZ (filter (selectedIsCorrect qd) uas)).
Proof.
  intros Hall. revert k. induction Hall as [|ua uas Hua _ IH]; intros k; simpl.
  - unfold lengthZ. simpl. f_equal. lia.
  - destruct Hua as (_ & q & Hq & Ha).
    destruct (nthZ_in_bounds (answers q) Ha) as [a Hsel].
    unfold selectedIsCorrect at 1. rewrite Hq, Hsel.
    destruct (isCorrect a); rewrite IH; unfold lengthZ; simpl; f_equal; lia.
Qed.

Lemma score_throw_stays (qd : list QuizQuestion) (uas : list UserAnswer) (e : Thrown) :
  fold_left (scoreStep qd) uas (Throw e) = Throw e.
Proof. induction uas as [|ua uas IH]; simpl; auto. Qed.

Lemma score_fold_inv (qd : list QuizQuestion) (uas : list UserAnswer) (k r : Z) :
  fold_left (scoreStep qd) uas (Ok k) = Ok r ->
  r = k + lengthZ (filter (selectedIsCorrect qd) uas).
Proof.
  revert k. induction uas as [|ua uas IH]; intros k; simpl.
  - intros H. injection H as <-. unfold lengthZ. simpl. lia.
  - unfold selectedIsCorrect at 1.
    destruct (nthZ qd (questionIndex ua)) as [q|];
      [|rewrite score_throw_stays; discriminate].
    destruct (nthZ (answers q) (answerIndex ua)) as [a|];
      [|rewrite score_throw_stays; discriminate].
    intros H. apply IH in H.
    destruct (isCorrect a); unfold lengthZ in *; simpl; lia.
Qed.

Lemma settle_in_or_same (trace : list Session) (s : Session) :
  In (settle trace s) trace \/ (trace = [] /\ settle trace s = s).
Proof.
  unfold settle. destruct trace as [|t trace]; [right; auto|].
  left. revert t. induction trace as [|u trace IH]; intros t; simpl.
  - now left.
  - right. apply IH.
Qed.

Lemma play_reachable (evs : list Event) (s s' : Session) :
  reachable s -> play evs s = Some s' -> reachable s'.
Proof.
  revert s. induction evs as [|ev evs IH]; simpl; intros s Hr Hp.
  - injection Hp as <-. exact Hr.
  - destruct (enabled ev s) eqn:Hen; [|discriminate].
    apply (IH _) in Hp; [exact Hp|].
    destruct (settle_in_or_same (fire ev s) s) as [Hin | [_ Hsame]].
    + eapply reachable_fire; eauto.
    + now rewrite Hsame.
Qed.

Lemma find_app_first {A : Type} (p : A -> bool) (l l' : list A) :
  find p (l ++ l') = match find p l with Some x => Some x | None => find p l' end.
Proof.
  induction l as [|x l IH]; simpl; [reflexivity|]. destruct (p x); auto.
Qed.

Lemma find_updated (q q' a : Z) (l : list UserAnswer) :
  find (fun x => questionIndex x =? q')
    (map (fun x => if questionIndex x =? q
                   then {| questionIndex := questionIndex x; answerIndex := a |}
                   else x) l)
  = option_map (fun x => if questionIndex x =? q
                         then {| questionIndex := questionIndex x; answerIndex := a |}
                         else x)
      (find (fun x => questionIndex x =? q') l).
Proof.
  induction l as [|x l IH]; simpl; [reflexivity|].
  assert (Hkey : questionIndex (if questionIndex x =? q
                                then {| questionIndex := questionIndex x; answerIndex := a |}
                                else x)
                 = questionIndex x).
  { destruct (questionIndex x =? q); reflexivity. }
  rewrite Hkey. destruct (questionIndex x =? q'); [reflexivity | exact IH].
Qed.

Lemma find_selectAnswer_same (q a : Z) (prev : list UserAnswer) :
  option_map answerIndex (find (fun x => questionIndex x =? q) (selectAnswer q a prev))
  = Some a.
Proof.
  unfold selectAnswer.
  destruct (find (fun x => questionIndex x =? q) prev) as [y|] eqn:Hf.
  - rewrite find_updated, Hf. simpl.
    apply find_some in Hf. destruct Hf as [_ Hy]. now rewrite Hy.
  - rewrite find_app_first, Hf. simpl. now rewrite Z.eqb_refl.
Qed.

Lemma find_selectAnswer_other (q q' a : Z) (prev : list UserAnswer) :
  q' <> q ->
  find (fun x => questionIndex x =? q') (selectAnswer q a prev)
  = find (fun x => questionIndex x =? q') prev.
Proof.
  intros Hne. unfold selectAnswer.
  destruct (find (fun x => questionIndex x =? q) prev) as [y|] eqn:Hf.
  - rewrite find_updated.
    destruct (find (fun x => questionIndex x =? q') prev) as [z|] eqn:Hz; [|reflexivity].
    simpl. apply find_some in Hz. destruct Hz as [_ Hz]. apply Z.eqb_eq in Hz.
    destruct (questionIndex z =? q) eqn:Hq; [|reflexivity].
    apply Z.eqb_eq in Hq. congruence.
  - rewrite find_app_first.
    destruct (find (fun x => questionIndex x =? q') prev); [reflexivity|].
    simpl. destruct (q =? q') eqn:Hq; [|reflexivity].
    apply Z.eqb_eq in Hq. congruence.
Qed.

Lemma selectAnswer_overwrites (q a b : Z) (prev : list UserAnswer) :
  selectAnswer q b (selectAnswer q a prev) = selectAnswer q b prev.
Proof.
  pose proof (selectAnswer_found q a prev) as Hin.
  apply find_questionIndex_In in Hin. destruct Hin as [x Hx].
  unfold selectAnswer at 1. rewrite Hx. unfold selectAnswer.
  destruct (find (fun y => questionIndex y =? q) prev) eqn:Hf.
  - rewrite map_map. apply map_ext. intros y.
    destruct (questionIndex y =? q) eqn:Hy; simpl; rewrite Hy; reflexivity.
  - rewrite map_app, (@update_absent q b prev Hf). simpl. rewrite Z.eqb_refl. reflexivity.
Qed.

Lemma selectAnswer_stored (q a : Z) (prev : list UserAnswer) (x : UserAnswer) :
  In x (selectAnswer q a prev) ->
  questionIndex x = q ->
  x = {| questionIndex := q; answerIndex := a |}.
Proof.
  unfold selectAnswer.
  destruct (find (fun y => questionIndex y =? q) prev) as [y0|] eqn:Hf; intros Hin Hq.
  - apply in_map_iff in Hin. destruct Hin as (y & <- & Hy).
    destruct (questionIndex y =? q) eqn:Hyq.
    + apply Z.eqb_eq in Hyq. now rewrite Hyq.
    + apply Z.eqb_neq in Hyq. contradiction.
  - apply in_app_iff in Hin. destruct Hin as [Hin | [<- | []]]; [|reflexivity].
    apply (find_none _ _ Hf) in Hin. apply Z.eqb_neq in Hin. contradiction.
Qed.

Lemma selectAnswer_others (q a : Z) (prev : list UserAnswer) (x : UserAnswer) :
  questionIndex x <> q ->
  In x (selectAnswer q a prev) <-> In x prev.
Proof.
  intros Hne. unfold selectAnswer.
  destruct (find (fun y => questionIndex y =? q) prev) as [y0|] eqn:Hf.
  - rewrite in_map_iff. split.
    + intros (y & <- & Hy). destruct (questionIndex y =? q) eqn:Hyq; [|exact Hy].
      simpl in Hne. apply Z.eqb_eq in Hyq. contradiction.
    + intros Hin. exists x. split; [|exact Hin].
      apply Z.eqb_neq in Hne. now rewrite Hne.
  - rewrite in_app_iff. split; [|now left].
    intros [Hin | [<- | []]]; [exact Hin|]. simpl in Hne. contradiction.
Qed.

Lemma selectAnswer_in_place (q a : Z) (prev : list UserAnswer) (i : nat) (x : UserAnswer) :
  nth_error prev i = Some x ->
  nth_error (selectAnswer q a prev) i
  = Some (if questionIndex x =? q
          then {| questionIndex := q; answerIndex := a |}
          else x).
Proof.
  intros Hx. unfold selectAnswer.
  destruct (find (fun y => questionIndex y =? q) prev) as [y0|] eqn:Hf.
  - rewrite nth_error_map, Hx. simpl.
    destruct (questionIndex x =? q) eqn:Hxq; [|reflexivity].
    apply Z.eqb_eq in Hxq. now rewrite Hxq.
  - rewrite nth_error_app1 by (apply nth_error_Some; congruence).
    rewrite Hx. apply nth_error_In in Hx. apply (find_none _ _ Hf) in Hx.
    now rewrite Hx.
Qed.

(** C8. Selecting an answer either rewrites the stored answer of that
    question in place (same question indices, same length) or appends one
    entry if the question had none; it keeps the question indices free of
    duplicates, so every reachable session holds at most one answer per
    question; and selecting the same answer twice gives the same list as
    selecting it once, in particular the same length. The selected answer
    index is what is stored: looking the question up afterwards finds it,
    every entry of that question is the pair of the question and the
    selected index, every entry present before keeps its position, changed
    only if it belongs to that question, and the entries of the other
    questions are exactly those present before. *)
Theorem handleAnswerSelect_one_per_question (s : Session) (q a : Z) :
  let prev := userAnswers s in
  let next := userAnswers (handleAnswerSelect q a s) in
  next = selectAnswer q a prev /\
  (In q (map questionIndex prev) ->
     map questionIndex next = map questionIndex prev /\
     List.length next = List.length prev) /\
  (~ In q (map questionIndex prev) ->
     next = (prev ++ [{| questionIndex := q; answerIndex := a |}])%list) /\
  (NoDup (map questionIndex prev) -> NoDup (map questionIndex next)) /\
  (reachable s -> NoDup (map questionIndex prev)) /\
  handleAnswerSelect q a (handleAnswerSelect q a s) = handleAnswerSelect q a s /\
  List.length (userAnswers (handleAnswerSelect q a (handleAnswerSelect q a s)))
  = List.length next /\
  option_map answerIndex (find (fun x => questionIndex x =? q) next) = Some a /\
  (forall x, In x next -> questionIndex x = q ->
     x = {| questionIndex := q; answerIndex := a |}) /\
  (forall i x, nth_error prev i = Some x ->
     nth_error next i
     = Some (if questionIndex x =? q
             then {| questionIndex := q; answerIndex := a |}
             else x)) /\
  (forall x, questionIndex x <> q -> In x next <-> In x prev).
Proof.
  intros prev next. subst prev next.
  assert (Hidem : handleAnswerSelect q a (handleAnswerSelect q a s)
                  = handleAnswerSelect q a s).
  { unfold handleAnswerSelect, setUserAnswers. simpl.
    rewrite selectAnswer_idempotent. reflexivity. }
  assert (Hnext : userAnswers (handleAnswerSelect q a s)
                  = selectAnswer q a (userAnswers s)) by reflexivity.
  rewrite Hidem, Hnext.
  split; [reflexivity|].
  split; [|split; [|split; [|split; [|split; [|split; [|split; [|split; [|split]]]]]]]].
  - intros Hin.
    assert (He : existsb (Z.eqb q) (map questionIndex (userAnswers s)) = true).
    { apply existsb_exists. exists q. split; [exact Hin | apply Z.eqb_refl]. }
    rewrite selectAnswer_keys, selectAnswer_length, He. auto.
  - intros Hnot. unfold selectAnswer.
    destruct (find (fun x => questionIndex x =? q) (userAnswers s)) as [x|] eqn:Hf;
      [|reflexivity].
    exfalso. apply Hnot. apply find_questionIndex_In. eauto.
  - apply selectAnswer_NoDup.
  - intros Hr. apply (reachable_invariant Hr).
  - reflexivity.
  - exact (f_equal (@List.length UserAnswer) Hnext).
  - apply find_selectAnswer_same.
  - intros x. apply selectAnswer_stored.
  - intros i x. apply selectAnswer_in_place.
  - intros x. apply selectAnswer_others.
Qed.

Lemma handleAnswerSelect_one_per_question_witness :
  NoDup (map questionIndex (userAnswers Samples.midQuizSession)) /\
  map questionIndex (userAnswers (handleAnswerSelect 1 3 Samples.midQuizSession)) = [0; 1] /\
  List.length (userAnswers (handleAnswerSelect 1 3 Samples.midQuizSession)) = 2%nat /\
  userAnswers (handleAnswerSelect 2 3 Samples.midQuizSession)
  = [ {| questionIndex := 0; answerIndex := 1 |};
      {| questionIndex := 1; answerIndex := 0 |};
      {| questionIndex := 2; answerIndex := 3 |} ] /\
  userAnswers Samples.midQuizSession
  = [ {| questionIndex := 0; answerIndex := 1 |};
      {| questionIndex := 1; answerIndex := 0 |} ] /\
  option_map answerIndex
    (find (fun x => questionIndex x =? 1)
       (userAnswers (handleAnswerSelect 1 3 Samples.midQuizSession))) = Some 3 /\
  nth_error (userAnswers (handleAnswerSelect 1 3 Samples.midQuizSession)) 0
  = Some {| questionIndex := 0; answerIndex := 1 |} /\
  nth_error (userAnswers (handleAnswerSelect 1 3 Samples.midQuizSession)) 1
  = Some {| questionIndex := 1; answerIndex := 3 |}.
Proof.
  assert (Hreach : reachable Samples.midQuizSession).
  { apply (@play_reachable Samples.midQuiz initialSession); [constructor|].
    vm_compute. reflexivity. }
  destruct (handleAnswerSelect_one_per_question Samples.midQuizSession 1 3)
    as (_ & Hupdate & _ & _ & Hnodup & _ & _ & Hfind & _ & Hplace & _).
  destruct (handleAnswerSelect_one_per_question Samples.midQuizSession 2 3)
    as (_ & _ & Happend & _).
  split; [exact (Hnodup Hreach)|].
  destruct Hupdate as [Hkeys Hlen].
  { vm_compute. auto. }
  split; [exact Hkeys|]. split; [exact Hlen|].
  split; [apply Happend; vm_compute; intros [H | [H | []]]; discriminate|].
  split; [vm_compute; reflexivity|].
  split; [exact Hfind|].
  split.
  - apply (Hplace 0%nat {| questionIndex := 0; answerIndex := 1 |}).
    vm_compute. reflexivity.
  - apply (Hplace 1%nat {| questionIndex := 1; answerIndex := 0 |}).
    vm_compute. reflexivity.
Defined.

(** ** Score *)

(** C2. In every reachable session the score is computed without error, it
    is the number of user answers whose selected answer
    [quizData[questionIndex].answers[answerIndex]] is marked correct, and it
    lies between 0 and the number of questions. Whenever the score is
    computed at all it is that count. *)
Theorem score_counts_correct_answers (s : Session) :
  (forall k, score s = Ok k -> k = correctAnswers s) /\
  (reachable s ->
   exists k,
     score s = Ok k /\
     k = lengthZ (filter (fun ua =>
                            match nthZ (quizData s) (questionIndex ua) with
                            | Some q =>
                                match nthZ (answers q) (answerIndex ua) with
                                | Some a => isCorrect a
                                | None => false
                                end
                            | None => false
                            end) (userAnswers s)) /\
     0 <= k <= lengthZ (quizData s)).
Proof.
  split.
  - intros k Hk. apply score_fold_inv in Hk. unfold correctAnswers. lia.
  - intros Hr. destruct (reachable_invariant Hr) as [Hnd Hb].
    exists (correctAnswers s). split; [|split].
    + unfold score. rewrite (score_fold 0 Hb). reflexivity.
    + reflexivity.
    + unfold correctAnswers.
      pose proof (filter_split_length (selectedIsCorrect (quizData s)) (userAnswers s))
        as Hsplit.
      assert (Hlen : (List.length (userAnswers s) <= List.length (quizData s))%nat).
      { rewrite <- (length_map questionIndex (userAnswers s)).
        apply bounded_keys_length; [exact Hnd|].
        rewrite Forall_map. eapply Forall_impl; [|exact Hb].
        intros ua [Hq _]. exact Hq. }
      unfold lengthZ. lia.
Qed.

Lemma score_counts_correct_answers_witness :
  score Samples.midQuizSession = Ok 1 /\
  lengthZ (quizData Samples.midQuizSession) = 3.
Proof.
  assert (Hreach : reachable Samples.midQuizSession).
  { apply (@play_reachable Samples.midQuiz initialSession); [constructor|].
    vm_compute. reflexivity. }
  destruct (score_counts_correct_answers Samples.midQuizSession) as [Hcount Hrange].
  destruct (Hrange Hreach) as (k & Hk & _ & _).
  split; [|reflexivity].
  rewrite Hk. f_equal. apply Hcount in Hk. rewrite Hk. reflexivity.
Defined.

(** ** Stored answers stay inside the quiz *)

(** C10. In every reachable session each stored user answer has a question
    index inside the quiz data and an answer index inside that question's
    answers, so the indexing done by the score never reads outside them and
    the score is computed without error. Quiz generation either leaves quiz
    data and user answers as they are or, on success, installs the new quiz
    data and empties the user answers in the same step. *)
Theorem userAnswers_in_bounds (s : Session) :
  reachable s ->
  Forall (fun ua =>
            0 <= questionIndex ua < lengthZ (quizData s) /\
            exists q,
              nthZ (quizData s) (questionIndex ua) = Some q /\
              0 <= answerIndex ua < lengthZ (answers q) /\
              exists a, nthZ (answers q) (answerIndex ua) = Some a)
         (userAnswers s) /\
  isOk (score s) = true /\
  (forall host rng s',
     In s' (handleGenerateQuiz host rng s) ->
     (quizData s' = quizData s /\ userAnswers s' = userAnswers s) \/
     (userAnswers s' = [] /\ currentQuestionIndex s' = 0 /\ appState s' = TAKING_QUIZ)) /\
  (forall host rng fd questions,
     fileData s = Some fd ->
     lengthZ (selectedTopics s) <> 0 ->
     generateQuizQuestions host (base64 fd) (mimeType fd) (selectedTopics s)
       (questionCount s) = Ok questions ->
     let s' := settle (handleGenerateQuiz host rng s) s in
     quizData s' = fst (randomize questions rng) /\ userAnswers s' = []).
Proof.
  intros Hr. destruct (reachable_invariant Hr) as [Hnd Hb].
  split; [|split; [|split]].
  - eapply Forall_impl; [|exact Hb].
    intros ua (Hq & q & Hsome & Ha). split; [exact Hq|].
    exists q. split; [exact Hsome|]. split; [exact Ha|].
    now apply nthZ_in_bounds.
  - unfold score. rewrite (score_fold 0 Hb). reflexivity.
  - intros host rng s'. apply handleGenerateQuiz_trace.
  - intros host rng fd questions Hfd Hsel Hgen s'. subst s'.
    rewrite (handleGenerateQuiz_success host rng s Hfd Hsel Hgen). split; reflexivity.
Qed.

Lemma userAnswers_in_bounds_witness :
  userAnswers Samples.midQuizSession
  = [ {| questionIndex := 0; answerIndex := 1 |};
      {| questionIndex := 1; answerIndex := 0 |} ] /\
  Forall (fun ua => 0 <= questionIndex ua < lengthZ (quizData Samples.midQuizSession))
         (userAnswers Samples.midQuizSession) /\
  isOk (score Samples.midQuizSession) = true.
Proof.
  assert (Hreach : reachable Samples.midQuizSession).
  { apply (@play_reachable Samples.midQuiz initialSession); [constructor|].
    vm_compute. reflexivity. }
  destruct (userAnswers_in_bounds Hreach) as (Hall & Hok & _).
  split; [reflexivity|]. split; [|exact Hok].
  eapply Forall_impl; [|exact Hall]. intros ua [H _]. exact H.
Defined.

(** ** Advancing through the quiz *)

Lemma handleNextQuestion_inner (s : Session) :
  currentQuestionIndex s < lengthZ (quizData s) - 1 ->
  handleNextQuestion s = setCurrentQuestionIndex (currentQuestionIndex s + 1) s.
Proof.
  intros H. unfold handleNextQuestion.
  apply Z.ltb_lt in H. now rewrite H.
Qed.

Lemma handleNextQuestion_last (s : Session) :
  lengthZ (quizData s) - 1 <= currentQuestionIndex s ->
  handleNextQuestion s = setAppState REVIEW s.
Proof.
  intros H. unfold handleNextQuestion.
  apply Z.ltb_ge in H. now rewrite H.
Qed.

(** A run over the questions that remain: every state before the last is in
    TAKING_QUIZ, the last is in REVIEW, and the step into REVIEW is the only
    one of its kind. *)
Lemma takeQuiz_run (choices : list Z) : forall s : Session,
  appState s = TAKING_QUIZ ->
  choices <> [] ->
  currentQuestionIndex s + lengthZ choices = lengthZ (quizData s) ->
  exists before final,
    takeQuiz choices s = (before ++ [final])%list /\
    Forall (fun t => appState t = TAKING_QUIZ) before /\
    appState final = REVIEW /\
    currentQuestionIndex final = lengthZ (quizData s) - 1 /\
    reviewEntries s (takeQuiz choices s) = 1%nat.
Proof.
  induction choices as [|c rest IH]; intros s Hst Hne Hlen; [contradiction|].
  set (s1 := handleAnswerSelect (currentQuestionIndex s) c s).
  assert (Hs1 : appState s1 = TAKING_QUIZ) by exact Hst.
  assert (Hc1 : currentQuestionIndex s1 = currentQuestionIndex s) by reflexivity.
  assert (Hq1 : quizData s1 = quizData s) by reflexivity.
  destruct rest as [|c' rest].
  - (* the last question *)
    unfold lengthZ in Hlen. simpl List.length in Hlen.
    assert (Hlast : handleNextQuestion s1 = setAppState REVIEW s1).
    { apply handleNextQuestion_last. rewrite Hc1, Hq1. unfold lengthZ. lia. }
    exists [s1], (setAppState REVIEW s1).
    simpl takeQuiz. fold s1. rewrite Hlast.
    split; [reflexivity|]. split; [repeat constructor; exact Hs1|].
    split; [reflexivity|]. split; [simpl; unfold lengthZ; lia|].
    simpl. rewrite Hst. reflexivity.
  - (* a question before the last *)
    assert (Hinner : handleNextQuestion s1
                     = setCurrentQuestionIndex (currentQuestionIndex s + 1) s1).
    { rewrite <- Hc1. apply handleNextQuestion_inner. rewrite Hc1, Hq1.
      unfold lengthZ in *. simpl List.length in Hlen. lia. }
    set (s2 := setCurrentQuestionIndex (currentQuestionIndex s + 1) s1) in *.
    destruct (IH s2) as (before & final & Hrun & Hbefore & Hfinal & Hidx & Hcount).
    + exact Hst.
    + discriminate.
    + unfold lengthZ in *. simpl List.length in *. simpl. lia.
    + exists (s1 :: s2 :: before), final.
      change (takeQuiz (c :: c' :: rest) s)
        with (s1 :: handleNextQuestion s1 :: takeQuiz (c' :: rest) (handleNextQuestion s1)).
      rewrite Hinner. fold s2. rewrite Hrun.
      split; [reflexivity|].
      split; [constructor; [exact Hs1|]; constructor; [exact Hst | exact Hbefore]|].
      split; [exact Hfinal|]. split; [exact Hidx|].
      rewrite <- Hrun.
      change (reviewEntries s (s1 :: s2 :: takeQuiz (c' :: rest) s2))
        with ((if AppState_eqb (appState s) TAKING_QUIZ && AppState_eqb (appState s1) REVIEW
               then 1 else 0)
              + ((if AppState_eqb (appState s1) TAKING_QUIZ && AppState_eqb (appState s2) REVIEW
                  then 1 else 0)
                 + reviewEntries s2 (takeQuiz (c' :: rest) s2)))%nat.
      rewrite Hcount, Hs1.
      replace (appState s2) with TAKING_QUIZ by (symmetry; exact Hst).
      rewrite Hst. reflexivity.
Qed.

Lemma last_cons_default {A : Type} (x : A) (l : list A) (d d' : A) :
  last (x :: l) d = last (x :: l) d'.
Proof.
  revert x. induction l as [|y l IH]; intros x; [reflexivity|].
  change (last (y :: l) d = last (y :: l) d'). apply IH.
Qed.

Lemma skipn_cons_inv {A : Type} (n : nat) (l : list A) (x : A) (tl : list A) :
  skipn n l = x :: tl -> nth_error l n = Some x /\ skipn (S n) l = tl.
Proof.
  revert l. induction n as [|n IH]; intros l H.
  - simpl in H. subst l. split; reflexivity.
  - destruct l as [|y l]; [discriminate|]. simpl in H. apply IH in H. exact H.
Qed.

Lemma handleAnswerSelect_answered (q a : Z) (s : Session) :
  currentQuestionIndex s = q ->
  exists i, userAnswerIndex (handleAnswerSelect q a s) = Some i.
Proof.
  intros Hq. unfold userAnswerIndex, handleAnswerSelect. simpl. rewrite Hq.
  pose proof (selectAnswer_found q a (userAnswers s)) as Hin.
  apply find_questionIndex_In in Hin. destruct Hin as [x Hx].
  rewrite Hx. eauto.
Qed.

(** With valid choices the run is one the page allows: each click is on a
    control that is present, and the clicks end in the last state of the
    run. *)
Lemma play_quizEvents (choices : list Z) : forall s : Session,
  appState s = TAKING_QUIZ ->
  0 <= currentQuestionIndex s ->
  choices <> [] ->
  Forall2 validChoice choices (skipn (Z.to_nat (currentQuestionIndex s)) (quizData s)) ->
  play (quizEvents choices) s = Some (last (takeQuiz choices s) s).
Proof.
  induction choices as [|c rest IH]; intros s Hst Hpos Hne Hvalid; [contradiction|].
  inversion Hvalid as [|c0 q rest0 tl Hc Hrest Heq1 Heq2]. subst c0 rest0.
  symmetry in Heq2. apply skipn_cons_inv in Heq2. destruct Heq2 as [Hnth Hskip].
  assert (Hq : nthZ (quizData s) (currentQuestionIndex s) = Some q).
  { unfold nthZ. destruct (currentQuestionIndex s <? 0) eqn:Hneg; [|exact Hnth].
    apply Z.ltb_lt in Hneg. lia. }
  set (s1 := handleAnswerSelect (currentQuestionIndex s) c s).
  assert (Hen1 : enabled (AnswerSelect c) s = true).
  { unfold enabled. rewrite Hst, Hq. unfold validChoice in Hc.
    apply andb_true_intro. split; [apply Z.leb_le | apply Z.ltb_lt]; lia. }
  assert (Hen2 : enabled NextQuestion s1 = true).
  { unfold enabled. change (appState s1) with (appState s). rewrite Hst.
    change (nthZ (quizData s1) (currentQuestionIndex s1))
      with (nthZ (quizData s) (currentQuestionIndex s)).
    rewrite Hq.
    destruct (@handleAnswerSelect_answered (currentQuestionIndex s) c s eq_refl)
      as [i Hi].
    fold s1 in Hi. rewrite Hi. reflexivity. }
  change (quizEvents (c :: rest))
    with (AnswerSelect c :: NextQuestion :: quizEvents rest).
  change (play (AnswerSelect c :: NextQuestion :: quizEvents rest) s)
    with (if enabled (AnswerSelect c) s
          then (if enabled NextQuestion s1
                then play (quizEvents rest) (handleNextQuestion s1)
                else None)
          else None).
  rewrite Hen1, Hen2.
  destruct rest as [|c' rest].
  - reflexivity.
  - inversion Hrest as [|c0 q' rest0 tl' Hc' Hrest' Heq1 Heq2]. subst c0 rest0.
    assert (Hmore : (S (Z.to_nat (currentQuestionIndex s)) < List.length (quizData s))%nat).
    { apply nth_error_Some.
      rewrite <- Heq2 in Hskip. apply skipn_cons_inv in Hskip.
      destruct Hskip as [Hn _]. congruence. }
    assert (Hinner : handleNextQuestion s1
                     = setCurrentQuestionIndex (currentQuestionIndex s + 1) s1).
    { apply (handleNextQuestion_inner s1).
      change (currentQuestionIndex s1) with (currentQuestionIndex s).
      change (quizData s1) with (quizData s). unfold lengthZ. lia. }
    change (takeQuiz (c :: c' :: rest) s)
      with (s1 :: handleNextQuestion s1
               :: takeQuiz (c' :: rest) (handleNextQuestion s1)).
    rewrite Hinner.
    set (s2 := setCurrentQuestionIndex (currentQuestionIndex s + 1) s1).
    rewrite (IH s2).
    + f_equal.
      change (takeQuiz (c' :: rest) s2)
        with (handleAnswerSelect (currentQuestionIndex s2) c' s2
                :: handleNextQuestion (handleAnswerSelect (currentQuestionIndex s2) c' s2)
                :: takeQuiz rest
                     (handleNextQuestion (handleAnswerSelect (currentQuestionIndex s2) c' s2))).
      cbn [last]. apply last_cons_default.
    + exact Hst.
    + simpl. lia.
    + discriminate.
    + change (quizData s2) with (quizData s).
      change (currentQuestionIndex s2) with (currentQuestionIndex s + 1).
      replace (Z.to_nat (currentQuestionIndex s + 1))
        with (S (Z.to_nat (currentQuestionIndex s))) by lia.
      rewrite Hskip. exact Hrest.
Qed.

(** C9. In TAKING_QUIZ, advancing adds one to the current question index
    when it is below the last question and leaves the phase alone, and moves
    the session to REVIEW when the index is that of the last question. Over
    a run through all the questions from the first (answer, advance, and so
    on, once per question) the step from TAKING_QUIZ to REVIEW is taken
    exactly once, as the last step, on the final question; with choices
    that name answers of the questions, this run is the one the page's
    buttons produce. *)
Theorem handleNextQuestion_advances (s : Session) (choices : list Z) :
  appState s = TAKING_QUIZ ->
  (currentQuestionIndex s < lengthZ (quizData s) - 1 ->
     currentQuestionIndex (handleNextQuestion s) = currentQuestionIndex s + 1 /\
     appState (handleNextQuestion s) = TAKING_QUIZ /\
     handleNextQuestion s = setCurrentQuestionIndex (currentQuestionIndex s + 1) s) /\
  (currentQuestionIndex s = lengthZ (quizData s) - 1 ->
     appState (handleNextQuestion s) = REVIEW /\
     handleNextQuestion s = setAppState REVIEW s) /\
  (currentQuestionIndex s = 0 ->
   quizData s <> [] ->
   List.length choices = List.length (quizData s) ->
   exists before final,
     takeQuiz choices s = (before ++ [final])%list /\
     Forall (fun t => appState t = TAKING_QUIZ) before /\
     appState final = REVIEW /\
     currentQuestionIndex final = lengthZ (quizData s) - 1 /\
     reviewEntries s (takeQuiz choices s) = 1%nat /\
     (Forall2 validChoice choices (quizData s) ->
      play (quizEvents choices) s = Some final)).
Proof.
  intros Hst. split; [|split].
  - intros Hlt. rewrite (handleNextQuestion_inner s Hlt).
    split; [reflexivity|]. split; [exact Hst | reflexivity].
  - intros Hlast. rewrite (handleNextQuestion_last s); [|lia].
    split; reflexivity.
  - intros Hzero Hne Hlen.
    assert (Hchoices : choices <> []).
    { intros ->. destruct (quizData s); [contradiction | discriminate]. }
    destruct (@takeQuiz_run choices s Hst Hchoices)
      as (before & final & Hrun & Hbefore & Hfinal & Hidx & Hcount).
    { unfold lengthZ. rewrite Hzero, Hlen. lia. }
    exists before, final.
    repeat (split; [assumption|]).
    intros Hvalid.
    rewrite (@play_quizEvents choices s Hst); [| lia | exact Hchoices |].
    + rewrite Hrun, last_last. reflexivity.
    + rewrite Hzero. exact Hvalid.
Qed.

Lemma handleNextQuestion_advances_witness :
  currentQuestionIndex (handleNextQuestion Samples.quizStart) = 1 /\
  map appState (takeQuiz [1; 0; 2] Samples.quizStart)
  = [TAKING_QUIZ; TAKING_QUIZ; TAKING_QUIZ; TAKING_QUIZ; TAKING_QUIZ; REVIEW] /\
  reviewEntries Samples.quizStart (takeQuiz [1; 0; 2] Samples.quizStart) = 1%nat /\
  exists final,
    play (quizEvents [1; 0; 2]) Samples.quizStart = Some final /\
    appState final = REVIEW.
Proof.
  destruct (@handleNextQuestion_advances Samples.quizStart [1; 0; 2] eq_refl)
    as (Hinner & _ & Hrun).
  destruct Hinner as (Hidx & _); [vm_compute; reflexivity|].
  destruct Hrun as (before & final & _ & _ & Hfinal & _ & Hcount & Hplay);
    [vm_compute; reflexivity | vm_compute; discriminate | vm_compute; reflexivity |].
  split; [exact Hidx|]. split; [reflexivity|]. split; [exact Hcount|].
  exists final. split; [|exact Hfinal].
  apply Hplay. vm_compute.
  repeat (constructor; [split; [discriminate | reflexivity]|]).
  constructor.
Defined.

(** ** The definitions at work on the samples *)

Example generationPrompt_sample :
  generationPrompt "S" 7 ["a"; "b"]
  = promptHead ++ "S" ++ promptTask ++ "7" ++ promptTopics ++ "a, b" ++ promptRules.
Proof. reflexivity. Qed.

Example sourcesTextOf_sample :
  sourcesTextOf [Samples.chunk; Samples.chunk]
  = Ok ("Use the following official sources as the primary reference for generating questions:"
        ++ nl ++ "- Title: Docs, URL: https://example.com/docs"
        ++ nl ++ "- Title: Docs, URL: https://example.com/docs").
Proof. reflexivity. Qed.

Example sourcesTextOf_missing_web :
  sourcesTextOf [Samples.chunk; {| web := None |}]
  = Throw (ErrorObj "Cannot read properties of undefined (reading 'title')").
Proof. reflexivity. Qed.

Example shuffleArray_sample :
  fst (shuffleArray [1; 2; 3; 4; 5] Samples.rng) = [2; 4; 5; 3; 1] /\
  pos (snd (shuffleArray [1; 2; 3; 4; 5] Samples.rng)) = 8%nat.
Proof. split; vm_compute; reflexivity. Qed.

(** Two elements: one comparison, [0.25 - 0.5 < 0], a descending run, which
    is reversed. *)
Example shuffleArray_pair :
  fst (shuffleArray [1; 2] Samples.rng) = [2; 1] /\
  pos (snd (shuffleArray [1; 2] Samples.rng)) = 1%nat.
Proof. split; vm_compute; reflexivity. Qed.

(** An array of fewer than two elements is returned without a comparison. *)
Example shuffleArray_short :
  shuffleArray ([] : list Z) Samples.rng = ([], Samples.rng) /\
  shuffleArray [7] Samples.rng = ([7], Samples.rng).
Proof. split; reflexivity. Qed.

(** The four answers of a question: run [a; b] is reversed, then [c] and
    [d] are inserted by binary search; six comparisons. *)
Example shuffleArray_answers :
  map text (fst (shuffleArray (answers (Samples.good "q")) Samples.rng))
  = ["b"; "d"; "c"; "a"] /\
  pos (snd (shuffleArray (answers (Samples.good "q")) Samples.rng)) = 6%nat.
Proof. split; vm_compute; reflexivity. Qed.

(** With the comparator [(a, b) => a - b] the sort sorts; on 71 numbers
    (minimum run length 36) two runs are made and merged. *)
Example Array_sort_numbers :
  ComputeMinRunLength 71 = 36%nat /\
  fst (Array_sort Samples.byDifference Samples.scrambled Samples.rng)
  = map Z.of_nat (seq 0 71) /\
  pos (snd (Array_sort Samples.byDifference Samples.scrambled Samples.rng)) = 0%nat.
Proof. repeat split; vm_compute; reflexivity. Qed.

Example handleTopicToggle_sample :
  selectedTopics (handleTopicToggle "Storage" Samples.ready) = ["Networking"] /\
  selectedTopics (handleTopicToggle "Storage" (handleTopicToggle "Storage" Samples.ready))
  = ["Networking"; "Storage"].
Proof. split; reflexivity. Qed.

Example handleFileChange_not_a_guide :
  map appState (handleFileChange Samples.hostNotGuide (Some Samples.guide) initialSession)
  = [ANALYZING; ANALYZING; SETUP].
Proof. reflexivity. Qed.

Example score_out_of_range :
  score (setUserAnswers [{| questionIndex := 7; answerIndex := 0 |}] Samples.quizStart)
  = Throw (ErrorObj "Cannot read properties of undefined (reading 'answers')").
Proof. reflexivity. Qed.

Example answer_button_absent_in_setup :
  play [FileChange Samples.host (Some Samples.guide); AnswerSelect 0] initialSession = None.
Proof. reflexivity. Qed.

Example fullQuiz_score :
  option_map (fun s => (appState s, score s)) (play Samples.fullQuiz initialSession)
  = Some (REVIEW, Ok 1).
Proof. vm_compute. reflexivity. Qed.

(* ================================================================== *)
(** * Further properties of the session *)

(** ** Index ranges *)

Lemma upTo_succ (n : Z) : 0 <= n -> upTo (n + 1) = (upTo n ++ [n])%list.
Proof.
  intros Hn. unfold upTo.
  replace (Z.to_nat (n + 1)) with (S (Z.to_nat n)) by lia.
  rewrite seq_S, map_app. simpl. f_equal. f_equal. lia.
Qed.

Lemma upTo_In (n k : Z) : In k (upTo n) <-> 0 <= k < n.
Proof.
  unfold upTo. rewrite in_map_iff. split.
  - intros (i & <- & Hi). apply in_seq in Hi. lia.
  - intros Hk. exists (Z.to_nat k). split; [lia|]. apply in_seq. lia.
Qed.

Lemma upTo_length (n : Z) : List.length (upTo n) = Z.to_nat n.
Proof. unfold upTo. now rewrite length_map, length_seq. Qed.

Lemma existsb_eqb_In (q : Z) (l : list Z) : existsb (Z.eqb q) l = true <-> In q l.
Proof.
  rewrite existsb_exists. split.
  - intros (k & Hin & Hk). apply Z.eqb_eq in Hk. now subst k.
  - intros Hin. exists q. split; [exact Hin | apply Z.eqb_refl].
Qed.

(** ** The states a handler passes through *)

Lemma handleFileChange_trace (host : Host) (selectedFile : option File) (s s' : Session) :
  In s' (handleFileChange host selectedFile s) ->
  quizData s' = quizData s /\
  userAnswers s' = userAnswers s /\
  currentQuestionIndex s' = currentQuestionIndex s /\
  questionCount s' = questionCount s /\
  (appState s' = ANALYZING \/ appState s' = SETUP) /\
  ((topics s' = [] /\ selectedTopics s' = []) \/
   (topics s' <> [] /\ selectedTopics s' = topics s' /\
    file s' <> None /\ fileData s' <> None)).
Proof.
  unfold handleFileChange.
  destruct selectedFile as [f|]; [|intros []].
  destruct (fileToBase64 f) as [b64|err].
  - destruct (extractTopicsFromGuide host b64 (file_type f)) as [ts|err].
    + destruct (lengthZ ts =? 0) eqn:Hz; simpl;
        intros [H | [H | [H | []]]]; subst s'; simpl; repeat split; auto.
      right. repeat split; try discriminate.
      intros ->. discriminate.
    + simpl. intros [H | [H | [H | []]]]; subst s'; simpl; repeat split; auto.
  - simpl. intros [H | [H | []]]; subst s'; simpl; repeat split; auto.
Qed.

Lemma handleGenerateQuiz_steps (host : Host) (rng : Rng) (s s' : Session) :
  In s' (handleGenerateQuiz host rng s) ->
  topics s' = topics s /\
  selectedTopics s' = selectedTopics s /\
  file s' = file s /\
  fileData s' = fileData s /\
  questionCount s' = questionCount s /\
  ((quizData s' = quizData s /\ userAnswers s' = userAnswers s /\
    currentQuestionIndex s' = currentQuestionIndex s /\
    (appState s' = appState s \/ appState s' = GENERATING \/ appState s' = SETUP)) \/
   (appState s' = TAKING_QUIZ /\ userAnswers s' = [] /\ currentQuestionIndex s' = 0 /\
    exists fd questions,
      fileData s = Some fd /\
      generateQuizQuestions host (base64 fd) (mimeType fd) (selectedTopics s)
        (questionCount s) = Ok questions /\
      quizData s' = fst (randomize questions rng))).
Proof.
  unfold handleGenerateQuiz.
  destruct (fileData s) as [fd|] eqn:Hfd.
  - destruct (lengthZ (selectedTopics s) =? 0).
    + simpl. intros [H | []]; subst s'; simpl. repeat split; auto. left. auto 10.
    + destruct (generateQuizQuestions host (base64 fd) (mimeType fd)
                  (selectedTopics s) (questionCount s)) as [questions|err] eqn:Hgen;
        simpl; intros [H | [H | []]]; subst s'; simpl; repeat split; auto.
      * left. auto 10.
      * right. repeat split; auto. exists fd, questions. auto.
      * left. auto 10.
      * left. auto 10.
  - simpl. intros [H | []]; subst s'; simpl. repeat split; auto. left. auto 10.
Qed.

(** ** Phases and stored answers *)

Lemma reachable_phase (s : Session) : reachable s -> phaseInvariant s.
Proof.
  induction 1 as [|s ev s' Hreach IH Hen Hin].
  - unfold phaseInvariant. simpl. auto.
  - unfold enabled in Hen. unfold phaseInvariant in IH.
    destruct ev as [host f | topic | value | host rng | index | |]; simpl in Hin;
      destruct (appState s) eqn:Hst; try discriminate.
    + apply handleFileChange_trace in Hin.
      destruct Hin as (Hq & Hu & _ & _ & Hphase & _). destruct IH as [IHq IHu].
      unfold phaseInvariant. rewrite Hq, Hu.
      destruct Hphase as [-> | ->]; auto.
    + destruct Hin as [<- | []]. unfold phaseInvariant. simpl. rewrite Hst. exact IH.
    + destruct Hin as [<- | []]. unfold phaseInvariant. simpl. rewrite Hst. exact IH.
    + apply handleGenerateQuiz_steps in Hin.
      destruct Hin as (_ & _ & _ & _ & _ & Hcases). destruct IH as [IHq IHu].
      unfold phaseInvariant.
      destruct Hcases as [(Hq & Hu & _ & Hphase) | (Hphase & Hu & Hc & _)].
      * rewrite Hq, Hu. destruct Hphase as [Hp | [Hp | Hp]]; rewrite Hp, ?Hst; auto.
      * rewrite Hphase, Hu, Hc. simpl. split; [lia|]. split; [|left; reflexivity].
        destruct (quizData s') as [|q qs]; [right; auto|].
        left. unfold lengthZ. simpl. lia.
    + destruct Hin as [<- | []].
      destruct (nthZ (quizData s) (currentQuestionIndex s)) as [q|] eqn:Hq;
        [|discriminate].
      apply nthZ_Some_bounds in Hq.
      destruct IH as (Hpos & _ & Hkeys).
      unfold phaseInvariant, handleAnswerSelect. simpl. rewrite Hst.
      split; [exact Hpos|]. split; [left; lia|].
      rewrite selectAnswer_keys.
      destruct (existsb (Z.eqb (currentQuestionIndex s))
                  (map questionIndex (userAnswers s))) eqn:He.
      * apply existsb_eqb_In in He.
        destruct Hkeys as [Hk | [Hk Hlt]].
        -- rewrite Hk in He. apply upTo_In in He. lia.
        -- right. auto.
      * destruct Hkeys as [Hk | [Hk Hlt]].
        -- right. split; [|lia]. rewrite Hk. symmetry. now apply upTo_succ.
        -- assert (Hin : In (currentQuestionIndex s) (map questionIndex (userAnswers s))).
           { rewrite Hk. apply upTo_In. lia. }
           apply existsb_eqb_In in Hin. congruence.
    + destruct Hin as [<- | []].
      destruct (nthZ (quizData s) (currentQuestionIndex s)) as [q|] eqn:Hq;
        [|discriminate].
      apply nthZ_Some_bounds in Hq.
      unfold userAnswerIndex in Hen.
      destruct (find (fun a => questionIndex a =? currentQuestionIndex s) (userAnswers s))
        as [a|] eqn:Hf; [|discriminate].
      assert (Hin : In (currentQuestionIndex s) (map questionIndex (userAnswers s))).
      { apply find_questionIndex_In. eauto. }
      destruct IH as (Hpos & _ & Hkeys).
      assert (Hk : map questionIndex (userAnswers s) = upTo (currentQuestionIndex s + 1)).
      { destruct Hkeys as [Hk | [Hk _]]; [|exact Hk].
        rewrite Hk in Hin. apply upTo_In in Hin. lia. }
      unfold phaseInvariant, handleNextQuestion.
      destruct (currentQuestionIndex s <? lengthZ (quizData s) - 1) eqn:Hlt; simpl.
      * apply Z.ltb_lt in Hlt. rewrite Hst.
        split; [lia|]. split; [left; lia|]. left. exact Hk.
      * apply Z.ltb_ge in Hlt.
        assert (Hlast : currentQuestionIndex s = lengthZ (quizData s) - 1) by lia.
        split; [|split; [exact Hlast | lia]].
        rewrite Hk. f_equal. lia.
    + destruct Hin as [<- | []]. unfold phaseInvariant. simpl. auto.
Qed.

(** ** Setup fields *)

Lemma reachable_setup (s : Session) : reachable s -> setupInvariant s.
Proof.
  induction 1 as [|s ev s' Hreach IH Hen Hin].
  - unfold setupInvariant. simpl. split; [intros t []|]. split; [intros H; contradiction|lia].
  - unfold enabled in Hen. destruct IH as (Hincl & Hfile & Hcount).
    unfold setupInvariant.
    destruct ev as [host f | topic | value | host rng | index | |]; simpl in Hin.
    + apply handleFileChange_trace in Hin.
      destruct Hin as (_ & _ & _ & Hn & _ & Htopics). rewrite Hn.
      destruct Htopics as [[Ht Hs] | (Hne & Hs & Hf & Hd)].
      * rewrite Ht, Hs. split; [intros t []|]. split; [intros H; contradiction | exact Hcount].
      * rewrite Hs. split; [apply incl_refl|]. split; [auto | exact Hcount].
    + destruct Hin as [<- | []].
      destruct (appState s); try discriminate.
      unfold handleTopicToggle. simpl.
      split; [|split; [exact Hfile | exact Hcount]].
      destruct (existsb (String.eqb topic) (selectedTopics s)).
      * intros t Ht. apply filter_In in Ht. apply Hincl. tauto.
      * intros t Ht. apply in_app_or in Ht. destruct Ht as [Ht | [<- | []]]; [auto|].
        apply existsb_exists in Hen. destruct Hen as (t & Hin & Heq).
        apply String.eqb_eq in Heq. now subst t.
    + destruct Hin as [<- | []].
      destruct (appState s); try discriminate. simpl.
      split; [exact Hincl|]. split; [exact Hfile|].
      apply andb_prop in Hen. destruct Hen as [Hen Hhi].
      apply andb_prop in Hen. destruct Hen as [_ Hlo].
      apply Z.leb_le in Hlo, Hhi. lia.
    + apply handleGenerateQuiz_steps in Hin.
      destruct Hin as (Ht & Hs & Hf & Hd & Hn & _).
      rewrite Ht, Hs, Hf, Hd, Hn. auto.
    + destruct Hin as [<- | []]. simpl. auto.
    + destruct Hin as [<- | []]. unfold handleNextQuestion.
      destruct (currentQuestionIndex s <? lengthZ (quizData s) - 1); simpl; auto.
    + destruct Hin as [<- | []]. simpl.
      split; [intros t []|]. split; [intros H; contradiction | exact Hcount].
Qed.

(** ** Validity of the shown questions *)

Lemma filter_length_permutation {A : Type} (p : A -> bool) (l l' : list A) :
  Permutation l l' -> List.length (filter p l) = List.length (filter p l').
Proof.
  induction 1 as [|x l l' _ IH|x y l|l l1 l2 _ IH1 _ IH2]; simpl.
  - reflexivity.
  - destruct (p x); simpl; congruence.
  - destruct (p x), (p y); reflexivity.
  - congruence.
Qed.

Lemma exactlyOneCorrect_reordered (shown original : QuizQuestion) :
  sameQuestionUpToOrder shown original ->
  exactlyOneCorrect shown = exactlyOneCorrect original.
Proof.
  intros (_ & _ & Hperm). unfold exactlyOneCorrect, lengthZ.
  now rewrite (filter_length_permutation isCorrect Hperm).
Qed.

Lemma generateQuizQuestions_valid (host : Host) (fileBase64 mimeType' : string)
    (topics' : list string) (questionCount' : Z) (questions : list QuizQuestion) :
  generateQuizQuestions host fileBase64 mimeType' topics' questionCount' = Ok questions ->
  Forall (fun q => exactlyOneCorrect q = true) questions.
Proof.
  unfold generateQuizQuestions.
  destruct (generateContent host (searchRequest fileBase64 mimeType' topics'))
    as [sr|e]; [cbn [bindR] | discriminate].
  destruct (sourcesTextOf (groundingChunksOf sr)) as [st|e]; [cbn [bindR] | discriminate].
  destruct (generateContent host
              (generationRequest fileBase64 mimeType' topics' questionCount' st))
    as [gr|e]; [cbn [bindR] | discriminate].
  destruct (JSON_parse_quiz host (resp_text gr)) as [qs|e]; [cbn [bindR] | discriminate].
  intros H. injection H as <-.
  apply Forall_forall. intros q Hq. apply filter_In in Hq. tauto.
Qed.

Lemma randomize_valid (questions : list QuizQuestion) (rng : Rng) :
  Forall (fun q => exactlyOneCorrect q = true) questions ->
  Forall (fun q => exactlyOneCorrect q = true) (fst (randomize questions rng)).
Proof.
  intros Hvalid.
  destruct (randomize_spec questions rng) as (shuffled & Hperm & Hall).
  assert (Hshuffled : Forall (fun q => exactlyOneCorrect q = true) shuffled).
  { apply Forall_forall. intros q Hq. rewrite Forall_forall in Hvalid.
    apply Hvalid. now apply (Permutation_in _ Hperm). }
  clear Hperm Hvalid. induction Hall as [|shown original l l' Hsame _ IH].
  - constructor.
  - inversion Hshuffled as [|? ? Ho Hrest]. subst.
    constructor; [|now apply IH].
    now rewrite (exactlyOneCorrect_reordered Hsame).
Qed.

Lemma reachable_valid (s : Session) :
  reachable s -> Forall (fun q => exactlyOneCorrect q = true) (quizData s).
Proof.
  induction 1 as [|s ev s' Hreach IH Hen Hin].
  - constructor.
  - destruct ev as [host f | topic | value | host rng | index | |]; simpl in Hin.
    + apply handleFileChange_trace in Hin. destruct Hin as (Hq & _). now rewrite Hq.
    + destruct Hin as [<- | []]. exact IH.
    + destruct Hin as [<- | []]. exact IH.
    + apply handleGenerateQuiz_steps in Hin.
      destruct Hin as (_ & _ & _ & _ & _ & [(Hq & _) | (_ & _ & _ & fd & qs & _ & Hgen & Hq)]).
      * now rewrite Hq.
      * rewrite Hq. apply randomize_valid. eapply generateQuizQuestions_valid; eauto.
    + destruct Hin as [<- | []]. exact IH.
    + destruct Hin as [<- | []]. unfold handleNextQuestion.
      destruct (currentQuestionIndex s <? lengthZ (quizData s) - 1); exact IH.
    + destruct Hin as [<- | []]. constructor.
Qed.

(** X1. Every question of a reachable session has exactly one answer marked
    correct: the validation done by [generateQuizQuestions] survives the
    shuffling of questions and answers, and nothing else writes the quiz. *)
Theorem shown_questions_have_one_correct (s : Session) :
  reachable s ->
  Forall hasExactlyOneCorrect (quizData s) /\
  (forall q, nthZ (quizData s) (currentQuestionIndex s) = Some q ->
             lengthZ (filter isCorrect (answers q)) = 1).
Proof.
  intros Hr. pose proof (reachable_valid Hr) as Hvalid. split.
  - eapply Forall_impl; [|exact Hvalid]. intros q. apply exactlyOneCorrect_spec.
  - intros q Hq. rewrite Forall_forall in Hvalid.
    assert (Hin : In q (quizData s)).
    { unfold nthZ in Hq. destruct (currentQuestionIndex s <? 0); [discriminate|].
      eapply nth_error_In; eauto. }
    specialize (Hvalid q Hin). unfold exactlyOneCorrect in Hvalid.
    now apply Z.eqb_eq in Hvalid.
Qed.

Lemma shown_questions_have_one_correct_witness :
  Forall hasExactlyOneCorrect (quizData Samples.midQuizSession).
Proof.
  assert (Hreach : reachable Samples.midQuizSession).
  { apply (@play_reachable Samples.midQuiz initialSession); [constructor|].
    vm_compute. reflexivity. }
  exact (proj1 (shown_questions_have_one_correct Hreach)).
Defined.

(** X2. Outside of the quiz and review pages a reachable session holds no
    quiz and no answers: a failed generation, a new upload or start over
    never leave an old quiz behind, and the score is 0. *)
Theorem no_quiz_outside_quiz_phases (s : Session) :
  reachable s ->
  appState s <> TAKING_QUIZ ->
  appState s <> REVIEW ->
  quizData s = [] /\ userAnswers s = [] /\ score s = Ok 0.
Proof.
  intros Hr Hq Hv. pose proof (reachable_phase Hr) as Hinv.
  unfold phaseInvariant in Hinv.
  destruct (appState s); try contradiction;
    destruct Hinv as [H1 H2]; unfold score; rewrite H1, H2; auto.
Qed.

Lemma no_quiz_outside_quiz_phases_witness :
  quizData Samples.ready = [] /\ userAnswers Samples.ready = [] /\
  score Samples.ready = Ok 0.
Proof.
  apply no_quiz_outside_quiz_phases.
  - apply (@play_reachable [FileChange Samples.host (Some Samples.guide)] initialSession);
      [constructor | reflexivity].
  - discriminate.
  - discriminate.
Defined.

(** X3. While a reachable session is on the quiz page, the current question
    index is never negative; if the quiz is not empty it points at a
    question; and the answered questions are exactly those before the
    current one, plus the current one once it has an answer: no question
    can be skipped. *)
Theorem quiz_page_progress (s : Session) :
  reachable s ->
  appState s = TAKING_QUIZ ->
  0 <= currentQuestionIndex s /\
  (quizData s <> [] -> exists q, nthZ (quizData s) (currentQuestionIndex s) = Some q) /\
  (quizData s = [] -> currentQuestionIndex s = 0 /\ userAnswers s = []) /\
  (forall k, In k (map questionIndex (userAnswers s)) <->
             0 <= k < currentQuestionIndex s \/
             (k = currentQuestionIndex s /\ userAnswerIndex s <> None)).
Proof.
  intros Hr Hst. pose proof (reachable_phase Hr) as Hinv.
  unfold phaseInvariant in Hinv. rewrite Hst in Hinv.
  destruct Hinv as (Hpos & Hidx & Hkeys).
  assert (Hanswered : userAnswerIndex s <> None <->
                      In (currentQuestionIndex s) (map questionIndex (userAnswers s))).
  { rewrite <- find_questionIndex_In. unfold userAnswerIndex.
    destruct (find (fun a => questionIndex a =? currentQuestionIndex s) (userAnswers s)).
    - split; [eauto | discriminate].
    - split; [contradiction | intros [a Ha]; discriminate]. }
  split; [exact Hpos|]. split; [|split].
  - intros Hne. apply nthZ_in_bounds.
    destruct Hidx as [Hlt | [Hnil _]]; [lia | contradiction].
  - intros Hnil. destruct Hidx as [Hlt | [_ Hzero]].
    + rewrite Hnil in Hlt. unfold lengthZ in Hlt. simpl in Hlt. lia.
    + split; [exact Hzero|].
      destruct Hkeys as [Hk | [_ Hlt]].
      * rewrite Hzero in Hk. apply map_eq_nil in Hk. exact Hk.
      * rewrite Hnil in Hlt. unfold lengthZ in Hlt. simpl in Hlt. lia.
  - intros k. rewrite Hanswered.
    destruct Hkeys as [Hk | [Hk _]]; rewrite Hk; rewrite !upTo_In; lia.
Qed.

Lemma quiz_page_progress_witness :
  currentQuestionIndex Samples.midQuizSession = 1 /\
  (In 0 (map questionIndex (userAnswers Samples.midQuizSession)) <->
   0 <= 0 < currentQuestionIndex Samples.midQuizSession \/
   (0 = currentQuestionIndex Samples.midQuizSession /\
    userAnswerIndex Samples.midQuizSession <> None)).
Proof.
  assert (Hreach : reachable Samples.midQuizSession).
  { apply (@play_reachable Samples.midQuiz initialSession); [constructor|].
    vm_compute. reflexivity. }
  destruct (@quiz_page_progress Samples.midQuizSession Hreach eq_refl)
    as (_ & _ & _ & Hkeys).
  split; [reflexivity | apply Hkeys].
Defined.

(** X4. On the review page of a reachable session the quiz is not empty,
    the current index is that of the last question, and the stored answers
    are one per question, in question order: every question was answered
    before the review was reached, and each lookup of the review page finds
    its answer. *)
Theorem review_page_complete (s : Session) :
  reachable s ->
  appState s = REVIEW ->
  quizData s <> [] /\
  currentQuestionIndex s = lengthZ (quizData s) - 1 /\
  map questionIndex (userAnswers s) = upTo (lengthZ (quizData s)) /\
  List.length (userAnswers s) = List.length (quizData s) /\
  (forall qIndex, 0 <= qIndex < lengthZ (quizData s) ->
     exists userAnswer,
       find (fun a => questionIndex a =? qIndex) (userAnswers s) = Some userAnswer /\
       inBounds (quizData s) userAnswer).
Proof.
  intros Hr Hst. pose proof (reachable_phase Hr) as Hinv.
  destruct (reachable_invariant Hr) as [_ Hb].
  unfold phaseInvariant in Hinv. rewrite Hst in Hinv.
  destruct Hinv as (Hkeys & Hidx & Hlen).
  split; [|split; [exact Hidx | split; [exact Hkeys | split]]].
  - intros Hnil. rewrite Hnil in Hlen. unfold lengthZ in Hlen. simpl in Hlen. lia.
  - rewrite <- (length_map questionIndex (userAnswers s)), Hkeys, upTo_length.
    unfold lengthZ. lia.
  - intros qIndex Hq.
    assert (Hin : In qIndex (map questionIndex (userAnswers s))).
    { rewrite Hkeys. now apply upTo_In. }
    apply find_questionIndex_In in Hin. destruct Hin as [ua Hua].
    exists ua. split; [exact Hua|].
    rewrite Forall_forall in Hb. apply Hb. eapply find_some; eauto.
Qed.

Lemma review_page_complete_witness :
  map questionIndex (userAnswers Samples.reviewSession) = [0; 1; 2] /\
  currentQuestionIndex Samples.reviewSession = 2.
Proof.
  assert (Hreach : reachable Samples.reviewSession).
  { apply (@play_reachable Samples.fullQuiz initialSession); [constructor|].
    vm_compute. reflexivity. }
  destruct (@review_page_complete Samples.reviewSession Hreach eq_refl)
    as (_ & Hidx & Hkeys & _).
  split; [exact Hkeys | exact Hidx].
Defined.

(** ** Setup *)

(** X5. In every reachable session each selected topic is one of the listed
    topics, and topics are listed only while an uploaded file and its data
    are held. *)
Theorem selected_topics_are_listed (s : Session) :
  reachable s ->
  (forall t, In t (selectedTopics s) -> In t (topics s)) /\
  (topics s <> [] ->
   exists f fd, file s = Some f /\ fileData s = Some fd) /\
  (fileData s = None -> topics s = [] /\ selectedTopics s = []).
Proof.
  intros Hr. destruct (reachable_setup Hr) as (Hincl & Hfile & _).
  split; [exact Hincl|]. split.
  - intros Hne. destruct (Hfile Hne) as [Hf Hd].
    destruct (file s) as [f|]; [|contradiction].
    destruct (fileData s) as [fd|]; [|contradiction]. eauto.
  - intros Hnone.
    assert (Ht : topics s = []).
    { destruct (topics s) as [|t ts] eqn:Ht; [reflexivity|].
      destruct Hfile as [_ Hd]; [discriminate | contradiction]. }
    split; [exact Ht|]. rewrite Ht in Hincl.
    destruct (selectedTopics s) as [|t ts]; [reflexivity|].
    destruct (Hincl t). now left.
Qed.

Lemma selected_topics_are_listed_witness :
  selectedTopics (handleTopicToggle "Storage" Samples.ready) = ["Networking"] /\
  In "Networking" (topics (handleTopicToggle "Storage" Samples.ready)).
Proof.
  assert (Hreach : reachable (handleTopicToggle "Storage" Samples.ready)).
  { apply (@play_reachable [FileChange Samples.host (Some Samples.guide);
                            TopicToggle "Storage"] initialSession);
      [constructor | reflexivity]. }
  destruct (selected_topics_are_listed Hreach) as (Hlisted & _).
  split; [reflexivity|]. apply Hlisted. left. reflexivity.
Defined.

(** X6. The question count of a reachable session is always between 5 and
    50: it starts at 10, only the slider writes it, and start over leaves
    it alone. *)
Theorem questionCount_in_slider_range (s : Session) :
  reachable s -> 5 <= questionCount s <= 50.
Proof. intros Hr. apply (reachable_setup Hr). Qed.

Lemma questionCount_in_slider_range_witness :
  5 <= questionCount (handleStartOver Samples.reviewSession) <= 50.
Proof.
  apply questionCount_in_slider_range.
  apply (@play_reachable (Samples.fullQuiz ++ [StartOver])%list initialSession);
    [constructor | vm_compute; reflexivity].
Defined.

(** X7. Whenever the Generate button can be clicked in a reachable session,
    the guard of [handleGenerateQuiz] passes: the handler clears the error,
    shows the loading page, and ends either on the quiz page with the quiz
    installed or back in Setup with an error message. *)
Theorem generate_button_passes_guard (s : Session) (host : Host) (rng : Rng) :
  reachable s ->
  enabled (GenerateQuiz host rng) s = true ->
  exists loading final,
    handleGenerateQuiz host rng s = [loading; final] /\
    appState loading = GENERATING /\ error loading = None /\
    ((appState final = TAKING_QUIZ /\ error final = None /\
      currentQuestionIndex final = 0 /\ userAnswers final = []) \/
     (appState final = SETUP /\ error final <> None /\ quizData final = quizData s)).
Proof.
  intros Hr Hen. destruct (reachable_setup Hr) as (_ & Hfile & _).
  unfold enabled in Hen. destruct (appState s); try discriminate.
  apply andb_prop in Hen. destruct Hen as [Htopics Hsel].
  apply Z.ltb_lt in Htopics. apply negb_true_iff in Hsel.
  assert (Hne : topics s <> []).
  { intros Hnil. rewrite Hnil in Htopics. unfold lengthZ in Htopics. simpl in Htopics. lia. }
  destruct (Hfile Hne) as [_ Hd].
  unfold handleGenerateQuiz.
  destruct (fileData s) as [fd|]; [|contradiction]. rewrite Hsel.
  destruct (generateQuizQuestions host (base64 fd) (mimeType fd)
              (selectedTopics s) (questionCount s)) as [questions|err].
  - eexists _, _. split; [reflexivity|]. simpl. auto 10.
  - eexists _, _. split; [reflexivity|]. simpl.
    split; [reflexivity|]. split; [reflexivity|]. right.
    split; [reflexivity|]. split; [discriminate | reflexivity].
Qed.

Lemma generate_button_passes_guard_witness :
  exists loading final,
    handleGenerateQuiz Samples.host Samples.rng Samples.ready = [loading; final] /\
    appState loading = GENERATING.
Proof.
  destruct (@generate_button_passes_guard Samples.ready Samples.host Samples.rng)
    as (loading & final & Hrun & Hload & _).
  - apply (@play_reachable [FileChange Samples.host (Some Samples.guide)] initialSession);
      [constructor | reflexivity].
  - reflexivity.
  - exists loading, final. split; [exact Hrun | exact Hload].
Defined.

(** X8. When the Next button can be clicked in a reachable session, its
    label agrees with what the click does: it reads Finish exactly when the
    click leads to the review page, and Next Question exactly when the
    click moves on to the following question. *)
Theorem nextButtonLabel_agrees (s : Session) :
  reachable s ->
  enabled NextQuestion s = true ->
  (nextButtonLabel s = "Finish & View Results" <->
   appState (handleNextQuestion s) = REVIEW) /\
  (nextButtonLabel s = "Next Question" <->
   appState (handleNextQuestion s) = TAKING_QUIZ /\
   currentQuestionIndex (handleNextQuestion s) = currentQuestionIndex s + 1).
Proof.
  intros Hr Hen. unfold enabled in Hen.
  destruct (appState s) eqn:Hst; try discriminate.
  destruct (nthZ (quizData s) (currentQuestionIndex s)) as [q|] eqn:Hq; [|discriminate].
  apply nthZ_Some_bounds in Hq.
  unfold nextButtonLabel, handleNextQuestion.
  destruct (currentQuestionIndex s =? lengthZ (quizData s) - 1) eqn:Heq.
  - apply Z.eqb_eq in Heq.
    assert (Hlt : (currentQuestionIndex s <? lengthZ (quizData s) - 1) = false)
      by (apply Z.ltb_ge; lia).
    rewrite Hlt. simpl. split; split; auto; try discriminate.
    intros [H _]. discriminate.
  - apply Z.eqb_neq in Heq.
    assert (Hlt : (currentQuestionIndex s <? lengthZ (quizData s) - 1) = true)
      by (apply Z.ltb_lt; lia).
    rewrite Hlt. simpl. rewrite Hst. split; split; auto; try discriminate.
Qed.

Lemma nextButtonLabel_agrees_witness :
  nextButtonLabel Samples.midQuizSession = "Next Question" /\
  currentQuestionIndex (handleNextQuestion Samples.midQuizSession) = 2.
Proof.
  assert (Hreach : reachable Samples.midQuizSession).
  { apply (@play_reachable Samples.midQuiz initialSession); [constructor|].
    vm_compute. reflexivity. }
  destruct (@nextButtonLabel_agrees Samples.midQuizSession Hreach eq_refl) as [_ Hnext].
  split; [reflexivity|]. apply Hnext. reflexivity.
Defined.

(** X9. Toggling a topic flips whether it is selected and leaves the
    selection of every other topic alone; toggling a topic that was not
    selected twice gives back the same list. *)
Theorem handleTopicToggle_flips (topic : string) (s : Session) :
  (In topic (selectedTopics (handleTopicToggle topic s)) <->
   ~ In topic (selectedTopics s)) /\
  (forall t, t <> topic ->
     (In t (selectedTopics (handleTopicToggle topic s)) <-> In t (selectedTopics s))) /\
  (~ In topic (selectedTopics s) ->
   selectedTopics (handleTopicToggle topic (handleTopicToggle topic s))
   = selectedTopics s).
Proof.
  assert (Hmem : forall l, existsb (String.eqb topic) l = true <-> In topic l).
  { intros l. rewrite existsb_exists. split.
    - intros (t & Hin & Heq). apply String.eqb_eq in Heq. now subst t.
    - intros Hin. exists topic. split; [exact Hin | apply String.eqb_refl]. }
  assert (Hdrop : forall l, ~ In topic l ->
            filter (fun t => negb (String.eqb t topic)) l = l).
  { induction l as [|x l IH]; simpl; intros Hnot; [reflexivity|].
    destruct (String.eqb_spec x topic) as [-> | Hne]; simpl.
    - exfalso. apply Hnot. now left.
    - f_equal. apply IH. intros Hin. apply Hnot. now right. }
  unfold handleTopicToggle. simpl.
  destruct (existsb (String.eqb topic) (selectedTopics s)) eqn:He.
  - apply Hmem in He. split; [|split].
    + rewrite filter_In, String.eqb_refl. simpl. split; [intros [_ H]; discriminate | tauto].
    + intros t Hne. rewrite filter_In.
      destruct (String.eqb_spec t topic) as [-> | _]; [contradiction|]. simpl. tauto.
    + contradiction.
  - assert (Hnot : ~ In topic (selectedTopics s)).
    { intros Hin. apply Hmem in Hin. congruence. }
    split; [|split].
    + split; [auto|]. intros _. apply in_or_app. right. now left.
    + intros t Hne. rewrite in_app_iff. simpl. split; [|auto].
      intros [H | [H | []]]; [exact H | congruence].
    + intros _.
      assert (He2 : existsb (String.eqb topic) (selectedTopics s ++ [topic])%list = true).
      { apply Hmem. apply in_or_app. right. now left. }
      rewrite He2, filter_app, (Hdrop _ Hnot). simpl.
      rewrite String.eqb_refl. simpl. apply app_nil_r.
Qed.

Lemma handleTopicToggle_flips_witness :
  selectedTopics
    (handleTopicToggle "Security" (handleTopicToggle "Security" Samples.ready))
  = selectedTopics Samples.ready.
Proof.
  destruct (handleTopicToggle_flips "Security" Samples.ready) as (_ & _ & Htwice).
  apply Htwice. vm_compute. intros [H | [H | []]]; discriminate.
Defined.

(** ** Uploading a guide *)

(** X10. However the analysis of a selected file goes, the session settles
    in Setup with quiz, answers and question count untouched, and the
    outcome is all or nothing: either no error, the extracted topics (at
    least one) listed and all selected, and the file and its data held; or
    an error message, no topics, no selection, no file and no file data,
    whatever was listed before. Cancelling the file dialog does nothing. *)
Theorem handleFileChange_all_or_nothing (host : Host) (selectedFile : File) (s : Session) :
  let s' := settle (handleFileChange host (Some selectedFile) s) s in
  appState s' = SETUP /\
  quizData s' = quizData s /\ userAnswers s' = userAnswers s /\
  questionCount s' = questionCount s /\
  ((error s' = None /\ topics s' <> [] /\ selectedTopics s' = topics s' /\
    file s' = Some selectedFile /\
    exists b64,
      fileToBase64 selectedFile = Ok b64 /\
      fileData s' = Some {| base64 := b64; mimeType := file_type selectedFile |} /\
      extractTopicsFromGuide host b64 (file_type selectedFile) = Ok (topics s')) \/
   (error s' <> None /\ topics s' = [] /\ selectedTopics s' = [] /\
    file s' = None /\ fileData s' = None)) /\
  handleFileChange host None s = [].
Proof.
  intros s'. subst s'. unfold handleFileChange, settle.
  destruct (fileToBase64 selectedFile) as [b64|err] eqn:Hb.
  - destruct (extractTopicsFromGuide host b64 (file_type selectedFile)) as [ts|err] eqn:He.
    + destruct (lengthZ ts =? 0) eqn:Hz; simpl.
      * repeat split; auto. right. repeat split; auto. discriminate.
      * repeat split; auto. left. repeat split; auto.
        -- intros ->. discriminate.
        -- exists b64. auto.
    + simpl. repeat split; auto. right. repeat split; auto. discriminate.
  - simpl. repeat split; auto. right. repeat split; auto. discriminate.
Qed.

(** X11. The message shown when the analysis fails: the fixed unknown-error
    text when the file cannot be read or when the extraction throws
    something that is not an [Error]; the thrown [Error]'s own message
    otherwise; and the could-not-find-any-topics text when the extraction
    succeeds with an empty list. *)
Theorem handleFileChange_error_shown (host : Host) (selectedFile : File) (s : Session) :
  let s' := settle (handleFileChange host (Some selectedFile) s) s in
  (file_base64 selectedFile = None ->
   error s' = Some "An unknown error occurred during analysis.") /\
  (forall b64 err,
     file_base64 selectedFile = Some b64 ->
     extractTopicsFromGuide host b64 (file_type selectedFile) = Throw err ->
     error s' = Some (match err with
                      | ErrorObj message => message
                      | NonError => "An unknown error occurred during analysis."
                      end)) /\
  (forall b64,
     file_base64 selectedFile = Some b64 ->
     extractTopicsFromGuide host b64 (file_type selectedFile) = Ok [] ->
     error s'
     = Some "Could not find any topics in the document. Please try a different file.").
Proof.
  intros s'. subst s'. unfold handleFileChange, settle, fileToBase64.
  split; [|split].
  - intros ->. reflexivity.
  - intros b64 err -> ->. destruct err; reflexivity.
  - intros b64 -> ->. reflexivity.
Qed.

Lemma handleFileChange_error_shown_witness :
  error (settle (handleFileChange Samples.host (Some Samples.unreadable) Samples.ready)
                Samples.ready)
  = Some "An unknown error occurred during analysis." /\
  error (settle (handleFileChange Samples.hostEmptyTopics (Some Samples.guide) Samples.ready)
                Samples.ready)
  = Some "Could not find any topics in the document. Please try a different file." /\
  error (settle (handleFileChange Samples.hostNoIsGuide (Some Samples.guide) Samples.ready)
                Samples.ready)
  = Some notGuideMessage.
Proof.
  destruct (handleFileChange_error_shown Samples.host Samples.unreadable Samples.ready)
    as (Hread & _ & _).
  destruct (handleFileChange_error_shown Samples.hostEmptyTopics Samples.guide Samples.ready)
    as (_ & _ & Hempty).
  destruct (handleFileChange_error_shown Samples.hostNoIsGuide Samples.guide Samples.ready)
    as (_ & Hthrow & _).
  split; [exact (Hread eq_refl)|]. split; [exact (Hempty _ eq_refl eq_refl)|].
  exact (Hthrow _ (ErrorObj notGuideMessage) eq_refl eq_refl).
Defined.

(** X12. [extractTopicsFromGuide] passes on unchanged whatever the client
    call or [JSON.parse] throws; a reply without the [isGuide] property is
    refused like one with [isGuide = false], even if it lists topics; and
    topics are only ever returned for a reply that parses and says
    [isGuide = true]. *)
Theorem extractTopicsFromGuide_failures (host : Host) (fileBase64 mimeType' : string) :
  (forall err,
     generateContent host (extractTopicsRequest fileBase64 mimeType') = Throw err ->
     extractTopicsFromGuide host fileBase64 mimeType' = Throw err) /\
  (forall response err,
     generateContent host (extractTopicsRequest fileBase64 mimeType') = Ok response ->
     JSON_parse_guide host (resp_text response) = Throw err ->
     extractTopicsFromGuide host fileBase64 mimeType' = Throw err) /\
  (forall response json,
     generateContent host (extractTopicsRequest fileBase64 mimeType') = Ok response ->
     JSON_parse_guide host (resp_text response) = Ok json ->
     json_isGuide json = None ->
     extractTopicsFromGuide host fileBase64 mimeType' = Throw (ErrorObj notGuideMessage)) /\
  (forall extracted,
     extractTopicsFromGuide host fileBase64 mimeType' = Ok extracted ->
     exists response json,
       generateContent host (extractTopicsRequest fileBase64 mimeType') = Ok response /\
       JSON_parse_guide host (resp_text response) = Ok json /\
       json_isGuide json = Some true /\
       (json_topics json = Some extracted \/
        (json_topics json = None /\ extracted = []))).
Proof.
  unfold extractTopicsFromGuide. repeat split.
  - intros err ->. reflexivity.
  - intros response err -> . cbn [bindR]. intros ->. reflexivity.
  - intros response json ->. cbn [bindR]. intros ->. cbn [bindR]. intros ->. reflexivity.
  - intros extracted.
    destruct (generateContent host (extractTopicsRequest fileBase64 mimeType'))
      as [response|e]; [cbn [bindR] | discriminate].
    destruct (JSON_parse_guide host (resp_text response)) as [json|e] eqn:Hp;
      [cbn [bindR] | discriminate].
    destruct (json_isGuide json) as [[|]|] eqn:Hg; cbn [negb]; try discriminate.
    intros H. injection H as <-.
    exists response, json.
    split; [reflexivity|]. split; [exact Hp|]. split; [exact Hg|].
    destruct (json_topics json); auto.
Qed.

Lemma extractTopicsFromGuide_failures_witness :
  extractTopicsFromGuide Samples.hostNoIsGuide "JVBERi0=" "application/pdf"
  = Throw (ErrorObj notGuideMessage).
Proof.
  destruct (extractTopicsFromGuide_failures Samples.hostNoIsGuide "JVBERi0=" "application/pdf")
    as (_ & _ & Hmissing & _).
  exact (Hmissing _ _ eq_refl eq_refl eq_refl).
Defined.

(** ** Grounding chunks *)

Lemma mapR_chunkLine (chunks : list GroundingChunk) :
  (Forall (fun chunk => web chunk <> None) chunks ->
   exists lines, mapR chunkLine chunks = Ok lines /\
                 List.length lines = List.length chunks) /\
  (Exists (fun chunk => web chunk = None) chunks ->
   mapR chunkLine chunks
   = Throw (ErrorObj "Cannot read properties of undefined (reading 'title')")).
Proof.
  induction chunks as [|chunk chunks [IHok IHbad]]; split.
  - intros _. exists []. auto.
  - intros H. inversion H.
  - intros H. inversion H as [|? ? Hw Hrest]. subst.
    destruct (IHok Hrest) as (lines & Hlines & Hlen).
    simpl. unfold chunkLine at 1. destruct (web chunk) as [w|]; [|contradiction].
    cbn [bindR]. rewrite Hlines. cbn [bindR]. eexists. split; [reflexivity|].
    simpl. now rewrite Hlen.
  - intros H. simpl. unfold chunkLine at 1.
    destruct (web chunk) as [w|] eqn:Hw; [|reflexivity].
    cbn [bindR]. inversion H as [? ? Hhere | ? ? Hlater]; subst; [congruence|].
    rewrite (IHbad Hlater). reflexivity.
Qed.

Lemma handleGenerateQuiz_caught (host : Host) (rng : Rng) (s : Session)
    (fd : FileData) (err : Thrown) :
  fileData s = Some fd ->
  lengthZ (selectedTopics s) <> 0 ->
  generateQuizQuestions host (base64 fd) (mimeType fd) (selectedTopics s) (questionCount s)
  = Throw err ->
  settle (handleGenerateQuiz host rng s) s
  = setAppState SETUP
      (setError (Some (messageOr "Failed to generate quiz." err))
        (setLoadingMessage "Generating your custom quiz... This may take a moment."
          (setAppState GENERATING (setError None s)))).
Proof.
  intros Hfd Hsel Hthrow. unfold handleGenerateQuiz. rewrite Hfd.
  destruct (lengthZ (selectedTopics s) =? 0) eqn:Hz; [apply Z.eqb_eq in Hz; contradiction|].
  rewrite Hthrow. reflexivity.
Qed.

(** X13. The sources text exists exactly when every grounding chunk has a
    [web] entry. If the search reply holds a chunk without one,
    [generateQuizQuestions] throws the [TypeError] of the property read,
    whatever the generation phase would have answered, and the caller shows
    that message in Setup. *)
Theorem generateQuizQuestions_chunk_without_web (host : Host)
    (fileBase64 mimeType' : string) (topics' : list string) (questionCount' : Z)
    (searchResponse : Response) :
  generateContent host (searchRequest fileBase64 mimeType' topics') = Ok searchResponse ->
  (isOk (sourcesTextOf (groundingChunksOf searchResponse)) = true <->
   Forall (fun chunk => web chunk <> None) (groundingChunksOf searchResponse)) /\
  (Exists (fun chunk => web chunk = None) (groundingChunksOf searchResponse) ->
   generateQuizQuestions host fileBase64 mimeType' topics' questionCount'
   = Throw (ErrorObj "Cannot read properties of undefined (reading 'title')") /\
   forall rng s,
     fileData s = Some {| base64 := fileBase64; mimeType := mimeType' |} ->
     selectedTopics s = topics' ->
     questionCount s = questionCount' ->
     topics' <> [] ->
     let s' := settle (handleGenerateQuiz host rng s) s in
     appState s' = SETUP /\
     error s' = Some "Cannot read properties of undefined (reading 'title')").
Proof.
  intros Hs.
  assert (Hbad : Exists (fun chunk => web chunk = None) (groundingChunksOf searchResponse) ->
                 sourcesTextOf (groundingChunksOf searchResponse)
                 = Throw (ErrorObj "Cannot read properties of undefined (reading 'title')")).
  { intros Hex. unfold sourcesTextOf.
    destruct (groundingChunksOf searchResponse) as [|c cs] eqn:Hc; [inversion Hex|].
    replace (0 <? lengthZ (c :: cs)) with true
      by (symmetry; apply Z.ltb_lt; unfold lengthZ; simpl; lia).
    rewrite (proj2 (mapR_chunkLine (c :: cs)) Hex). reflexivity. }
  split; [split|].
  - intros Hok. apply Forall_forall. intros chunk Hin Hnone.
    rewrite Hbad in Hok; [discriminate|].
    apply Exists_exists. eauto.
  - intros Hall. unfold sourcesTextOf.
    destruct (0 <? lengthZ (groundingChunksOf searchResponse)); [|reflexivity].
    destruct (proj1 (mapR_chunkLine _) Hall) as (lines & -> & _). reflexivity.
  - intros Hex.
    assert (Hthrow : generateQuizQuestions host fileBase64 mimeType' topics' questionCount'
                     = Throw (ErrorObj "Cannot read properties of undefined (reading 'title')")).
    { unfold generateQuizQuestions. rewrite Hs. cbn [bindR].
      rewrite (Hbad Hex). reflexivity. }
    split; [exact Hthrow|].
    intros rng s Hfd Hsel Hcount Hne s'. subst s'.
    rewrite (@handleGenerateQuiz_caught host rng s _
               (ErrorObj "Cannot read properties of undefined (reading 'title')") Hfd).
    + split; reflexivity.
    + rewrite Hsel. destruct topics'; [contradiction|]. unfold lengthZ. simpl. lia.
    + simpl. rewrite Hsel, Hcount. exact Hthrow.
Qed.

Lemma generateQuizQuestions_chunk_without_web_witness :
  generateQuizQuestions Samples.hostMissingWeb "JVBERi0=" "application/pdf" ["Networking"] 10
  = Throw (ErrorObj "Cannot read properties of undefined (reading 'title')").
Proof.
  destruct (@generateQuizQuestions_chunk_without_web Samples.hostMissingWeb "JVBERi0="
              "application/pdf" ["Networking"] 10 _ eq_refl) as [_ Hbad].
  apply Hbad. apply Exists_cons_tl. apply Exists_cons_hd. reflexivity.
Defined.

(** ** A quiz without questions *)

(** X14. If validation leaves no question (the model returned none, or none
    with exactly one correct answer), [handleGenerateQuiz] still moves the
    session to the quiz page, with an empty quiz, no error message and no
    control to click: neither an answer, nor Next, nor start over. *)
Theorem empty_quiz_has_no_controls (host : Host) (rng : Rng) (s : Session) (fd : FileData) :
  fileData s = Some fd ->
  lengthZ (selectedTopics s) <> 0 ->
  generateQuizQuestions host (base64 fd) (mimeType fd) (selectedTopics s) (questionCount s)
  = Ok [] ->
  let s' := settle (handleGenerateQuiz host rng s) s in
  appState s' = TAKING_QUIZ /\
  quizData s' = [] /\
  error s' = None /\
  (forall ev, enabled ev s' = false) /\
  (forall ev s'', enabled ev s' = true -> In s'' (fire ev s') -> False).
Proof.
  intros Hfd Hsel Hgen s'. subst s'.
  rewrite (handleGenerateQuiz_success host rng s Hfd Hsel Hgen).
  assert (Hnone : forall ev,
            enabled ev
              (setAppState TAKING_QUIZ
                 (setUserAnswers []
                    (setCurrentQuestionIndex 0
                       (setQuizData (fst (randomize [] rng))
                          (setLoadingMessage
                             "Generating your custom quiz... This may take a moment."
                             (setAppState GENERATING (setError None s)))))))
            = false).
  { intros ev. destruct ev; reflexivity. }
  repeat split; auto.
  intros ev s'' Hen. rewrite Hnone in Hen. discriminate.
Qed.

Lemma empty_quiz_has_no_controls_witness :
  generateQuizQuestions Samples.hostAllBad "JVBERi0=" "application/pdf"
    ["Networking"; "Storage"] 10 = Ok [] /\
  appState (settle (handleGenerateQuiz Samples.hostAllBad Samples.rng Samples.ready)
                   Samples.ready)
  = TAKING_QUIZ /\
  enabled StartOver
    (settle (handleGenerateQuiz Samples.hostAllBad Samples.rng Samples.ready) Samples.ready)
  = false.
Proof.
  destruct (@empty_quiz_has_no_controls Samples.hostAllBad Samples.rng Samples.ready
              {| base64 := "JVBERi0="; mimeType := "application/pdf" |}
              eq_refl ltac:(vm_compute; discriminate) eq_refl)
    as (Hst & _ & _ & Hnone & _).
  split; [reflexivity|]. split; [exact Hst | apply Hnone].
Defined.

(** ** Looking up a stored answer *)

(** X15. After the answer [a] is selected for the current question, the
    page finds [a] as that question's answer (and highlights that button
    only); the answers stored for the other questions are found as before;
    and a later selection for the same question replaces the earlier one:
    selecting [a] then [b] gives the same session as selecting [b]. *)
Theorem handleAnswerSelect_lookup (s : Session) (a : Z) :
  let s' := handleAnswerSelect (currentQuestionIndex s) a s in
  userAnswerIndex s' = Some a /\
  (forall aIndex, isUserAnswer s' (currentQuestionIndex s) aIndex = (a =? aIndex)) /\
  (forall q', q' <> currentQuestionIndex s ->
     find (fun x => questionIndex x =? q') (userAnswers s')
     = find (fun x => questionIndex x =? q') (userAnswers s)) /\
  (forall b, handleAnswerSelect (currentQuestionIndex s) b s'
             = handleAnswerSelect (currentQuestionIndex s) b s).
Proof.
  intros s'. subst s'.
  pose proof (find_selectAnswer_same (currentQuestionIndex s) a (userAnswers s)) as Hsame.
  split; [|split; [|split]].
  - unfold userAnswerIndex, handleAnswerSelect. simpl.
    destruct (find _ (selectAnswer _ a (userAnswers s))) as [x|];
      simpl in Hsame; [exact Hsame | discriminate].
  - intros aIndex. unfold isUserAnswer, handleAnswerSelect. simpl.
    destruct (find _ (selectAnswer _ a (userAnswers s))) as [x|];
      simpl in Hsame; [|discriminate].
    injection Hsame as ->. reflexivity.
  - intros q' Hne. unfold handleAnswerSelect. simpl.
    now apply find_selectAnswer_other.
  - intros b. unfold handleAnswerSelect, setUserAnswers. simpl.
    now rewrite selectAnswer_overwrites.
Qed.

(** ** After start over *)

Lemma handleStartOver_fields (s : Session) :
  handleStartOver s
  = mkSession SETUP None None [] [] (questionCount s) [] (currentQuestionIndex s)
      [] None (loadingMessage s).
Proof. reflexivity. Qed.

(** In Setup with no topic listed, the page shows the file input only. *)
Lemma setup_without_topics (s : Session) (ev : Event) :
  appState s = SETUP ->
  topics s = [] ->
  enabled ev s = true ->
  exists host selectedFile, ev = FileChange host selectedFile.
Proof.
  intros Hst Ht Hen. unfold enabled in Hen. rewrite Hst, Ht in Hen.
  destruct ev as [host selectedFile | | | | | |]; [eauto | | | | | |];
    simpl in Hen; discriminate Hen.
Qed.

(* The arguments of the next statement are all given explicitly. *)
Unset Implicit Arguments.

(** X16. After start over the only control left is the file input: topics,
    slider and Generate button are gone until a guide is uploaded again.
    Start over twice is the same as once, and the score is 0. *)
Theorem start_over_leaves_only_upload (s : Session) (ev : Event) :
  enabled ev (handleStartOver s) = true ->
  (exists host selectedFile, ev = FileChange host selectedFile) /\
  handleStartOver (handleStartOver s) = handleStartOver s /\
  score (handleStartOver s) = Ok 0.
Proof.
  intros Hen. split; [|split].
  - apply (@setup_without_topics (handleStartOver s) ev eq_refl eq_refl Hen).
  - rewrite (handleStartOver_fields (handleStartOver s)).
    rewrite (handleStartOver_fields s). reflexivity.
  - reflexivity.
Qed.

Set Implicit Arguments.

Lemma start_over_leaves_only_upload_witness :
  (exists host selectedFile,
     FileChange Samples.host (Some Samples.guide) = FileChange host selectedFile) /\
  score (handleStartOver Samples.reviewSession) = Ok 0.
Proof.
  destruct (start_over_leaves_only_upload Samples.reviewSession
              (FileChange Samples.host (Some Samples.guide)) eq_refl)
    as (Hev & _ & Hscore).
  split; [exact Hev | exact Hscore].
Defined.

(** ** The review page *)

Lemma nthZ_cons_succ {A : Type} (x : A) (l : list A) (i : Z) :
  0 <= i -> nthZ (x :: l) (i + 1) = nthZ l i.
Proof.
  intros Hi. unfold nthZ.
  destruct (i + 1 <? 0) eqn:H1; [apply Z.ltb_lt in H1; lia|].
  destruct (i <? 0) eqn:H2; [apply Z.ltb_lt in H2; lia|].
  replace (Z.to_nat (i + 1)) with (S (Z.to_nat i)) by lia. reflexivity.
Qed.

Lemma nthZ_negative {A : Type} (l : list A) (i : Z) : i < 0 -> nthZ l i = None.
Proof. intros Hi. unfold nthZ. apply Z.ltb_lt in Hi. now rewrite Hi. Qed.

(** The badges of one question: at most one, on the card the stored answer
    points at, and only if that card is not the correct one. *)
Lemma badge_row_count (s : Session) (qIndex : Z) (l : list Answer) : forall from : Z,
  countTrue (mapIndexed (fun answer aIndex => yourAnswerBadge s qIndex aIndex answer) from l)
  = match find (fun a => questionIndex a =? qIndex) (userAnswers s) with
    | Some userAnswer =>
        match nthZ l (answerIndex userAnswer - from) with
        | Some answer => if isCorrect answer then 0 else 1
        | None => 0
        end
    | None => 0
    end.
Proof.
  unfold yourAnswerBadge, isUserAnswer.
  destruct (find (fun a => questionIndex a =? qIndex) (userAnswers s)) as [ua|].
  - induction l as [|x l IH]; intros from.
    + simpl. unfold nthZ. destruct (answerIndex ua - from <? 0); [reflexivity|].
      now destruct (Z.to_nat (answerIndex ua - from)).
    + cbn [mapIndexed]. unfold countTrue in *. cbn [filter].
      destruct (answerIndex ua =? from) eqn:Hhere.
      * apply Z.eqb_eq in Hhere.
        specialize (IH (from + 1)).
        rewrite (@nthZ_negative _ l (answerIndex ua - (from + 1))) in IH by lia.
        replace (answerIndex ua - from) with 0 by lia.
        cbn [nthZ Z.ltb Z.compare Z.to_nat nth_error].
        destruct (isCorrect x); cbn [negb andb]; [exact IH|].
        unfold lengthZ in *. cbn [List.length]. lia.
      * apply Z.eqb_neq in Hhere. cbn [andb]. rewrite (IH (from + 1)).
        destruct (Z_lt_le_dec (answerIndex ua - from) 0) as [Hneg | Hpos].
        -- rewrite !nthZ_negative by lia. reflexivity.
        -- replace (answerIndex ua - from) with ((answerIndex ua - (from + 1)) + 1) by lia.
           rewrite nthZ_cons_succ by lia. reflexivity.
  - induction l as [|x l IH]; intros from; [reflexivity|].
    cbn [mapIndexed]. unfold countTrue in *. cbn [filter andb]. apply IH.
Qed.

Lemma green_cards (s : Session) (qIndex : Z) (l : list Answer) : forall from : Z,
  lengthZ (filter (String.eqb "border-green-500")
             (mapIndexed (fun answer aIndex => borderColor s qIndex aIndex answer) from l))
  = lengthZ (filter isCorrect l).
Proof.
  assert (Hgg : String.eqb "border-green-500" "border-green-500" = true) by reflexivity.
  assert (Hgr : String.eqb "border-green-500" "border-red-500" = false) by reflexivity.
  assert (Hgy : String.eqb "border-green-500" "border-gray-700" = false) by reflexivity.
  induction l as [|x l IH]; intros from; [reflexivity|].
  cbn [mapIndexed filter]. unfold borderColor at 1. specialize (IH (from + 1)).
  destruct (isCorrect x); [|destruct (isUserAnswer s qIndex from)];
    rewrite ?Hgg, ?Hgr, ?Hgy; unfold lengthZ in *; cbn [List.length]; lia.
Qed.

Lemma red_cards (s : Session) (qIndex : Z) (l : list Answer) : forall from : Z,
  lengthZ (filter (String.eqb "border-red-500")
             (mapIndexed (fun answer aIndex => borderColor s qIndex aIndex answer) from l))
  = countTrue
      (mapIndexed (fun answer aIndex => yourAnswerBadge s qIndex aIndex answer) from l).
Proof.
  assert (Hrg : String.eqb "border-red-500" "border-green-500" = false) by reflexivity.
  assert (Hrr : String.eqb "border-red-500" "border-red-500" = true) by reflexivity.
  assert (Hry : String.eqb "border-red-500" "border-gray-700" = false) by reflexivity.
  induction l as [|x l IH]; intros from; [reflexivity|].
  cbn [mapIndexed]. unfold countTrue in *. cbn [filter].
  unfold borderColor at 1, yourAnswerBadge at 1. specialize (IH (from + 1)).
  destruct (isCorrect x); destruct (isUserAnswer s qIndex from);
    rewrite ?Hrg, ?Hrr, ?Hry; cbn [andb negb];
    unfold lengthZ in *; cbn [List.length]; lia.
Qed.

(** X17. For each question of a reachable session, exactly one answer card
    has the green border, and at most one has the red border; a red border
    and the YOUR ANSWER badge go together, on the card stored as the user's
    answer when that answer is not the correct one. *)
Theorem review_card_borders (s : Session) (qIndex : Z) (q : QuizQuestion) :
  reachable s ->
  nthZ (quizData s) qIndex = Some q ->
  lengthZ (filter (String.eqb "border-green-500") (cardBorders s qIndex q)) = 1 /\
  lengthZ (filter (String.eqb "border-red-500") (cardBorders s qIndex q))
  = match find (fun a => questionIndex a =? qIndex) (userAnswers s) with
    | Some userAnswer =>
        match nthZ (answers q) (answerIndex userAnswer) with
        | Some answer => if isCorrect answer then 0 else 1
        | None => 0
        end
    | None => 0
    end /\
  0 <= lengthZ (filter (String.eqb "border-red-500") (cardBorders s qIndex q)) <= 1.
Proof.
  intros Hr Hq. unfold cardBorders.
  assert (Hred : lengthZ (filter (String.eqb "border-red-500")
                            (mapIndexed (fun answer aIndex =>
                                           borderColor s qIndex aIndex answer)
                                        0 (answers q)))
                 = match find (fun a => questionIndex a =? qIndex) (userAnswers s) with
                   | Some userAnswer =>
                       match nthZ (answers q) (answerIndex userAnswer) with
                       | Some answer => if isCorrect answer then 0 else 1
                       | None => 0
                       end
                   | None => 0
                   end).
  { rewrite red_cards, badge_row_count.
    destruct (find (fun a => questionIndex a =? qIndex) (userAnswers s)) as [ua|];
      [|reflexivity].
    now rewrite Z.sub_0_r. }
  split; [|split; [exact Hred|]].
  - rewrite green_cards.
    pose proof (reachable_valid Hr) as Hvalid. rewrite Forall_forall in Hvalid.
    assert (Hin : In q (quizData s)).
    { unfold nthZ in Hq. destruct (qIndex <? 0); [discriminate|].
      eapply nth_error_In; eauto. }
    specialize (Hvalid q Hin). unfold exactlyOneCorrect in Hvalid.
    now apply Z.eqb_eq in Hvalid.
  - rewrite Hred.
    destruct (find (fun a => questionIndex a =? qIndex) (userAnswers s)) as [ua|]; [|lia].
    destruct (nthZ (answers q) (answerIndex ua)) as [a|]; [|lia].
    destruct (isCorrect a); lia.
Qed.

Lemma review_card_borders_witness :
  exists q,
    nthZ (quizData Samples.reviewSession) 0 = Some q /\
    question q = "q2" /\
    map text (answers q) = ["b"; "d"; "c"; "a"] /\
    cardBorders Samples.reviewSession 0 q
    = ["border-green-500"; "border-red-500"; "border-gray-700"; "border-gray-700"] /\
    lengthZ (filter (String.eqb "border-green-500")
               (cardBorders Samples.reviewSession 0 q)) = 1.
Proof.
  assert (Hreach : reachable Samples.reviewSession).
  { apply (@play_reachable Samples.fullQuiz initialSession); [constructor|].
    vm_compute. reflexivity. }
  assert (Hq : nthZ (quizData Samples.reviewSession) 0
               = Some {| question := "q2";
                         answers := [Samples.right "b"; Samples.wrong "d";
                                     Samples.wrong "c"; Samples.wrong "a"];
                         source := Samples.src |}) by reflexivity.
  destruct (@review_card_borders _ _ _ Hreach Hq) as (Hgreen & _).
  eexists. split; [exact Hq|]. split; [reflexivity|]. split; [reflexivity|].
  split; [reflexivity | exact Hgreen].
Defined.

Lemma map_mapIndexed {A B C : Type} (g : B -> C) (f : A -> Z -> B) (l : list A) :
  forall from, map g (mapIndexed f from l) = mapIndexed (fun x i => g (f x i)) from l.
Proof.
  induction l as [|x l IH]; intros from; simpl; [reflexivity|]. now rewrite IH.
Qed.

Lemma mapIndexed_indices {A : Type} (l : list A) : forall from : Z,
  mapIndexed (fun _ i => i) from l
  = map (fun k => from + Z.of_nat k) (seq 0 (List.length l)).
Proof.
  induction l as [|x l IH]; intros from; [reflexivity|].
  cbn [mapIndexed List.length seq map]. f_equal; [lia|].
  rewrite IH, <- seq_shift, map_map. apply map_ext. intros k. lia.
Qed.

Lemma find_unique (ua : UserAnswer) (l : list UserAnswer) :
  NoDup (map questionIndex l) ->
  In ua l ->
  find (fun x => questionIndex x =? questionIndex ua) l = Some ua.
Proof.
  induction l as [|x l IH]; simpl; intros Hnd Hin; [contradiction|].
  inversion Hnd as [|? ? Hnot Hrest]. subst.
  destruct Hin as [-> | Hin].
  - now rewrite Z.eqb_refl.
  - destruct (questionIndex x =? questionIndex ua) eqn:Hx; [|now apply IH].
    apply Z.eqb_eq in Hx. exfalso. apply Hnot. rewrite Hx. now apply in_map.
Qed.

(** Question by question, the badge count is 1 for a wrong stored answer
    and 0 for a correct one. *)
Lemma badges_by_question (s : Session) (rest : list QuizQuestion) :
  forall (from : Z) (stored : list UserAnswer),
  0 <= from ->
  (forall k q, nth_error rest k = Some q ->
               nthZ (quizData s) (from + Z.of_nat k) = Some q) ->
  map questionIndex stored = mapIndexed (fun _ i => i) from rest ->
  (forall ua, In ua stored ->
     find (fun x => questionIndex x =? questionIndex ua) (userAnswers s) = Some ua /\
     inBounds (quizData s) ua) ->
  fold_right Z.add 0
    (mapIndexed
       (fun q qIndex =>
          countTrue (mapIndexed (fun answer aIndex => yourAnswerBadge s qIndex aIndex answer)
                                0 (answers q)))
       from rest)
  = lengthZ (filter (fun ua => negb (selectedIsCorrect (quizData s) ua)) stored).
Proof.
  induction rest as [|q rest IH]; intros from stored Hfrom Hnth Hkeys Hstored.
  - destruct stored; [reflexivity | discriminate].
  - destruct stored as [|ua stored]; [discriminate|].
    cbn [map mapIndexed] in Hkeys. injection Hkeys as Hkey Hkeys.
    cbn [mapIndexed fold_right filter].
    rewrite (IH (from + 1) stored).
    + destruct (Hstored ua (or_introl eq_refl)) as [Hfind (_ & q' & Hq' & Ha)].
      assert (Hq : nthZ (quizData s) from = Some q).
      { specialize (Hnth 0%nat q eq_refl). now rewrite Z.add_0_r in Hnth. }
      rewrite Hkey in Hfind, Hq'. rewrite Hq in Hq'. injection Hq' as <-.
      destruct (nthZ_in_bounds (answers q) Ha) as [a Hsel].
      assert (Hpick : selectedIsCorrect (quizData s) ua = isCorrect a).
      { unfold selectedIsCorrect. now rewrite Hkey, Hq, Hsel. }
      rewrite badge_row_count, Hfind, Z.sub_0_r, Hsel, Hpick.
      destruct (isCorrect a); cbn [negb]; unfold lengthZ; cbn [List.length]; lia.
    + lia.
    + intros k q0 Hk. specialize (Hnth (S k) q0 Hk).
      replace (from + 1 + Z.of_nat k) with (from + Z.of_nat (S k)) by lia. exact Hnth.
    + exact Hkeys.
    + intros ua' Hin. apply Hstored. now right.
Qed.

(** X18. On the review page of a reachable session the score and the number
    of YOUR ANSWER badges add up to the number of questions: every question
    either counts towards the score or shows the user's wrong pick, never
    both and never neither. *)
Theorem review_score_and_badges (s : Session) :
  reachable s ->
  appState s = REVIEW ->
  exists k,
    score s = Ok k /\
    0 <= totalBadges s /\
    k + totalBadges s = lengthZ (quizData s) /\
    (k = lengthZ (quizData s) <-> totalBadges s = 0).
Proof.
  intros Hr Hst.
  destruct (reachable_invariant Hr) as [Hnd Hb].
  pose proof (reachable_phase Hr) as Hinv.
  unfold phaseInvariant in Hinv. rewrite Hst in Hinv. destruct Hinv as (Hkeys & _ & _).
  assert (Htotal : totalBadges s
                   = lengthZ (filter (fun ua => negb (selectedIsCorrect (quizData s) ua))
                                (userAnswers s))).
  { unfold totalBadges, reviewBadges. rewrite map_mapIndexed.
    apply badges_by_question.
    - lia.
    - intros k q Hk. rewrite Z.add_0_l. unfold nthZ.
      destruct (Z.of_nat k <? 0) eqn:Hneg; [apply Z.ltb_lt in Hneg; lia|].
      now rewrite Nat2Z.id.
    - rewrite Hkeys, mapIndexed_indices. unfold upTo, lengthZ.
      rewrite Nat2Z.id. reflexivity.
    - intros ua Hin. split; [now apply find_unique|].
      rewrite Forall_forall in Hb. now apply Hb. }
  assert (Hlen : List.length (userAnswers s) = List.length (quizData s)).
  { rewrite <- (length_map questionIndex (userAnswers s)), Hkeys, upTo_length.
    unfold lengthZ. lia. }
  pose proof (filter_split_length (selectedIsCorrect (quizData s)) (userAnswers s))
    as Hsplit.
  exists (correctAnswers s). split.
  - unfold score. rewrite (score_fold 0 Hb). reflexivity.
  - rewrite Htotal. unfold correctAnswers, lengthZ in *. lia.
Qed.

Lemma review_score_and_badges_witness :
  score Samples.reviewSession = Ok 1 /\
  totalBadges Samples.reviewSession = 2 /\
  lengthZ (quizData Samples.reviewSession) = 3.
Proof.
  assert (Hreach : reachable Samples.reviewSession).
  { apply (@play_reachable Samples.fullQuiz initialSession); [constructor|].
    vm_compute. reflexivity. }
  destruct (@review_score_and_badges Samples.reviewSession Hreach eq_refl)
    as (k & Hk & _ & Hsum & _).
  assert (Hone : k = 1).
  { assert (Hs : score Samples.reviewSession = Ok 1) by (vm_compute; reflexivity).
    rewrite Hs in Hk. now injection Hk. }
  subst k. split; [exact Hk|]. split; [|reflexivity].
  assert (Hlen : lengthZ (quizData Samples.reviewSession) = 3) by reflexivity.
  rewrite Hlen in Hsum. lia.
Defined.

(** ** Progress *)

Lemma valid_question_has_answer (q : QuizQuestion) :
  exactlyOneCorrect q = true -> validChoice 0 q.
Proof.
  unfold exactlyOneCorrect, validChoice, lengthZ. intros H. apply Z.eqb_eq in H.
  destruct (answers q) as [|a l]; [discriminate|]. simpl. lia.
Qed.

Lemma first_choice_valid (l : list QuizQuestion) :
  Forall (fun q => exactlyOneCorrect q = true) l ->
  Forall2 validChoice (repeat 0 (List.length l)) l.
Proof.
  induction 1 as [|q l Hq _ IH]; simpl; constructor; auto.
  now apply valid_question_has_answer.
Qed.

Lemma Forall_skipn {A : Type} (P : A -> Prop) (n : nat) (l : list A) :
  Forall P l -> Forall P (skipn n l).
Proof.
  intros H. apply Forall_forall. intros x Hx. rewrite Forall_forall in H.
  apply H. rewrite <- (firstn_skipn n l). apply in_or_app. now right.
Qed.

(** X19. A reachable session that is not waiting for the client always
    offers a control, with one exception: the quiz page of an empty quiz.
    In Setup the file input is there, on the quiz page of a non-empty quiz
    the current question has an answer button, and on the review page the
    score is computed and start over is there. *)
Theorem only_empty_quiz_is_stuck (s : Session) :
  reachable s ->
  appState s <> ANALYZING ->
  appState s <> GENERATING ->
  (exists ev, enabled ev s = true) \/
  (appState s = TAKING_QUIZ /\ quizData s = [] /\ forall ev, enabled ev s = false).
Proof.
  intros Hr Hna Hng.
  pose proof (reachable_phase Hr) as Hinv. unfold phaseInvariant in Hinv.
  destruct (reachable_invariant Hr) as [_ Hb].
  pose proof (reachable_valid Hr) as Hvalid.
  destruct (appState s) eqn:Hst; try contradiction.
  - left. exists (FileChange Samples.hostDown None). unfold enabled. now rewrite Hst.
  - destruct Hinv as (Hpos & [Hlt | [Hnil Hzero]] & _).
    + left. destruct (@nthZ_in_bounds _ (quizData s) (currentQuestionIndex s)) as [q Hq];
        [lia|].
      assert (Hin : In q (quizData s)).
      { unfold nthZ in Hq. destruct (currentQuestionIndex s <? 0); [discriminate|].
        eapply nth_error_In; eauto. }
      rewrite Forall_forall in Hvalid.
      pose proof (@valid_question_has_answer q (Hvalid q Hin)) as [_ Hone].
      exists (AnswerSelect 0). unfold enabled. rewrite Hst, Hq.
      apply andb_true_intro. split; [reflexivity | now apply Z.ltb_lt].
    + right. split; [reflexivity|]. split; [exact Hnil|].
      intros ev. unfold enabled. rewrite Hst, Hnil, Hzero.
      destruct ev; reflexivity.
  - left. exists StartOver. unfold enabled. rewrite Hst.
    unfold score. rewrite (score_fold 0 Hb). reflexivity.
Qed.

Lemma only_empty_quiz_is_stuck_witness :
  (exists ev, enabled ev Samples.midQuizSession = true) \/
  (appState Samples.midQuizSession = TAKING_QUIZ /\
   quizData Samples.midQuizSession = [] /\
   forall ev, enabled ev Samples.midQuizSession = false).
Proof.
  apply only_empty_quiz_is_stuck.
  - apply (@play_reachable Samples.midQuiz initialSession); [constructor|].
    vm_compute. reflexivity.
  - vm_compute. discriminate.
  - vm_compute. discriminate.
Defined.

(** X20. From the quiz page of a reachable session with a non-empty quiz the
    review page can always be reached: answering each remaining question
    (with its first answer, say) and clicking Next is a run of available
    clicks that ends on the review page. *)
Theorem quiz_can_be_finished (s : Session) :
  reachable s ->
  appState s = TAKING_QUIZ ->
  quizData s <> [] ->
  exists (choices : list Z) (final : Session),
    lengthZ choices = lengthZ (quizData s) - currentQuestionIndex s /\
    play (quizEvents choices) s = Some final /\
    reachable final /\
    appState final = REVIEW /\
    quizData final = quizData s.
Proof.
  intros Hr Hst Hne.
  pose proof (reachable_phase Hr) as Hinv. unfold phaseInvariant in Hinv.
  rewrite Hst in Hinv. destruct Hinv as (Hpos & Hidx & _).
  assert (Hlt : currentQuestionIndex s < lengthZ (quizData s)).
  { destruct Hidx as [Hlt | [Hnil _]]; [exact Hlt | contradiction]. }
  pose proof (reachable_valid Hr) as Hvalid.
  set (rest := skipn (Z.to_nat (currentQuestionIndex s)) (quizData s)).
  assert (Hrest : List.length rest
                  = (List.length (quizData s) - Z.to_nat (currentQuestionIndex s))%nat).
  { unfold rest. apply length_skipn. }
  assert (Hlen : lengthZ (repeat 0 (List.length rest))
                 = lengthZ (quizData s) - currentQuestionIndex s).
  { unfold lengthZ in *. rewrite repeat_length, Hrest. lia. }
  set (choices := repeat 0 (List.length rest)) in *.
  assert (Hchoices : choices <> []).
  { intros Hnil. rewrite Hnil in Hlen. unfold lengthZ in *. simpl in Hlen. lia. }
  assert (Hvalidc : Forall2 validChoice choices rest).
  { apply first_choice_valid. now apply Forall_skipn. }
  destruct (@takeQuiz_run choices s Hst Hchoices)
    as (before & final & Hrun & _ & Hfinal & _ & _); [lia|].
  pose proof (@play_quizEvents choices s Hst Hpos Hchoices Hvalidc) as Hplay.
  rewrite Hrun, last_last in Hplay.
  exists choices, final.
  split; [exact Hlen|]. split; [exact Hplay|].
  split; [eapply play_reachable; eauto|]. split; [exact Hfinal|].
  assert (Hkeep : forall cs t, Forall (fun u => quizData u = quizData t) (takeQuiz cs t)).
  { induction cs as [|c cs IH]; intros t; simpl; [constructor|].
    assert (Hnext : quizData (handleNextQuestion
                                (handleAnswerSelect (currentQuestionIndex t) c t))
                    = quizData t).
    { unfold handleNextQuestion.
      destruct (currentQuestionIndex _ <? lengthZ (quizData _) - 1); reflexivity. }
    constructor; [reflexivity|]. constructor; [exact Hnext|].
    eapply Forall_impl; [|apply IH]. intros u Hu. simpl in Hu. now rewrite Hu, Hnext. }
  specialize (Hkeep choices s). rewrite Hrun, Forall_app in Hkeep.
  destruct Hkeep as [_ Hk]. now inversion Hk.
Qed.

Lemma quiz_can_be_finished_witness :
  exists (choices : list Z) (final : Session),
    lengthZ choices = 2 /\
    play (quizEvents choices) Samples.midQuizSession = Some final /\
    appState final = REVIEW.
Proof.
  assert (Hreach : reachable Samples.midQuizSession).
  { apply (@play_reachable Samples.midQuiz initialSession); [constructor|].
    vm_compute. reflexivity. }
  destruct (@quiz_can_be_finished Samples.midQuizSession Hreach eq_refl)
    as (choices & final & Hlen & Hplay & _ & Hfinal & _).
  { vm_compute. discriminate. }
  exists choices, final. split; [|split; [exact Hplay | exact Hfinal]].
  rewrite Hlen. reflexivity.
Defined.
